(** * The package scaffolding script ([scripts/create.ts])

    A shallow embedding of the script that creates a new package
    directory under [packages/], together with the pieces of the
    JavaScript runtime it relies on: property reads, truthiness, template
    literals, [JSON.stringify], [path.join], [path.resolve], the
    asynchronous file writes gathered by [Promise.all], and a file
    system that holds each node under one name and makes no missing
    parent.  The two paths the [filecoin] package computes, in its
    test helper and in its bundler configuration, are embedded with
    it. *)

From Stdlib Require Import ZArith Ascii DecimalString Lia.
From stdpp Require Import base strings list gmap.

Set Warnings "-register-all".

Local Open Scope Z_scope.
Local Open Scope stdpp_scope.

(** ** Strings *)

Module Str.

(** The line feed, written [\n] in the script's literals. *)
Definition nl : string := String (ascii_of_nat 10) "".

(** The double quote. *)
Definition dq : string := String (ascii_of_nat 34) "".

(** The backslash. *)
Definition bs : string := String (ascii_of_nat 92) "".

(** The backquote. *)
Definition bq : string := String (ascii_of_nat 96) "".

(** [Array.prototype.join] on an array of strings. *)
Fixpoint join (sep : string) (xs : list string) : string :=
  match xs with
  | [] => ""
  | [x] => x
  | x :: rest => x +:+ sep +:+ join sep rest
  end.

(** Decimal rendering of an integer, as [Number.prototype.toString]
    gives it for integers below 10^21 in magnitude. *)
Definition of_Z (n : Z) : string := NilEmpty.string_of_int (Z.to_int n).

(** The last character of a string, if any. *)
Fixpoint last (s : string) : option ascii :=
  match s with
  | EmptyString => None
  | String c EmptyString => Some c
  | String _ rest => last rest
  end.

(** [true] when the string holds the character. *)
Fixpoint mem (c : ascii) (s : string) : bool :=
  match s with
  | EmptyString => false
  | String d rest => if Ascii.eqb c d then true else mem c rest
  end.

End Str.

(** ** JavaScript values *)

(** The values the script handles: what [require] of a JSON file can
    return, plus [undefined].  An object holds its own enumerable
    properties in enumeration order.  Numbers are integers: the script
    writes no other number, and a manifest read from disk that holds a
    fraction is outside the model. *)
Inductive value : Type :=
  | VUndef
  | VNull
  | VBool (b : bool)
  | VNum (n : Z)
  | VStr (s : string)
  | VArr (xs : list value)
  | VObj (kvs : list (string * value)).

(** What the script can throw or a promise can reject with. *)
Inductive error : Type :=
  | Error (msg : string)
  | TypeError (msg : string)
  | SyntaxError (msg : string)
  | SystemError (code : string) (path : string).

(** A computation that returns or throws. *)
Inductive result (A : Type) : Type :=
  | Ok (a : A)
  | Err (e : error).
Arguments Ok {A} a.
Arguments Err {A} e.

Definition bind {A B} (r : result A) (k : A -> result B) : result B :=
  match r with
  | Ok a => k a
  | Err e => Err e
  end.

Notation "'let!' x ':=' r 'in' k" := (bind r (fun x => k))
  (at level 10, x name, r at level 100, k at level 200).

Module JS.

(** [ToBoolean]. *)
Definition truthy (v : value) : bool :=
  match v with
  | VUndef | VNull => false
  | VBool b => b
  | VNum n => negb (n =? 0)
  | VStr s => negb (String.eqb s "")
  | VArr _ | VObj _ => true
  end.

(** [a || b] on values already evaluated. *)
Definition or (a b : value) : value := if truthy a then a else b.

(** Lookup of an own property. *)
Fixpoint lookup (k : string) (kvs : list (string * value)) : option value :=
  match kvs with
  | [] => None
  | (k', v) :: rest => if String.eqb k k' then Some v else lookup k rest
  end.

(** [v[k]] for the property names the script reads ([author],
    [devDependencies] and the package names under it): none of them is
    [length], an index or a member of a prototype, so a string, a
    number, a boolean or an array answers [undefined]; reading a
    property of [undefined] or [null] throws. *)
Definition get (v : value) (k : string) : result value :=
  match v with
  | VUndef => Err (TypeError ("Cannot read properties of undefined (reading '" +:+ k +:+ "')"))
  | VNull => Err (TypeError ("Cannot read properties of null (reading '" +:+ k +:+ "')"))
  | VObj kvs => Ok (default VUndef (lookup k kvs))
  | _ => Ok VUndef
  end.

(** [ToString], as a template literal applies it. *)
Fixpoint to_string (v : value) : string :=
  match v with
  | VUndef => "undefined"
  | VNull => "null"
  | VBool true => "true"
  | VBool false => "false"
  | VNum n => Str.of_Z n
  | VStr s => s
  | VArr xs =>
      Str.join ","
        (map (fun x => match x with
                       | VUndef | VNull => ""
                       | _ => to_string x
                       end) xs)
  | VObj _ => "[object Object]"
  end.

(** [{...o}]: the own properties of an object; spreading [null] or
    [undefined] gives the empty object.  The script spreads only the
    resolved formatter configuration, an object or [null]. *)
Definition spread (v : value) : list (string * value) :=
  match v with
  | VObj kvs => kvs
  | _ => []
  end.

(** Definition of a property in an object literal: an existing key
    keeps its place and takes the new value, a new key goes last. *)
Fixpoint set (k : string) (v : value) (kvs : list (string * value))
  : list (string * value) :=
  match kvs with
  | [] => [(k, v)]
  | (k', v') :: rest =>
      if String.eqb k k' then (k', v) :: rest else (k', v') :: set k v rest
  end.

(** [v.slice(start)] on what [JSON.parse] can return: an array or a
    string gives its elements or characters from [start] on; no other
    value has a method of that name, and calling what is not a function
    throws, as reading a property of [null] or [undefined] does. *)
Definition slice (v : value) (start : nat) : result value :=
  match v with
  | VArr xs => Ok (VArr (drop start xs))
  | VStr s => Ok (VStr (String.substring start (String.length s - start) s))
  | VUndef =>
      Err (TypeError "Cannot read properties of undefined (reading 'slice')")
  | VNull =>
      Err (TypeError "Cannot read properties of null (reading 'slice')")
  | _ => Err (TypeError "JSON.parse(...).original.slice is not a function")
  end.

End JS.

(** ** [JSON.stringify] *)

Module JSON.

Definition hex_digit (n : nat) : ascii :=
  ascii_of_nat (if Nat.ltb n 10 then 48 + n else 87 + n)%nat.

(** One code unit inside a JSON string literal. *)
Definition quote_char (c : ascii) : string :=
  let n := nat_of_ascii c in
  if Nat.eqb n 8 then Str.bs +:+ "b"
  else if Nat.eqb n 9 then Str.bs +:+ "t"
  else if Nat.eqb n 10 then Str.bs +:+ "n"
  else if Nat.eqb n 12 then Str.bs +:+ "f"
  else if Nat.eqb n 13 then Str.bs +:+ "r"
  else if Nat.eqb n 34 then Str.bs +:+ Str.dq
  else if Nat.eqb n 92 then Str.bs +:+ Str.bs
  else if Nat.ltb n 32 then
    Str.bs +:+ "u00" +:+ String (hex_digit (n / 16)) (String (hex_digit (n mod 16)) "")
  else String c "".

Fixpoint quote_body (s : string) : string :=
  match s with
  | EmptyString => ""
  | String c rest => quote_char c +:+ quote_body rest
  end.

(** [QuoteJSONString]. *)
Definition quote (s : string) : string := Str.dq +:+ quote_body s +:+ Str.dq.

(** The closing steps of [SerializeJSONObject] and
    [SerializeJSONArray]: [stepback] is the indentation outside,
    [indent] the one inside. *)
Definition wrap (opening closing gap stepback indent : string)
    (partial : list string) : string :=
  match partial with
  | [] => opening +:+ closing
  | _ =>
      if String.eqb gap "" then
        opening +:+ Str.join "," partial +:+ closing
      else
        opening +:+ Str.nl +:+ indent
          +:+ Str.join ("," +:+ Str.nl +:+ indent) partial
          +:+ Str.nl +:+ stepback +:+ closing
  end.

(** One member of an object: [quote(key) : value]. *)
Definition member (gap key str : string) : string :=
  quote key +:+ ":" +:+ (if String.eqb gap "" then "" else " ") +:+ str.

(** [SerializeJSONProperty]: [None] stands for [undefined], which an
    object drops and an array writes as [null]. *)
Fixpoint serialize (gap indent : string) (v : value) : option string :=
  match v with
  | VUndef => None
  | VNull => Some "null"
  | VBool true => Some "true"
  | VBool false => Some "false"
  | VNum n => Some (Str.of_Z n)
  | VStr s => Some (quote s)
  | VArr xs =>
      let inner := indent +:+ gap in
      Some (wrap "[" "]" gap indent inner
              (map (fun x => default "null" (serialize gap inner x)) xs))
  | VObj kvs =>
      let inner := indent +:+ gap in
      Some (wrap "{" "}" gap indent inner
              ((fix members (l : list (string * value)) : list string :=
                  match l with
                  | [] => []
                  | (k, x) :: rest =>
                      match serialize gap inner x with
                      | Some str => member gap k str :: members rest
                      | None => members rest
                      end
                  end) kvs))
  end.

(** The members of an object, in the order written. *)
Fixpoint members (gap inner : string) (l : list (string * value))
  : list string :=
  match l with
  | [] => []
  | (k, x) :: rest =>
      match serialize gap inner x with
      | Some str => member gap k str :: members gap inner rest
      | None => members gap inner rest
      end
  end.

(** [JSON.stringify(v, null, space)] for an object or array [v]; the
    script never serializes [undefined] at the top. *)
Definition stringify (v : value) (space : nat) : string :=
  default "undefined" (serialize (String.concat "" (replicate space " ")) "" v).

End JSON.

(** ** [path.join] (POSIX) *)

Module Path.

Definition slash : ascii := ascii_of_nat 47.

(** The segments between the separators; a string without separator is
    its own single segment. *)
Fixpoint split (s : string) : list string :=
  match s with
  | EmptyString => [EmptyString]
  | String c rest =>
      if Ascii.eqb c slash then EmptyString :: split rest
      else match split rest with
           | [] => [String c EmptyString]
           | seg :: segs => String c seg :: segs
           end
  end.

(** One segment met by [normalizeString]; the segments kept so far are
    held last first.  Empty segments and [.] are skipped, [..] drops
    the segment before it, or stays when there is none to drop and the
    path is relative. *)
Definition push (allowAboveRoot : bool) (stack : list string) (seg : string)
  : list string :=
  if String.eqb seg "" || String.eqb seg "." then stack
  else if String.eqb seg ".." then
    match stack with
    | top :: below =>
        if String.eqb top ".." then
          (if allowAboveRoot then seg :: stack else stack)
        else below
    | [] => if allowAboveRoot then [seg] else []
    end
  else seg :: stack.

Definition normalizeString (path : string) (allowAboveRoot : bool) : string :=
  Str.join "/" (rev (fold_left (push allowAboveRoot) (split path) [])).

Definition isAbsolute (path : string) : bool :=
  match path with
  | String c _ => Ascii.eqb c slash
  | EmptyString => false
  end.

Definition trailingSeparator (path : string) : bool :=
  match Str.last path with
  | Some c => Ascii.eqb c slash
  | None => false
  end.

(** [path.posix.normalize]. *)
Definition normalize (path : string) : string :=
  if String.eqb path "" then "."
  else
    let body := normalizeString path (negb (isAbsolute path)) in
    if String.eqb body "" then
      (if isAbsolute path then "/"
       else if trailingSeparator path then "./" else ".")
    else
      (if isAbsolute path then "/" else "")
        +:+ body +:+ (if trailingSeparator path then "/" else "").

(** [path.posix.join]: the non-empty arguments, joined by the
    separator and normalized. *)
Definition join (args : list string) : string :=
  match filter (fun a => a <> EmptyString) args with
  | [] => "."
  | parts => normalize (Str.join "/" parts)
  end.

(** The loop of [resolve], from the last argument back: the arguments
    still to visit, last first, and [resolvedPath] so far.  It stops at
    the first absolute argument; when none is, the working directory is
    taken last.  Empty arguments are skipped. *)
Fixpoint resolved (backwards : list string) (cwd resolvedPath : string)
  : string * bool :=
  match backwards with
  | [] =>
      if String.eqb cwd "" then (resolvedPath, false)
      else (cwd +:+ "/" +:+ resolvedPath, isAbsolute cwd)
  | path :: rest =>
      if String.eqb path "" then resolved rest cwd resolvedPath
      else if isAbsolute path then (path +:+ "/" +:+ resolvedPath, true)
      else resolved rest cwd (path +:+ "/" +:+ resolvedPath)
  end.

(** [path.posix.resolve]: what the loop has gathered, normalized; the
    result has no trailing separator. *)
Definition resolve (cwd : string) (args : list string) : string :=
  let (resolvedPath, resolvedAbsolute) := resolved (rev args) cwd "" in
  let body := normalizeString resolvedPath (negb resolvedAbsolute) in
  if resolvedAbsolute then "/" +:+ body
  else if String.eqb body "" then "." else body.

End Path.

(** ** The file system and the operations in flight *)

Inductive node : Type :=
  | Dir
  | File (data : string).

(** The two operations the script asks of the file system. *)
Inductive fsop : Type :=
  | Mkdir (path : string)
  | WriteFile (path : string) (data : string).

(** A chain of asynchronous work behind one promise: [Do o k] has the
    operation [o] in flight and goes on as [k] once it has completed,
    [Reject e] is a rejected promise, [Finish] a fulfilled one. *)
Inductive task : Type :=
  | Finish
  | Reject (e : error)
  | Do (o : fsop) (k : task).

Inductive event : Type :=
  | Issued (o : fsop)
  | Completed (o : fsop)
  | Failed (o : fsop) (e : error)
  | Raised (e : error).

(** What the operator reads on the console; colours and the rendering of
    paths are left out. *)
Inductive line : Type :=
  | Help
  | Blank
  | Message (msg : string)
  | AboutToWrite (path : string)
  | Highlighted (json : string)
  | Success (name folderName : string)
  | UpdateHere (dir : string)
  | Logged (e : error)
  | NotCreated (name : string).

(** Where the run stands. [Unhandled e]: the promise of the async
    function rejected with [e], which nothing in the script handles.
    [Thrown e]: an exception left the top level.  [Exited c]:
    [process.exit(c)].  [Returned]: the async function ran to its end. *)
Inductive status : Type :=
  | Awaiting
  | Returned
  | Unhandled (e : error)
  | Thrown (e : error)
  | Exited (code : Z).

Record state : Type := State {
  files : gmap string node;
  inflight : list task;
  standing : status;
  console : list line;
  trace : list event
}.

Module FS.

(** The tree holds each node under one name, whatever the spelling of
    the path that leads to it: the path normalized, without the
    separator it may end with.  The script hands over absolute paths,
    since [__dirname] is absolute; a relative path leads from the
    working directory and keeps its relative name.  There are no
    symbolic links, and the paths the script hands over have been
    through [join], so that reading [..] off the text and walking the
    tree agree. *)
Definition locate (path : string) : string :=
  let body := Path.normalizeString path (negb (Path.isAbsolute path)) in
  if Path.isAbsolute path then "/" +:+ body
  else if String.eqb body "" then "." else body.

(** The directory a path's node is an entry of: where [..] leads from
    it. *)
Definition parent (path : string) : string :=
  locate (locate path +:+ "/..").

(** The root, the working directory and the directories above it are
    there whatever the tree holds. *)
Definition given (name : string) : bool :=
  String.eqb name "/"
  || forallb (fun seg => String.eqb seg "." || String.eqb seg "..")
       (Path.split name).

(** What is under a name.  A key of the map that no path leads to (one
    that ends with a separator, say) is never looked up: it names
    nothing. *)
Definition held (fs : gmap string node) (name : string) : option node :=
  if given name then Some Dir else fs !! name.

(** What a path leads to. *)
Definition stat (fs : gmap string node) (path : string) : option node :=
  held fs (locate path).

(** The outcome of one operation.  [fault] is what the environment
    makes of it: [Some e] when the operation fails with [e] for a
    reason of its own (a full disk, a permission), [None] when only
    the state of the tree decides.  Neither operation makes a missing
    parent: [mkdir] is not recursive.  [mkdir] refuses a path that
    leads to a node, [writeFile] one that leads to a directory or ends
    with a separator.  A failed operation leaves the tree as it was. *)
Definition exec (fault : option error) (o : fsop) (fs : gmap string node)
  : result (gmap string node) :=
  match fault with
  | Some e => Err e
  | None =>
      match o with
      | Mkdir p =>
          if String.eqb p "" then Err (SystemError "ENOENT" p)
          else
            match stat fs p, stat fs (parent p) with
            | Some _, _ => Err (SystemError "EEXIST" p)
            | None, None => Err (SystemError "ENOENT" p)
            | None, Some (File _) => Err (SystemError "ENOTDIR" p)
            | None, Some Dir => Ok (<[locate p := Dir]> fs)
            end
      | WriteFile p data =>
          if String.eqb p "" then Err (SystemError "ENOENT" p)
          else
            match stat fs p, stat fs (parent p) with
            | Some Dir, _ => Err (SystemError "EISDIR" p)
            | None, None => Err (SystemError "ENOENT" p)
            | None, Some (File _) => Err (SystemError "ENOTDIR" p)
            | _, _ =>
                if Path.trailingSeparator p
                then Err (SystemError "EISDIR" p)
                else Ok (<[locate p := File data]> fs)
            end
      end
  end.

End FS.

(** ** The event loop

    Operations in flight complete one at a time, in an order the
    environment chooses.  A choice names the promise whose operation
    completes next and the fault, if any, the environment hits it with.
    [Promise.all] rejects with the first rejection and is fulfilled once
    every promise is; the code after the [await] (or the [catch] block)
    then runs to its end before the next completion is handled.  The
    operations still in flight go on after a rejection; a later
    rejection, which nothing awaits any more, changes nothing of what
    the script does.  (When an element of the array throws, the
    promises created before it are handed to nothing; what the runtime
    makes of their rejection, a warning or the end of the process, is
    not followed.) *)

Module Loop.
Section Loop.

(** What the script prints after a fulfilled [await], and what its
    [catch] block prints. *)
Variable onSuccess : list line.
Variable onFailure : error -> list line.

Definition all_finished (ts : list task) : bool :=
  forallb (fun t => match t with Finish => true | _ => false end) ts.

(** The [catch] block, entered at most once. *)
Definition reject (e : error) (s : state) : state :=
  match standing s with
  | Awaiting =>
      State (files s) (inflight s) Returned (console s ++ onFailure e) (trace s)
  | _ => s
  end.

(** The code after the [await], once every promise is fulfilled. *)
Definition fulfil (s : state) : state :=
  match standing s with
  | Awaiting =>
      if all_finished (inflight s) then
        State (files s) (inflight s) Returned (console s ++ onSuccess) (trace s)
      else s
  | _ => s
  end.

(** The events of a promise going on as [k] after its operation. *)
Definition onward (k : task) : list event :=
  match k with
  | Do o _ => [Issued o]
  | Reject e => [Raised e]
  | Finish => []
  end.

(** How a promise that went on as [k] weighs on the [await]. *)
Definition settle (k : task) (s : state) : state :=
  match k with
  | Reject e => reject e s
  | Finish => fulfil s
  | Do _ _ => s
  end.

Definition step (s : state) (c : nat * option error) : state :=
  match inflight s !! fst c with
  | Some (Do o k) =>
      match FS.exec (snd c) o (files s) with
      | Ok fs' =>
          settle k
            (State fs' (<[fst c := k]> (inflight s)) (standing s) (console s)
               (trace s ++ Completed o :: onward k))
      | Err e =>
          reject e
            (State (files s) (<[fst c := Reject e]> (inflight s)) (standing s)
               (console s) (trace s ++ [Failed o e]))
      end
  | _ => s
  end.

Definition run (schedule : list (nat * option error)) (s : state) : state :=
  fold_left step schedule s.

End Loop.
End Loop.

(** ** The collaborators *)

(** The answer of the name checker, as far as the script reads it; the
    checker leaves [errors] out when it has none to report. *)
Record Validation : Type := {
  validForNewPackages : bool;
  errors : option (list string)
}.

(** Everything the script takes from outside: the place it runs from
    ([__dirname], the directory of the script, which the runtime gives
    as an absolute path), the packages it requires and the files it
    reads.  A call that can throw or reject answers with a [result];
    [readFile] is the read of a file as text, [rootPackageJson] the
    [require] of the root manifest, [userName] the name the version
    control system knows the user by, or [null]. *)
Record Env : Type := {
  __dirname : string;
  cwd : string;
  npmValiddate : string -> Validation;
  userName : result value;
  camelCase : string -> string;
  prettier_resolveConfig : string -> result value;
  prettier_format : string -> value -> result string;
  readFile : string -> result string;
  rootPackageJson : result value
}.

(** ** The arguments *)

Definition COMMAND_NAME : string := "create".

Section GetArgv.

(** [JSON.parse], as the runtime provides it. *)
Variable JSON_parse : string -> result value.

(** The arguments handed to the parser: under [npm run], the original
    arguments of [npm] but the first, as [npm] leaves them in the
    environment; otherwise those of the process after the interpreter
    and the script, behind the name of the command. *)
Definition getArgv (npm_config_argv : option string)
    (process_argv : list string) : result value :=
  let npmConfigArgv :=
    match npm_config_argv with Some s => VStr s | None => VUndef end in
  if JS.truthy npmConfigArgv then
    let! parsed := JSON_parse (JS.to_string npmConfigArgv) in
    let! original := JS.get parsed "original" in
    JS.slice original 1
  else
    Ok (VArr (map VStr (COMMAND_NAME :: drop 2 process_argv))).

End GetArgv.

(** ** The script *)

(** How the evaluation of [argv] ends.  The parser and the styling of
    the usage text are the work of libraries outside the repository;
    the script sees them by what comes of the call: the parser hands
    over the positional [name] with the optional [--folder], a string
    when the option is given once ([Parsed]) and an array when it is
    repeated ([Repeated]); or it calls the [fail] handler with its
    message and, when one was thrown, the exception ([Unparsed]); or an
    exception leaves [getArgv] or the builder of the command and
    reaches the top level past the handler ([Broken]). *)
Inductive argv : Type :=
  | Parsed (name : string) (folder : option string)
  | Repeated (name : string) (folders : list string)
  | Unparsed (msg : string) (err : option error)
  | Broken (e : error).

Section Create.

Variable env : Env.
Variable name : string.
Variable folder : option string.

Definition folderName : string :=
  JS.to_string
    (JS.or (match folder with Some f => VStr f | None => VUndef end)
           (VStr name)).

Definition nameValidation : Validation := npmValiddate env name.

(** The error thrown for a name the checker turns down. *)
Definition invalidName : error :=
  Error ("the name " +:+ Str.dq +:+ name +:+ Str.dq
         +:+ " is not a valid npm package name:" +:+ Str.nl
         +:+ JS.to_string (match errors nameValidation with
                           | Some l => VArr (map VStr l)
                           | None => VUndef
                           end)).

Definition numDirectoriesAwayFromSrc : nat := 1.
Definition relativePathToSrc : string :=
  String.concat "" (replicate numDirectoriesAwayFromSrc "../").

Definition workspaceDir : string := Path.join [__dirname env; "../"].
Definition dir : string := Path.join [workspaceDir; "packages"; folderName].

Definition packageName : string := "@ganache/" +:+ name.
Definition version : string := "0.1.0".

Definition pkg (packageAuthor rootPackageJson : value) : result value :=
  let! author :=
    (if JS.truthy packageAuthor then Ok packageAuthor
     else JS.get rootPackageJson "author") in
  let! devDependencies := JS.get rootPackageJson "devDependencies" in
  let! types_mocha := JS.get devDependencies "@types/mocha" in
  let! cross_env := JS.get devDependencies "cross-env" in
  let! mocha := JS.get devDependencies "mocha" in
  let! nyc := JS.get devDependencies "nyc" in
  let! ts_node := JS.get devDependencies "ts-node" in
  let! typescript := JS.get devDependencies "typescript" in
  Ok (VObj [
    ("name", VStr packageName);
    ("publishConfig", VObj [("access", VStr "public")]);
    ("version", VStr version);
    ("description", VStr "");
    ("author", author);
    ("homepage",
      VStr ("https://github.com/trufflesuite/ganache/tree/develop/packages/"
            +:+ folderName +:+ "#readme"));
    ("license", VStr "MIT");
    ("main", VStr "lib/index.js");
    ("typings", VStr "typings");
    ("source", VStr "index.ts");
    ("directories", VObj [("lib", VStr "lib"); ("test", VStr "tests")]);
    ("files", VArr [VStr "lib"; VStr "typings"]);
    ("repository", VObj [
      ("type", VStr "git");
      ("url", VStr "https://github.com/trufflesuite/ganache.git");
      ("directory", VStr ("packages/" +:+ folderName))]);
    ("scripts", VObj [
      ("tsc", VStr "ttsc --build");
      ("test", VStr "nyc npm run mocha");
      ("mocha", VStr "cross-env TS_NODE_FILES=true mocha --exit --check-leaks --throw-deprecation --trace-warnings --require ts-node/register 'tests/**/*.test.ts'")]);
    ("bugs", VObj [("url", VStr "https://github.com/trufflesuite/ganache/issues")]);
    ("keywords", VArr [
      VStr "ganache"; VStr ("ganache-" +:+ name); VStr "ethereum"; VStr "evm";
      VStr "blockchain"; VStr "smart contracts"; VStr "dapps"; VStr "solidity";
      VStr "vyper"; VStr "fe"; VStr "web3"; VStr "tooling"; VStr "truffle"]);
    ("devDependencies", VObj [
      ("@types/mocha", types_mocha);
      ("cross-env", cross_env);
      ("mocha", mocha);
      ("nyc", nyc);
      ("ts-node", ts_node);
      ("typescript", typescript)])
  ]).

Definition tsConfig : value :=
  VObj [
    ("extends", VStr (relativePathToSrc +:+ "tsconfig-base.json"));
    ("compilerOptions", VObj [("outDir", VStr "lib"); ("declarationDir", VStr "typings")]);
    ("include", VArr [VStr "src"; VStr "index.ts"])
  ].

Definition shrinkwrap : value :=
  VObj [
    ("name", VStr packageName);
    ("version", VStr version);
    ("lockfileVersion", VNum 1)
  ].

Definition testFile : string :=
  "import assert from " +:+ Str.dq +:+ "assert" +:+ Str.dq +:+ ";" +:+ Str.nl
  +:+ "import " +:+ camelCase env name +:+ " from " +:+ Str.dq +:+ "../src/"
  +:+ Str.dq +:+ ";" +:+ Str.nl
  +:+ Str.nl
  +:+ "describe(" +:+ Str.dq +:+ packageName +:+ Str.dq +:+ ", () => {" +:+ Str.nl
  +:+ "  it(" +:+ Str.dq +:+ "needs tests" +:+ Str.dq +:+ ");" +:+ Str.nl
  +:+ "})".

Definition indexFile : string :=
  "export default {" +:+ Str.nl
  +:+ "  // TODO" +:+ Str.nl
  +:+ "}" +:+ Str.nl.

Definition tests : string := Path.join [dir; "tests"].
Definition src : string := Path.join [dir; "src"].

Definition npmignore : string :=
  "/index.ts" +:+ Str.nl
  +:+ "/tests" +:+ Str.nl
  +:+ "/.nyc_output" +:+ Str.nl
  +:+ "/coverage" +:+ Str.nl
  +:+ "/scripts" +:+ Str.nl
  +:+ "/src" +:+ Str.nl
  +:+ "/tsconfig.json" +:+ Str.nl
  +:+ "/typedoc.json" +:+ Str.nl.

Definition readme : string :=
  "# " +:+ Str.bq +:+ packageName +:+ Str.bq +:+ Str.nl +:+ "> TODO: description".

Definition pkgPath : string := Path.join [dir; "package.json"].

Section Emit.

(** What the [try] block has gathered when it reaches the writes:
    the licence text, the resolved formatter configuration and the
    manifest. *)
Variable LICENSE : string.
Variable prettierConfig : value.
Variable manifest : value.

(** [{ ...prettierConfig, parser }]. *)
Definition options (parser : string) : value :=
  VObj (JS.set "parser" (VStr parser) (JS.spread prettierConfig)).

(** [manifest.key] in a template literal. *)
Definition field (key : string) : string :=
  match JS.get manifest key with
  | Ok v => JS.to_string v
  | Err _ => "undefined"
  end.

Definition headerdoc : string :=
  "/*!" +:+ Str.nl
  +:+ "  * " +:+ packageName +:+ Str.nl
  +:+ "  *" +:+ Str.nl
  +:+ "  * @author " +:+ field "author" +:+ Str.nl
  +:+ "  * @license " +:+ field "license" +:+ Str.nl
  +:+ "*/" +:+ Str.nl
  +:+ Str.nl.

Definition initSrc : result task :=
  let! data := prettier_format env indexFile (options "typescript") in
  Ok (Do (WriteFile (Path.join [src; "index.ts"]) data) Finish).

Definition initIndex : result task :=
  let! data :=
    prettier_format env (headerdoc +:+ indexFile) (options "typescript") in
  Ok (Do (WriteFile (Path.join [dir; "index.ts"]) data) Finish).

(** The two writes gathered by the inner [Promise.all], which rejects
    with the first of their rejections, as the outer one does. *)
Definition initRootFiles : list task :=
  [ Do (WriteFile (Path.join [dir; ".npmignore"]) npmignore) Finish;
    Do (WriteFile (Path.join [dir; "LICENSE"]) LICENSE) Finish ].

Definition initTests : result task :=
  let! data := prettier_format env testFile (options "typescript") in
  Ok (Do (WriteFile (Path.join [tests; "index.test.ts"]) data) Finish).

(** [p.then(f)]: an exception thrown by [f] rejects the promise. *)
Definition then_ (f : result task) : task :=
  match f with
  | Ok t => t
  | Err e => Reject e
  end.

Definition pkgStr : string := JSON.stringify manifest 2 +:+ Str.nl.

(** The elements of the array handed to [Promise.all], in the order
    they are evaluated; an element that throws ends the evaluation. *)
Definition elements : list (result (list task)) :=
  [ Ok initRootFiles;
    (let! t := initIndex in Ok [t]);
    Ok [Do (Mkdir tests) (then_ initTests)];
    Ok [Do (Mkdir src) (then_ initSrc)];
    Ok [Do (WriteFile (Path.join [dir; "tsconfig.json"])
              (JSON.stringify tsConfig 2 +:+ Str.nl)) Finish];
    (let! data := prettier_format env readme (options "markdown") in
     Ok [Do (WriteFile (Path.join [dir; "README.md"]) data) Finish]);
    Ok [Do (WriteFile pkgPath pkgStr) Finish];
    Ok [Do (WriteFile (Path.join [dir; "npm-shrinkwrap.json"])
              (JSON.stringify shrinkwrap 0 +:+ Str.nl)) Finish] ].

Definition onSuccess : list line :=
  [Highlighted pkgStr; Success name folderName; Blank; UpdateHere dir].

End Emit.

Definition onFailure (e : error) : list line :=
  [Logged e; Blank; NotCreated name].

(** The promises created before the first element that throws, and
    the exception if there is one. *)
Fixpoint issue (els : list (result (list task))) : list task * option error :=
  match els with
  | [] => ([], None)
  | Ok ts :: rest => let (more, thrown) := issue rest in (ts ++ more, thrown)
  | Err e :: _ => ([], Some e)
  end.

(** The first operation of each promise, issued when it is created. *)
Definition heads (ts : list task) : list event :=
  flat_map (Loop.onward) ts.

(** The reads at the head of the [try] block. *)
Definition gather : result (string * value * value) :=
  let! LICENSE := readFile env (Path.join [workspaceDir; "LICENSE"]) in
  let! prettierConfig := prettier_resolveConfig env (cwd env) in
  let! packageAuthor := userName env in
  let! root := rootPackageJson env in
  let! manifest := pkg packageAuthor root in
  Ok (LICENSE, prettierConfig, manifest).

(** The async function, for a folder given once or not at all, from
    its first line to the end of the run under [schedule];
    [mkdirFault] is the fault the environment hits [mkdirSync] with. *)
Definition create (fs : gmap string node) (mkdirFault : option error)
    (schedule : list (nat * option error)) : state :=
  if validForNewPackages nameValidation then
    match gather with
    | Err e => State fs [] Returned (onFailure e) [Raised e]
    | Ok (LICENSE, prettierConfig, manifest) =>
        let shown := [AboutToWrite pkgPath; Blank] in
        match FS.exec mkdirFault (Mkdir dir) fs with
        | Err e =>
            State fs [] Returned (shown ++ onFailure e)
              [Issued (Mkdir dir); Failed (Mkdir dir) e]
        | Ok fs' =>
            let made := [Issued (Mkdir dir); Completed (Mkdir dir)] in
            match issue (elements LICENSE prettierConfig manifest) with
            | (ts, Some e) =>
                Loop.run (onSuccess manifest) onFailure schedule
                  (State fs' ts Returned (shown ++ onFailure e)
                     (made ++ heads ts ++ [Raised e]))
            | (ts, None) =>
                Loop.run (onSuccess manifest) onFailure schedule
                  (State fs' ts Awaiting shown (made ++ heads ts))
            end
        end
    end
  else State fs [] (Unhandled invalidName) [] [Raised invalidName].

End Create.

(** The custom [fail] handler given to the argument parser: it throws
    the exception it is handed, if any, and otherwise prints the help
    and the message and leaves the process with status zero. *)
Definition fail (msg : string) (err : option error) (fs : gmap string node)
  : state :=
  match err with
  | Some e => State fs [] (Thrown e) [] [Raised e]
  | None => State fs [] (Exited 0) [Help; Blank; Message msg] []
  end.

(** What [join] throws when it is handed an array. *)
Definition notAString : error :=
  TypeError ("The " +:+ Str.dq +:+ "path" +:+ Str.dq
             +:+ " argument must be of type string."
             +:+ " Received an instance of Array").

(** The async function when [--folder] was repeated: the array is the
    folder name, the name is checked as ever, and [join] throws on the
    array before the [try]. *)
Definition create_repeated (env : Env) (name : string)
    (fs : gmap string node) : state :=
  let thrown :=
    if validForNewPackages (nameValidation env name) then notAString
    else invalidName env name in
  State fs [] (Unhandled thrown) [] [Raised thrown].

(** The whole script, from the evaluation of [argv] on. *)
Definition script (env : Env) (args : argv) (fs : gmap string node)
    (mkdirFault : option error) (schedule : list (nat * option error)) : state :=
  match args with
  | Broken e => State fs [] (Thrown e) [] [Raised e]
  | Unparsed msg err => fail msg err fs
  | Repeated name _ => create_repeated env name fs
  | Parsed name folder => create env name folder fs mkdirFault schedule
  end.

(** ** What the console names *)

(** The path of the first line of output:
    [resolve(__dirname, pkgPath)]. *)
Definition announced (env : Env) (name : string) (folder : option string)
  : string :=
  Path.resolve (cwd env) [__dirname env; pkgPath env name folder].

(** The place the success line names, after [created at]: a period,
    the separator and [join("packages", folderName)]. *)
Definition createdAt (name : string) (folder : option string) : string :=
  "." +:+ "/" +:+ Path.join ["packages"; folderName name folder].

(** The path of the last line: the target directory, a separator and
    [package.json]. *)
Definition updateHere (env : Env) (name : string) (folder : option string)
  : string :=
  dir env name folder +:+ "/package.json".

(** ** The paths of the [filecoin] package *)

Module Filecoin.

(** The flavor handed to the server by the test helper
    ([tests/helpers/getServer.ts]). *)
Definition flavor (__dirname : string) : string :=
  Path.join [__dirname; ".."; "../lib/index.js"].

(** [output.path] of the bundler configuration for the runtime
    ([webpack/webpack.node.config.ts]). *)
Definition output_path (cwd __dirname : string) : string :=
  Path.resolve cwd [__dirname; "../"; "dist"; "node"].

End Filecoin.

(** ** A model of the name checker

    The package behind [npmValiddate] is not part of this repository.
    This is its algorithm on names made of ASCII characters: hard
    violations go to [errors], violations that only new packages must
    respect go to [warnings], and an empty list is deleted from the
    answer. *)

Module Registry.

Definition lower (c : ascii) : ascii :=
  let n := nat_of_ascii c in
  if Nat.leb 65 n && Nat.leb n 90 then ascii_of_nat (n + 32) else c.

Fixpoint toLowerCase (s : string) : string :=
  match s with
  | EmptyString => EmptyString
  | String c rest => String (lower c) (toLowerCase rest)
  end.

Definition is_space (c : ascii) : bool :=
  let n := nat_of_ascii c in
  Nat.eqb n 32 || (Nat.leb 9 n && Nat.leb n 13).

Fixpoint trimStart (s : string) : string :=
  match s with
  | String c rest => if is_space c then trimStart rest else s
  | EmptyString => EmptyString
  end.

Fixpoint trimEnd (s : string) : string :=
  match s with
  | EmptyString => EmptyString
  | String c rest =>
      match trimEnd rest with
      | EmptyString => if is_space c then EmptyString else String c EmptyString
      | kept => String c kept
      end
  end.

Definition trim (s : string) : string := trimEnd (trimStart s).

(** The characters [encodeURIComponent] leaves as they are. *)
Definition unreserved (c : ascii) : bool :=
  let n := nat_of_ascii c in
  (Nat.leb 65 n && Nat.leb n 90) || (Nat.leb 97 n && Nat.leb n 122)
  || (Nat.leb 48 n && Nat.leb n 57) || Str.mem c "-_.!~*'()".

Fixpoint all (p : ascii -> bool) (s : string) : bool :=
  match s with
  | EmptyString => true
  | String c rest => p c && all p rest
  end.

(** [encodeURIComponent(s) === s]. *)
Definition url_friendly (s : string) : bool := all unreserved s.

Definition starts_with (c : ascii) (s : string) : bool :=
  match s with
  | String d _ => Ascii.eqb c d
  | EmptyString => false
  end.

Definition blacklist : list string := ["node_modules"; "favicon.ico"].

(** The core module names of the runtime. *)
Definition builtins : list string :=
  ["assert"; "buffer"; "child_process"; "cluster"; "console"; "constants";
   "crypto"; "dgram"; "dns"; "domain"; "events"; "fs"; "http"; "https";
   "module"; "net"; "os"; "path"; "punycode"; "querystring"; "readline";
   "repl"; "stream"; "string_decoder"; "sys"; "timers"; "tls"; "tty"; "url";
   "util"; "vm"; "zlib"].

(** The scoped form [@user/pkg] with both parts URL-friendly. *)
Definition scoped_friendly (name : string) : bool :=
  match Path.split name with
  | [String at_ user; pkg] =>
      Ascii.eqb at_ (ascii_of_nat 64)
      && negb (String.eqb user "") && negb (String.eqb pkg "")
      && url_friendly user && url_friendly pkg
  | _ => false
  end.

Definition when (b : bool) (msg : string) : list string :=
  if b then [msg] else [].

Definition hard (name : string) : list string :=
  when (String.eqb name "") "name length must be greater than zero"
  ++ when (starts_with (ascii_of_nat 46) name) "name cannot start with a period"
  ++ when (starts_with (ascii_of_nat 95) name) "name cannot start with an underscore"
  ++ when (negb (String.eqb (trim name) name))
       "name cannot contain leading or trailing spaces"
  ++ flat_map (fun b => when (String.eqb (toLowerCase name) b)
                          (b +:+ " is a blacklisted name")) blacklist.

Definition soft (name : string) : list string :=
  flat_map (fun b => when (String.eqb (toLowerCase name) b)
                       (b +:+ " is a core module name")) builtins
  ++ when (Nat.ltb 214 (String.length name))
       "name can no longer contain more than 214 characters"
  ++ when (negb (String.eqb (toLowerCase name) name))
       "name can no longer contain capital letters"
  ++ when (negb (all (fun c => negb (Str.mem c "~'!()*"))
                   (List.last (Path.split name) EmptyString)))
       ("name can no longer contain special characters ("
        +:+ Str.dq +:+ "~'!()*" +:+ Str.dq +:+ ")").

Definition encoding (name : string) : list string :=
  when (negb (url_friendly name) && negb (scoped_friendly name))
    "name can only contain URL-friendly characters".

Definition warnings (name : string) : list string := soft name.

(** The answer, with the two fields the script reads. *)
Definition validate (name : string) : Validation :=
  let errs := hard name ++ encoding name in
  {| validForNewPackages :=
       match errs, warnings name with [], [] => true | _, _ => false end;
     errors := match errs with [] => None | _ => Some errs end |}.

End Registry.

(** ** A sample environment *)

Module Sample.

(** Upper-cases the letter after each run of separators and drops the
    separators, as the casing package does for names in lower case. *)
Fixpoint camel (up : bool) (s : string) : string :=
  match s with
  | EmptyString => EmptyString
  | String c rest =>
      if Str.mem c "_.- " then camel true rest
      else
        let n := nat_of_ascii c in
        String (if up && Nat.leb 97 n && Nat.leb n 122
                then ascii_of_nat (n - 32) else c)
               (camel false rest)
  end.

(** A formatter that only sees to the final line feed. *)
Definition final_newline (text : string) (_ : value) : result string :=
  match Str.last text with
  | Some c => if Ascii.eqb c (ascii_of_nat 10) then Ok text else Ok (text +:+ Str.nl)
  | None => Ok text
  end.

Definition root : value :=
  VObj [
    ("name", VStr "root");
    ("author", VStr "David Murdoch");
    ("devDependencies", VObj [
      ("@types/mocha", VStr "9.0.0");
      ("cross-env", VStr "7.0.3");
      ("mocha", VStr "9.1.3");
      ("nyc", VStr "15.1.0");
      ("prettier", VStr "2.2.1");
      ("ts-node", VStr "9.1.1");
      ("typescript", VStr "4.1.3")])
  ].

Definition env : Env :=
  {| __dirname := "/repo/scripts";
     cwd := "/repo";
     npmValiddate := Registry.validate;
     userName := Ok VNull;
     camelCase := camel false;
     prettier_resolveConfig := fun _ => Ok VNull;
     prettier_format := final_newline;
     readFile := fun p =>
       if String.eqb p "/repo/LICENSE" then Ok "MIT License"
       else Err (SystemError "ENOENT" p);
     rootPackageJson := Ok root |}.

(** The workspace before the run. *)
Definition disk : gmap string node :=
  <["/repo/LICENSE" := File "MIT License"]>
    (<["/repo/packages" := Dir]> (<["/repo" := Dir]> ∅)).

(** Every operation completes in the order of the array, the
    continuations last. *)
Definition in_order : list (nat * option error) :=
  [(0, None); (1, None); (2, None); (3, None); (4, None); (5, None);
   (6, None); (7, None); (8, None); (3, None); (4, None)]%nat.

End Sample.

(** ** A formatter that fails *)

Module Faulty.

(** A formatter that turns down a text opening with a slash, as the
    header of the entry stub does, and sees to the final line feed of
    any other. *)
Definition no_comment (text : string) (options : value) : result string :=
  if Registry.starts_with Path.slash text
  then Err (SyntaxError "Unexpected token")
  else Sample.final_newline text options.

Definition env : Env :=
  {| __dirname := __dirname Sample.env;
     cwd := cwd Sample.env;
     npmValiddate := npmValiddate Sample.env;
     userName := userName Sample.env;
     camelCase := camelCase Sample.env;
     prettier_resolveConfig := prettier_resolveConfig Sample.env;
     prettier_format := no_comment;
     readFile := readFile Sample.env;
     rootPackageJson := rootPackageJson Sample.env |}.

(** A formatter that turns down the test stub of [widgets]. *)
Definition no_tests (text : string) (options : value) : result string :=
  if String.eqb text (testFile Sample.env "widgets")
  then Err (SyntaxError "Unexpected token")
  else Sample.final_newline text options.

Definition env_no_tests : Env :=
  {| __dirname := __dirname Sample.env;
     cwd := cwd Sample.env;
     npmValiddate := npmValiddate Sample.env;
     userName := userName Sample.env;
     camelCase := camelCase Sample.env;
     prettier_resolveConfig := prettier_resolveConfig Sample.env;
     prettier_format := no_tests;
     readFile := readFile Sample.env;
     rootPackageJson := rootPackageJson Sample.env |}.

End Faulty.

(** * What the properties speak of *)

(** ** Kept segments *)

Module Segments.

(** A segment [normalizeString] keeps: not empty, not [.], without
    separator. *)
Definition proper (seg : string) : bool :=
  negb (String.eqb seg "") && negb (String.eqb seg ".")
  && negb (Str.mem Path.slash seg).

(** A file or directory name: a kept segment other than [..]. *)
Definition plain (seg : string) : bool :=
  proper seg && negb (String.eqb seg "..").

(** The segments [normalizeString] keeps of a path, last first. *)
Definition stack (allowAboveRoot : bool) (path : string) : list string :=
  fold_left (Path.push allowAboveRoot) (Path.split path) [].

(** The path made of kept segments, without trailing separator. *)
Definition text (absolute : bool) (kept : list string) : string :=
  (if absolute then "/" else "") +:+ Str.join "/" (rev kept).

(** The shape of what [normalizeString] keeps: [..] only on top of
    nothing but [..], and only in a relative path. *)
Fixpoint canon (allowAboveRoot : bool) (kept : list string) : Prop :=
  match kept with
  | [] => True
  | top :: below =>
      proper top = true
      /\ (top = ".." ->
          allowAboveRoot = true /\ Forall (fun s => s = "..") below)
      /\ canon allowAboveRoot below
  end.

End Segments.

(** ** Serialized objects *)

Module Serial.

Definition defined (v : value) : bool :=
  match v with VUndef => false | _ => true end.

(** The keys an object is written with. *)
Definition written (kvs : list (string * value)) : list (string * value) :=
  List.filter (fun kv => defined (snd kv)) kvs.

(** A text that ends with a line feed, and only one. *)
Definition one_final_newline (text : string) : Prop :=
  exists body c,
    text = body +:+ String c "" +:+ Str.nl /\ c <> ascii_of_nat 10.

End Serial.

(** ** The operations and the failures of a run *)

(** The path an operation works on. *)
Definition op_path (o : fsop) : string :=
  match o with
  | Mkdir p => p
  | WriteFile p _ => p
  end.

(** The operations a promise still has to issue or complete. *)
Fixpoint ops (t : task) : list fsop :=
  match t with
  | Do o k => o :: ops k
  | _ => []
  end.

Definition pending (ts : list task) : list fsop := flat_map ops ts.

(** The error of the first failure of a run: an operation that failed or
    an exception that was raised. *)
Fixpoint first_failure (tr : list event) : option error :=
  match tr with
  | [] => None
  | Failed _ e :: _ => Some e
  | Raised e :: _ => Some e
  | _ :: rest => first_failure rest
  end.

(** The data an operation writes. *)
Definition op_data (o : fsop) : option string :=
  match o with
  | WriteFile _ data => Some data
  | Mkdir _ => None
  end.

(** ** The invariants of the event loop *)

Module Inv.
Section Inv.

Variable onSuccess : list line.
Variable onFailure : error -> list line.

(** What one step does to the tree, the promises and the trace. *)
Inductive stepped (s : state) (c : nat * option error) : state -> Prop :=
  | stepped_idle :
      (forall o k, inflight s !! fst c <> Some (Do o k)) ->
      stepped s c s
  | stepped_done o k fs' :
      inflight s !! fst c = Some (Do o k) ->
      FS.exec (snd c) o (files s) = Ok fs' ->
      stepped s c
        (Loop.settle onSuccess onFailure k
           (State fs' (<[fst c := k]> (inflight s)) (standing s) (console s)
              (trace s ++ Completed o :: Loop.onward k)))
  | stepped_failed o k e :
      inflight s !! fst c = Some (Do o k) ->
      FS.exec (snd c) o (files s) = Err e ->
      stepped s c
        (Loop.reject onFailure e
           (State (files s) (<[fst c := Reject e]> (inflight s)) (standing s)
              (console s) (trace s ++ [Failed o e]))).

(** No two pending operations work on one path, none works on a path
    an operation has completed on, every file a completed write has
    put is there with the data written, and every pending operation
    spells its path as the tree names the node. *)
Definition kept (s : state) : Prop :=
  List.NoDup (map op_path (pending (inflight s)))
  /\ (forall o o', In o (pending (inflight s)) ->
                   In (Completed o') (trace s) -> op_path o <> op_path o')
  /\ (forall p data, In (Completed (WriteFile p data)) (trace s) ->
                     files s !! p = Some (File data))
  /\ (forall o, In o (pending (inflight s)) ->
                FS.locate (op_path o) = op_path o).

(** What the console holds when the [await] begins. *)
Variable shown : list line.

(** Once something has failed, the [catch] block has run with the first
    error; until then the script waits, or has found every promise
    fulfilled. *)
Definition reported (s : state) : Prop :=
  match first_failure (trace s) with
  | Some e => standing s = Returned /\ console s = shown ++ onFailure e
  | None =>
      (standing s = Awaiting /\ console s = shown)
      \/ (standing s = Returned /\ console s = shown ++ onSuccess
          /\ Loop.all_finished (inflight s) = true)
  end.

(** The directories the script makes. *)
Variable dirs : list string.

(** The path [p] is a name joined to the directory [d]. *)
Definition targets (p d : string) : Prop :=
  exists x, Segments.plain x = true /\ p = Path.join [d; x].

(** A write whose path is a name joined to one of the directories may
    be issued only once the creation of that directory has completed. *)
Definition allowed (seen : list event) (e : event) : Prop :=
  match e with
  | Issued (WriteFile p _) =>
      forall d, In d dirs -> targets p d -> In (Completed (Mkdir d)) seen
  | _ => True
  end.

(** Every event of [tr] is allowed after [seen] and the events of
    [tr] before it. *)
Fixpoint sequenced (seen tr : list event) : Prop :=
  match tr with
  | [] => True
  | e :: rest => allowed seen e /\ sequenced (seen ++ [e]) rest
  end.

(** What a promise goes on with is allowed when its turn comes. *)
Fixpoint continues (seen : list event) (k : task) : Prop :=
  match k with
  | Do o k' =>
      allowed seen (Issued o)
      /\ continues (seen ++ [Issued o; Completed o]) k'
  | _ => True
  end.

Definition promised (seen : list event) (t : task) : Prop :=
  match t with
  | Do o k => continues (seen ++ [Completed o]) k
  | _ => True
  end.

Definition ordered (s : state) : Prop :=
  sequenced [] (trace s) /\ Forall (promised (trace s)) (inflight s).

(** The operations of the run. *)
Variable planned : list fsop.

(** Every operation issued, and every one a promise still holds, is
    one of [planned]. *)
Definition sourced (s : state) : Prop :=
  (forall o, In (Issued o) (trace s) -> In o planned)
  /\ (forall o, In o (pending (inflight s)) -> In o planned).

End Inv.
End Inv.

(** ** Where the data of a write comes from *)

(** A text written as it is, or the output of the formatter for a text
    and a parser. *)
Inductive source : Type :=
  | Verbatim (text : string)
  | Formatted (text parser : string).

Definition produced (env : Env) (prettierConfig : value) (from : source)
    (data : string) : Prop :=
  match from with
  | Verbatim text => data = text
  | Formatted text parser =>
      prettier_format env text (options prettierConfig parser) = Ok data
  end.

(** The files of a package, each with the source of its data. *)
Definition origins (env : Env) (name : string) (folder : option string)
    (LICENSE : string) (manifest : value) : list (string * source) :=
  [ (Path.join [dir env name folder; ".npmignore"], Verbatim npmignore);
    (Path.join [dir env name folder; "LICENSE"], Verbatim LICENSE);
    (Path.join [dir env name folder; "index.ts"],
      Formatted (headerdoc name manifest +:+ indexFile) "typescript");
    (Path.join [tests env name folder; "index.test.ts"],
      Formatted (testFile env name) "typescript");
    (Path.join [src env name folder; "index.ts"],
      Formatted indexFile "typescript");
    (Path.join [dir env name folder; "tsconfig.json"],
      Verbatim (JSON.stringify tsConfig 2 +:+ Str.nl));
    (Path.join [dir env name folder; "README.md"],
      Formatted (readme name) "markdown");
    (pkgPath env name folder, Verbatim (pkgStr manifest));
    (Path.join [dir env name folder; "npm-shrinkwrap.json"],
      Verbatim (JSON.stringify (shrinkwrap name) 0 +:+ Str.nl)) ].

(** ** The promises of one run *)

Module Plan.
Section Plan.

Variable env : Env.
Variable name : string.
Variable folder : option string.
Variable LICENSE : string.
Variable prettierConfig : value.
Variable manifest : value.

Abbreviation d := (dir env name folder).
Abbreviation absolute := (Path.isAbsolute (dir env name folder)).
Abbreviation base :=
  (Segments.stack (negb (Path.isAbsolute (dir env name folder)))
     (dir env name folder)).

(** The path that keeps the segments [names], last first, on top of
    those of the target directory. *)
Definition under (names : list string) : string :=
  Segments.text absolute (names ++ base).

(** The promises [Promise.all] is handed when no element throws, an
    exception in a callback of [then] being a rejection. *)
Definition chains : list task :=
  initRootFiles env name folder LICENSE
  ++ [ then_ (initIndex env name folder prettierConfig manifest);
       Do (Mkdir (tests env name folder))
          (then_ (initTests env name folder prettierConfig));
       Do (Mkdir (src env name folder))
          (then_ (initSrc env name folder prettierConfig));
       Do (WriteFile (Path.join [d; "tsconfig.json"])
             (JSON.stringify tsConfig 2 +:+ Str.nl)) Finish;
       then_ (let! data := prettier_format env (readme name)
                             (options prettierConfig "markdown") in
              Ok (Do (WriteFile (Path.join [d; "README.md"]) data) Finish));
       Do (WriteFile (pkgPath env name folder) (pkgStr manifest)) Finish;
       Do (WriteFile (Path.join [d; "npm-shrinkwrap.json"])
             (JSON.stringify (shrinkwrap name) 0 +:+ Str.nl)) Finish ].

(** The paths the promises work on, by the names under the target
    directory; a write whose text the formatter turns down is never
    issued. *)
Definition table (index test source readme : bool)
  : list (list string * bool) :=
  [ ([".npmignore"], true); (["LICENSE"], true); (["index.ts"], index);
    (["tests"], true); (["index.test.ts"; "tests"], test);
    (["src"], true); (["index.ts"; "src"], source);
    (["tsconfig.json"], true); (["README.md"], readme);
    (["package.json"], true); (["npm-shrinkwrap.json"], true) ].

Definition is_ok {A} (r : result A) : bool :=
  match r with Ok _ => true | Err _ => false end.

Definition names_pending : list (list string) :=
  map fst
    (List.filter snd
       (table
          (is_ok (prettier_format env (headerdoc name manifest +:+ indexFile)
                    (options prettierConfig "typescript")))
          (is_ok (prettier_format env (testFile env name)
                    (options prettierConfig "typescript")))
          (is_ok (prettier_format env indexFile
                    (options prettierConfig "typescript")))
          (is_ok (prettier_format env (readme name)
                    (options prettierConfig "markdown"))))).

(** The directories the script makes. *)
Definition dirs : list string :=
  [d; tests env name folder; src env name folder].

Definition shown : list line := [AboutToWrite (pkgPath env name folder); Blank].

Definition made : list event := [Issued (Mkdir d); Completed (Mkdir d)].

(** The state once [mkdirSync] has returned and the array has been
    evaluated, with or without an exception. *)
Definition start (fs : gmap string node) : state :=
  match issue (elements env name folder LICENSE prettierConfig manifest) with
  | (ts, Some e) =>
      State fs ts Returned (shown ++ onFailure name e)
        (made ++ heads ts ++ [Raised e])
  | (ts, None) => State fs ts Awaiting shown (made ++ heads ts)
  end.

End Plan.
End Plan.

(** ** The ways a run can go *)

Inductive created (env : Env) (name : string) (folder : option string)
    (fs : gmap string node) (mkdirFault : option error)
    (schedule : list (nat * option error)) : state -> Prop :=
  | created_invalid :
      validForNewPackages (nameValidation env name) = false ->
      created env name folder fs mkdirFault schedule
        (State fs [] (Unhandled (invalidName env name)) []
           [Raised (invalidName env name)])
  | created_unread e :
      validForNewPackages (nameValidation env name) = true ->
      gather env name folder = Err e ->
      created env name folder fs mkdirFault schedule
        (State fs [] Returned (onFailure name e) [Raised e])
  | created_unmade LICENSE prettierConfig manifest e :
      validForNewPackages (nameValidation env name) = true ->
      gather env name folder = Ok (LICENSE, prettierConfig, manifest) ->
      FS.exec mkdirFault (Mkdir (dir env name folder)) fs = Err e ->
      created env name folder fs mkdirFault schedule
        (State fs [] Returned
           (Plan.shown env name folder ++ onFailure name e)
           [Issued (Mkdir (dir env name folder));
            Failed (Mkdir (dir env name folder)) e])
  | created_run LICENSE prettierConfig manifest fs' :
      validForNewPackages (nameValidation env name) = true ->
      gather env name folder = Ok (LICENSE, prettierConfig, manifest) ->
      FS.exec mkdirFault (Mkdir (dir env name folder)) fs = Ok fs' ->
      created env name folder fs mkdirFault schedule
        (Loop.run (onSuccess env name folder manifest) (onFailure name) schedule
           (Plan.start env name folder LICENSE prettierConfig manifest fs')).

(** ** The words of the specification *)

(** The directory as the specification words it: the override whenever
    one is given. *)
Definition dir_as_stated (env : Env) (name : string) (folder : option string)
  : string :=
  Path.join [workspaceDir env; "packages"; default name folder].

(** The keys of [devDependencies] in the object literal. *)
Definition devDependency_keys : list string :=
  ["@types/mocha"; "cross-env"; "mocha"; "nyc"; "ts-node"; "typescript"].

(** The five keys the specification names: the test runner, the
    coverage tool, the type checker, the test transpiler and the
    environment setter. *)
Definition devDependency_keys_as_stated : list string :=
  ["mocha"; "nyc"; "typescript"; "ts-node"; "cross-env"].

(** The manifest [theirs], with the two properties that name the folder
    taken from a run whose folder is [folderName]. *)
Definition relocated (folderName : string) (theirs : list (string * value))
  : value :=
  VObj
    (JS.set "homepage"
       (VStr ("https://github.com/trufflesuite/ganache/tree/develop/packages/"
              +:+ folderName +:+ "#readme"))
       (JS.set "repository"
          (VObj (JS.set "directory" (VStr ("packages/" +:+ folderName))
                   (JS.spread (default VUndef (JS.lookup "repository" theirs)))))
          theirs)).

(** ** The paths of a package *)

(** The nodes the script works on, by the names the tree has for
    them: the target directory, without the separator an override may
    end with, and what the script puts in it. *)
Definition touched (env : Env) (name : string) (folder : option string)
  : list string :=
  [ FS.locate (dir env name folder);
    Path.join [dir env name folder; ".npmignore"];
    Path.join [dir env name folder; "LICENSE"];
    Path.join [dir env name folder; "index.ts"];
    tests env name folder;
    Path.join [tests env name folder; "index.test.ts"];
    src env name folder;
    Path.join [src env name folder; "index.ts"];
    Path.join [dir env name folder; "tsconfig.json"];
    Path.join [dir env name folder; "README.md"];
    pkgPath env name folder;
    Path.join [dir env name folder; "npm-shrinkwrap.json"] ].

(** ** How a run stands against the state its [await] began in *)

(** Where a promise ends when nothing fails on the way. *)
Fixpoint fate (t : task) : task :=
  match t with
  | Do _ k => fate k
  | _ => t
  end.

Module Outcome.
Section Outcome.

(** The state when the [await] begins. *)
Variable began : state.

(** As long as nothing has failed, every promise is on its way to the
    end it had, and every operation it had to do is still to do or
    has completed. *)
Definition conserved (s : state) : Prop :=
  first_failure (trace s) = None ->
  first_failure (trace began) = None
  /\ map fate (inflight s) = map fate (inflight began)
  /\ forall o, In o (pending (inflight began)) ->
               In o (pending (inflight s)) \/ In (Completed o) (trace s).

(** A directory that was made is there, under the name the tree has
    for its path. *)
Definition made_kept (s : state) : Prop :=
  forall p, In (Completed (Mkdir p)) (trace s) ->
            files s !! FS.locate p = Some Dir.

(** A name none of the [planned] operations leads to holds what it
    held. *)
Definition framed (planned : list fsop) (s : state) : Prop :=
  forall p, (forall o, In o planned -> FS.locate (op_path o) <> p) ->
            files s !! p = files began !! p.

(** The operation a promise waits for has been issued, a rejected
    promise has left a failure in the trace, and the script does not
    wait once every promise is fulfilled. *)
Definition underway (s : state) : Prop :=
  Forall (fun t => match t with
                   | Do o _ => In (Issued o) (trace s)
                   | Reject _ => first_failure (trace s) <> None
                   | Finish => True
                   end) (inflight s)
  /\ (standing s = Awaiting -> Loop.all_finished (inflight s) = false).

End Outcome.
End Outcome.

(** ** The verdict of a run *)

(** The two lines that tell the operator how the run went. *)
Definition verdict (l : line) : bool :=
  match l with
  | Success _ _ | NotCreated _ => true
  | _ => false
  end.

(** ** Nothing in the way *)

(** No pending operation finds anything at its path. *)
Definition unobstructed (s : state) : Prop :=
  forall o, In o (pending (inflight s)) ->
            FS.stat (files s) (op_path o) = None.

(** Every operation of a promise will find the directory it puts its
    node in: the directory is there, or an operation before it in the
    promise makes it. *)
Fixpoint grounded (fs : gmap string node) (before : list fsop) (t : task)
  : Prop :=
  match t with
  | Do o k =>
      (FS.stat fs (FS.parent (op_path o)) = Some Dir
       \/ In (Mkdir (FS.parent (op_path o))) before)
      /\ grounded fs (o :: before) k
  | _ => True
  end.

(** A run in which nothing has failed and nothing can but by a fault of
    the environment. *)
Definition faultless (s : state) : Prop :=
  Inv.kept s /\ unobstructed s
  /\ Forall (grounded (files s) []) (inflight s)
  /\ Forall (fun t => fate t = Finish) (inflight s)
  /\ first_failure (trace s) = None.

(** What a completion without fault makes of the promises, when nothing
    is in the way: the promise goes on. *)
Definition advance (ts : list task) (i : nat) : list task :=
  match ts !! i with
  | Some (Do _ k) => <[i := k]> ts
  | _ => ts
  end.

(** ** The steps of a promise *)

(** Each operation of a promise, with what the promise goes on as
    after it. *)
Fixpoint links (t : task) : list (fsop * task) :=
  match t with
  | Do o k => (o, k) :: links k
  | _ => []
  end.

(** The callback after [mkdir] throws [e], and nothing else does: a
    promise is rejected after an operation only after [mkdir], and then
    with [e]; an exception has been raised only if [mkdir] has
    completed, and has been as soon as it has. *)
Definition callback_throws (mkdir : fsop) (e : error) (s : state) : Prop :=
  Forall (fun t => forall o k, In (o, k) (links t) ->
                     (o = mkdir -> k = Reject e)
                     /\ (forall e', k = Reject e' -> o = mkdir))
         (inflight s)
  /\ (forall e', In (Raised e') (trace s) ->
                 e' = e /\ In (Completed mkdir) (trace s))
  /\ (In (Completed mkdir) (trace s) -> In (Raised e) (trace s)).

(** * Properties *)

(** ** A run that goes well *)

(** Scenario A of the specification: [widgets], no override, nothing in
    the way.  The run ends with the success message and the nine files
    in place. *)
Example sample_run :
  let s := create Sample.env "widgets" None Sample.disk None Sample.in_order in
  standing s = Returned
  /\ first_failure (trace s) = None
  /\ List.last (console s) Blank = UpdateHere "/repo/packages/widgets"
  /\ Loop.all_finished (inflight s) = true
  /\ files s !! "/repo/packages/widgets/tests/index.test.ts"
     = Some (File (testFile Sample.env "widgets" +:+ Str.nl))
  /\ size (files s) = 15%nat.
Proof. by vm_compute. Qed.

(** ** Results *)

Lemma bind_ok {A B} (r : result A) (k : A -> result B) b :
  bind r k = Ok b -> exists a, r = Ok a /\ k a = Ok b.
Proof. destruct r as [a|e]; [by exists a|discriminate]. Qed.

Lemma bind_err {A B} (r : result A) (k : A -> result B) e :
  bind r k = Err e -> r = Err e \/ exists a, r = Ok a /\ k a = Err e.
Proof.
  destruct r as [a|e']; intros H; [right|left; by injection H as ->].
  exists a. split; [reflexivity|exact H].
Qed.

(** ** Tactics *)

(** Turns [bind r k = Ok b] in the context into its two halves. *)
Ltac bind_inv H :=
  repeat match type of H with
         | bind _ _ = Ok _ =>
             let a := fresh "v" in
             let E := fresh "E" in
             apply bind_ok in H as (a & E & H)
         end.

(** Opens a manifest that was built: its reads succeeded and it is the
    object literal. *)
Ltac pkg_inv H :=
  unfold pkg in H; bind_inv H; injection H as <-.

(** Pairs off two lists of operations, each pair on the same names and
    with the same data, or the two manifests. *)
Ltac pair_off :=
  repeat first
    [ apply List.Forall2_nil
    | apply List.Forall2_cons;
      [ split;
        [ eexists; split; reflexivity
        | first [left; reflexivity|right; split; reflexivity] ]
      | ] ].

(** Makes one variable of two values read from the same place. *)
Ltac same_reads :=
  repeat match goal with
         | H1 : ?r = Ok ?a, H2 : ?r = Ok ?b |- _ =>
             rewrite H1 in H2; injection H2 as <-
         end.

(** ** Strings *)

Module StrFacts.

Lemma app_cons c s t : String c s +:+ t = String c (s +:+ t).
Proof. reflexivity. Qed.

Lemma app_nil_r s : s +:+ "" = s.
Proof. induction s as [|c s IH]; [reflexivity|]. by rewrite app_cons, IH. Qed.

Lemma app_assoc s t u : (s +:+ t) +:+ u = s +:+ t +:+ u.
Proof. induction s as [|c s IH]; [reflexivity|]. by rewrite !app_cons, IH. Qed.

Lemma app_eq_nil s t : s +:+ t = "" -> s = "" /\ t = "".
Proof.
  destruct s; [intros H; split; [reflexivity|exact H]|].
  rewrite app_cons. discriminate.
Qed.

Lemma last_app s c t : Str.last (s +:+ String c t) = Str.last (String c t).
Proof.
  induction s as [|d s IH]; [reflexivity|].
  rewrite app_cons. change (Str.last (String d (s +:+ String c t)))
    with (match s +:+ String c t with
          | EmptyString => Some d
          | String _ _ => Str.last (s +:+ String c t)
          end).
  destruct (s +:+ String c t) eqn:E; [|by rewrite <- IH].
  apply app_eq_nil in E as [_ ?]. discriminate.
Qed.

Lemma mem_app c s t : Str.mem c (s +:+ t) = Str.mem c s || Str.mem c t.
Proof.
  induction s as [|d s IH]; [reflexivity|].
  rewrite app_cons. cbn [Str.mem]. destruct (Ascii.eqb c d); [reflexivity|apply IH].
Qed.

Lemma join_snoc sep xs a :
  Str.join sep (xs ++ [a])
  = match xs with [] => a | _ => Str.join sep xs +:+ sep +:+ a end.
Proof.
  induction xs as [|x xs IH]; [reflexivity|].
  destruct xs as [|y ys]; [reflexivity|].
  change (Str.join sep ((x :: y :: ys) ++ [a]))
    with (x +:+ sep +:+ Str.join sep ((y :: ys) ++ [a])).
  rewrite IH.
  change (Str.join sep (x :: y :: ys)) with (x +:+ sep +:+ Str.join sep (y :: ys)).
  by rewrite !app_assoc.
Qed.

End StrFacts.

(** ** Paths *)

Module PathFacts.
Import StrFacts Segments.

Lemma split_cons s : exists seg segs, Path.split s = seg :: segs.
Proof.
  induction s as [|c s (seg & segs & IH)]; [by eexists _, _|].
  cbn [Path.split]. rewrite IH. destruct (Ascii.eqb c Path.slash); by eexists _, _.
Qed.

Lemma split_app x y :
  Path.split (x +:+ String Path.slash y) = Path.split x ++ Path.split y.
Proof.
  induction x as [|c x IH]; [reflexivity|].
  rewrite app_cons. cbn [Path.split]. rewrite IH.
  destruct (Ascii.eqb c Path.slash); [reflexivity|].
  destruct (split_cons x) as (seg & segs & ->). reflexivity.
Qed.

Lemma split_plain a : Str.mem Path.slash a = false -> Path.split a = [a].
Proof.
  induction a as [|c a IH]; [reflexivity|].
  cbn [Str.mem Path.split]. rewrite Ascii.eqb_sym.
  destruct (Ascii.eqb c Path.slash); [discriminate|].
  intros H. by rewrite (IH H).
Qed.

Lemma split_no_slash s : Forall (fun seg => Str.mem Path.slash seg = false) (Path.split s).
Proof.
  induction s as [|c s IH]; [by repeat constructor|].
  cbn [Path.split]. destruct (Ascii.eqb c Path.slash) eqn:E; [by constructor|].
  destruct (Path.split s) as [|seg segs].
  - constructor; [|constructor]. cbn [Str.mem]. by rewrite Ascii.eqb_sym, E.
  - inversion IH; subst. constructor; [|done].
    cbn [Str.mem]. by rewrite Ascii.eqb_sym, E.
Qed.

Lemma proper_spec seg :
  proper seg = true
  <-> seg <> "" /\ seg <> "." /\ Str.mem Path.slash seg = false.
Proof.
  unfold proper. rewrite !andb_true_iff, !negb_true_iff, !String.eqb_neq.
  tauto.
Qed.

Lemma plain_spec seg :
  plain seg = true <-> proper seg = true /\ seg <> "..".
Proof.
  unfold plain. by rewrite andb_true_iff, negb_true_iff, String.eqb_neq.
Qed.

Lemma push_plain allow kept seg :
  plain seg = true -> Path.push allow kept seg = seg :: kept.
Proof.
  intros [[?[??]]%proper_spec ?]%plain_spec. unfold Path.push.
  by rewrite !(proj2 (String.eqb_neq _ _)).
Qed.

Lemma push_canon allow kept seg :
  Str.mem Path.slash seg = false ->
  canon allow kept -> canon allow (Path.push allow kept seg).
Proof.
  intros Hs Hk. unfold Path.push.
  destruct (String.eqb_spec seg "") as [->|H1]; [done|].
  destruct (String.eqb_spec seg ".") as [->|H2]; [done|]. cbn [orb].
  assert (proper seg = true) as Hp by (by apply proper_spec).
  destruct (String.eqb_spec seg "..") as [->|H3].
  - destruct kept as [|top below].
    + destruct allow; [|done]. cbn. by repeat split.
    + destruct (String.eqb_spec top "..") as [->|H4].
      * destruct allow; [|done]. split; [done|]. split; [|done].
        intros _. split; [done|]. destruct Hk as (_ & Hd & _).
        destruct (Hd eq_refl) as [_ ?]. by constructor.
      * by destruct Hk as (_ & _ & ?).
  - cbn. by repeat split.
Qed.

Lemma fold_push_canon allow segs kept :
  Forall (fun seg => Str.mem Path.slash seg = false) segs ->
  canon allow kept -> canon allow (fold_left (Path.push allow) segs kept).
Proof.
  intros Hs. revert kept. induction Hs as [|seg segs ? ? IH]; [done|].
  intros kept Hk. cbn [fold_left]. by apply IH, push_canon.
Qed.

Lemma stack_canon allow path : canon allow (stack allow path).
Proof. apply fold_push_canon; [apply split_no_slash|done]. Qed.

(** A kept segment goes back on what it was kept on. *)
Lemma push_canon_top allow top below :
  canon allow (top :: below) -> Path.push allow below top = top :: below.
Proof.
  intros (Hp & Hd & _).
  destruct (String.eqb_spec top "..") as [->|Hne];
    [|by apply push_plain, plain_spec].
  destruct (Hd eq_refl) as [-> Hall]. unfold Path.push. cbn.
  destruct below as [|b below]; [done|].
  inversion Hall; subst. done.
Qed.

(** Normalizing a normalized path keeps every segment. *)
Lemma replay absolute kept :
  canon (negb absolute) kept ->
  stack (negb absolute) (text absolute kept) = kept.
Proof.
  unfold stack, text. induction kept as [|top below IH]; intros Hk.
  - by destruct absolute.
  - pose proof Hk as (Hp & _ & Hb).
    apply proper_spec in Hp as (? & ? & Hs).
    cbn [rev]. rewrite join_snoc.
    destruct (rev below) as [|r rs] eqn:Er.
    + apply (f_equal (@rev string)) in Er. rewrite rev_involutive in Er.
      cbn in Er. subst below.
      assert (fold_left (Path.push (negb absolute)) (Path.split top) []
              = Path.push (negb absolute) [] top) as Hrel
        by (by rewrite split_plain).
      destruct absolute.
      * change ("/" +:+ top) with ("" +:+ String Path.slash top).
        rewrite split_app, fold_left_app. cbn [Path.split fold_left].
        change (Path.push (negb true) [] "") with (@nil string).
        rewrite Hrel. by apply push_canon_top.
      * change ("" +:+ top) with top. rewrite Hrel. by apply push_canon_top.
    + rewrite <- app_assoc.
      change ("/" +:+ top) with (String Path.slash top).
      rewrite <- Er in *. rewrite split_app, fold_left_app, (IH Hb).
      rewrite split_plain by done. cbn [fold_left]. by apply push_canon_top.
Qed.

Lemma text_inj absolute k1 k2 :
  canon (negb absolute) k1 -> canon (negb absolute) k2 ->
  text absolute k1 = text absolute k2 -> k1 = k2.
Proof.
  intros H1 H2 E. by rewrite <- (replay absolute k1), E, replay.
Qed.

Lemma last_mem a c : Str.last a = Some c -> Str.mem c a = true.
Proof.
  induction a as [|d a IH]; [done|]. cbn [Str.last Str.mem].
  destruct a as [|e a].
  - intros [= ->]. by rewrite Ascii.eqb_refl.
  - intros H. rewrite (IH H). by destruct (Ascii.eqb c d).
Qed.

Lemma trailing_plain x a :
  plain a = true -> Path.trailingSeparator (x +:+ "/" +:+ a) = false.
Proof.
  intros [(Hne & _ & Hs)%proper_spec _]%plain_spec.
  unfold Path.trailingSeparator.
  destruct a as [|c a]; [done|].
  rewrite <- app_assoc, last_app.
  destruct (Str.last (String c a)) as [l|] eqn:El; [|done].
  destruct (Ascii.eqb_spec l Path.slash) as [->|]; [|done].
  apply last_mem in El. congruence.
Qed.

Lemma absolute_app x y : x <> "" -> Path.isAbsolute (x +:+ y) = Path.isAbsolute x.
Proof. by destruct x. Qed.

Lemma stack_child allow x a :
  plain a = true -> stack allow (x +:+ "/" +:+ a) = a :: stack allow x.
Proof.
  intros Ha. pose proof Ha as [(_ & _ & Hs)%proper_spec _]%plain_spec.
  unfold stack. change ("/" +:+ a) with (String Path.slash a).
  rewrite split_app, fold_left_app, split_plain by done.
  cbn [fold_left]. by apply push_plain.
Qed.

Lemma text_snoc absolute kept a :
  kept <> [] ->
  text absolute (a :: kept) = text absolute kept +:+ "/" +:+ a.
Proof.
  intros Hk. unfold text. cbn [rev]. rewrite join_snoc.
  destruct (rev kept) eqn:E; [|by rewrite app_assoc].
  apply (f_equal (@rev string)) in E. by rewrite rev_involutive in E.
Qed.

Lemma body_nonempty a kept :
  proper a = true -> Str.join "/" (rev (a :: kept)) <> "".
Proof.
  intros (Hne & _)%proper_spec. cbn [rev]. rewrite join_snoc.
  destruct (rev kept); [done|].
  intros (_ & (_ & ?)%app_eq_nil)%app_eq_nil. done.
Qed.

Lemma text_nonempty absolute a kept :
  proper a = true -> text absolute (a :: kept) <> "".
Proof.
  intros Ha (_ & E)%app_eq_nil. by apply (body_nonempty a kept).
Qed.

(** A name appended to a path is kept on top of what the path keeps. *)
Lemma normalize_child x a :
  x <> "" -> plain a = true ->
  Path.normalize (x +:+ "/" +:+ a)
  = text (Path.isAbsolute x) (a :: stack (negb (Path.isAbsolute x)) x).
Proof.
  intros Hx Ha. pose proof Ha as [Hp _]%plain_spec. unfold Path.normalize.
  destruct (String.eqb_spec (x +:+ "/" +:+ a) "") as [E|_].
  { by apply app_eq_nil in E as [? _]. }
  rewrite absolute_app, trailing_plain by done.
  unfold Path.normalizeString.
  fold (stack (negb (Path.isAbsolute x)) (x +:+ "/" +:+ a)).
  rewrite stack_child by done.
  destruct (String.eqb_spec
              (Str.join "/" (rev (a :: stack (negb (Path.isAbsolute x)) x))) "")
    as [E|_]; [by apply body_nonempty in E|].
  unfold text. by rewrite app_nil_r.
Qed.

Lemma join_child d a :
  d <> "" -> plain a = true ->
  Path.join [d; a]
  = text (Path.isAbsolute d) (a :: stack (negb (Path.isAbsolute d)) d).
Proof.
  intros Hd Ha. pose proof Ha as [(Hne & _)%proper_spec _]%plain_spec.
  unfold Path.join.
  rewrite filter_cons_True, filter_cons_True by done.
  rewrite filter_nil. by apply normalize_child.
Qed.

Lemma normalize_nonempty path : Path.normalize path <> "".
Proof.
  unfold Path.normalize.
  destruct (String.eqb path ""); [done|].
  destruct (String.eqb_spec (Path.normalizeString path (negb (Path.isAbsolute path))) "")
    as [_|Hb].
  - by destruct (Path.isAbsolute path), (Path.trailingSeparator path).
  - intros (_ & (? & _)%app_eq_nil)%app_eq_nil. done.
Qed.

Lemma join_nonempty args : Path.join args <> "".
Proof.
  unfold Path.join.
  destruct (filter _ args); [done|apply normalize_nonempty].
Qed.

Lemma canon_proper allow kept : canon allow kept -> Forall (fun s => proper s = true) kept.
Proof.
  induction kept as [|top below IH]; [constructor|].
  intros (? & _ & ?). constructor; auto.
Qed.

Lemma canon_plain allow a kept :
  plain a = true -> canon allow kept -> canon allow (a :: kept).
Proof. intros [? ?]%plain_spec ?. by repeat split. Qed.

Lemma absolute_join_proper l :
  l <> [] -> Forall (fun s => proper s = true) l ->
  Path.isAbsolute (Str.join "/" l) = false.
Proof.
  destruct l as [|x l]; [done|]. intros _ Hall.
  inversion Hall as [|? ? (Hne & _ & Hs)%proper_spec _]; subst.
  destruct x as [|c x]; [done|].
  assert (Ascii.eqb c Path.slash = false) as Hc.
  { cbn [Str.mem] in Hs. rewrite Ascii.eqb_sym.
    by destruct (Ascii.eqb Path.slash c). }
  destruct l; [exact Hc|]. exact Hc.
Qed.

Lemma absolute_text absolute a kept :
  canon (negb absolute) (a :: kept) ->
  Path.isAbsolute (text absolute (a :: kept)) = absolute.
Proof.
  intros Hk%canon_proper. destruct absolute; [done|].
  unfold text. change ("" +:+ ?s) with s.
  apply absolute_join_proper.
  - cbn [rev]. by destruct (rev kept).
  - by apply Forall_rev.
Qed.

(** A name joined to a normalized path. *)
Lemma join_text_child absolute b kept a :
  canon (negb absolute) (b :: kept) -> plain a = true ->
  Path.join [text absolute (b :: kept); a] = text absolute (a :: b :: kept).
Proof.
  intros Hk Ha. pose proof Hk as (Hb & _).
  rewrite join_child by (by try apply text_nonempty).
  by rewrite absolute_text, replay.
Qed.

Lemma absolute_plain b : plain b = true -> Path.isAbsolute b = false.
Proof.
  intros [(Hne & _ & Hs)%proper_spec _]%plain_spec.
  destruct b as [|c b]; [done|]. cbn [Str.mem] in Hs. cbn.
  rewrite Ascii.eqb_sym. by destruct (Ascii.eqb Path.slash c).
Qed.

Lemma normalize_plain b : plain b = true -> Path.normalize b = b.
Proof.
  intros Hb. pose proof Hb as [Hp _]%plain_spec.
  pose proof Hp as (Hne & _ & Hs)%proper_spec.
  unfold Path.normalize, Path.normalizeString.
  rewrite (proj2 (String.eqb_neq _ _)) by done.
  rewrite absolute_plain, split_plain by done.
  cbn [negb fold_left]. rewrite push_plain by done.
  cbn [rev app Str.join]. rewrite (proj2 (String.eqb_neq _ _)) by done.
  assert (Path.trailingSeparator b = false) as ->.
  { unfold Path.trailingSeparator.
    destruct (Str.last b) as [l|] eqn:El; [|done].
    destruct (Ascii.eqb_spec l Path.slash) as [->|]; [|done].
    apply last_mem in El. congruence. }
  change ("" +:+ ?s) with s. by rewrite app_nil_r.
Qed.

(** Two names under one directory: the second goes after the path to
    the first. *)
Lemma join_under ws b a :
  plain b = true -> plain a = true ->
  Path.join [ws; b; a] = Path.join [ws; b] +:+ "/" +:+ a.
Proof.
  intros Hb Ha.
  pose proof Hb as [(Hbne & _ & Hbs)%proper_spec _]%plain_spec.
  pose proof Ha as [(Hane & _)%proper_spec _]%plain_spec.
  unfold Path.join. destruct (decide (ws = "")) as [->|Hws].
  - rewrite !(filter_cons_False _ "") by (by intros ?).
    rewrite !filter_cons_True, filter_nil by done.
    change (Str.join "/" [b; a]) with (b +:+ "/" +:+ a).
    change (Str.join "/" [b]) with b.
    rewrite (normalize_child b a), (normalize_plain b), (absolute_plain b) by done.
    unfold stack. rewrite split_plain by done.
    cbn [negb fold_left]. by rewrite push_plain.
  - rewrite !filter_cons_True, filter_nil by done.
    change (Str.join "/" [ws; b; a]) with (ws +:+ "/" +:+ b +:+ "/" +:+ a).
    change (Str.join "/" [ws; b]) with (ws +:+ "/" +:+ b).
    rewrite <- (app_assoc "/" b), <- (app_assoc ws).
    rewrite (normalize_child (ws +:+ "/" +:+ b) a), (normalize_child ws b) by
      (try done; by intros [? _]%app_eq_nil).
    rewrite absolute_app, stack_child by done.
    by rewrite text_snoc.
Qed.

End PathFacts.

(** ** The names of the tree *)

Module TreeFacts.
Import StrFacts Segments PathFacts.

Lemma trailing_proper x a :
  proper a = true -> Path.trailingSeparator (x +:+ a) = false.
Proof.
  intros (Hne & _ & Hs)%proper_spec. unfold Path.trailingSeparator.
  destruct a as [|c a]; [done|]. rewrite last_app.
  destruct (Str.last (String c a)) as [l|] eqn:El; [|done].
  destruct (Ascii.eqb_spec l Path.slash) as [->|]; [|done].
  apply last_mem in El. congruence.
Qed.

Lemma trailing_text absolute a kept :
  canon (negb absolute) (a :: kept) ->
  Path.trailingSeparator (text absolute (a :: kept)) = false.
Proof.
  intros (Ha & _). unfold text. cbn [rev]. rewrite join_snoc.
  destruct (rev kept) as [|r rs].
  - by apply trailing_proper.
  - rewrite <- !app_assoc. by apply trailing_proper.
Qed.

(** The name a path leads to, by the segments [normalizeString] keeps
    of it. *)
Lemma locate_kept path :
  FS.locate path
  = match stack (negb (Path.isAbsolute path)) path with
    | [] => if Path.isAbsolute path then "/" else "."
    | kept => text (Path.isAbsolute path) kept
    end.
Proof.
  unfold FS.locate, Path.normalizeString. cbv zeta.
  fold (stack (negb (Path.isAbsolute path)) path).
  pose proof (stack_canon (negb (Path.isAbsolute path)) path) as Hc.
  destruct (stack _ path) as [|a kept].
  - by destruct (Path.isAbsolute path).
  - destruct (Path.isAbsolute path); [reflexivity|].
    destruct Hc as [Ha _].
    pose proof (body_nonempty a kept Ha) as Hn. apply String.eqb_neq in Hn.
    rewrite Hn. reflexivity.
Qed.

(** A path made of kept segments is the name of its node. *)
Lemma locate_text absolute a kept :
  canon (negb absolute) (a :: kept) ->
  FS.locate (text absolute (a :: kept)) = text absolute (a :: kept).
Proof.
  intros Hc. rewrite locate_kept, (absolute_text _ _ _ Hc), (replay _ _ Hc).
  reflexivity.
Qed.

(** The name of a node leads to that node. *)
Lemma locate_idem path : FS.locate (FS.locate path) = FS.locate path.
Proof.
  rewrite (locate_kept path).
  pose proof (stack_canon (negb (Path.isAbsolute path)) path) as Hc.
  destruct (stack _ path) as [|a kept].
  - by destruct (Path.isAbsolute path).
  - by apply locate_text.
Qed.

Lemma stat_locate fs path : FS.stat fs (FS.locate path) = FS.stat fs path.
Proof. unfold FS.stat. by rewrite locate_idem. Qed.

(** A directory put under the name of a path is what the path leads
    to. *)
Lemma stat_made fs path : FS.stat (<[FS.locate path := Dir]> fs) path = Some Dir.
Proof.
  unfold FS.stat, FS.held. destruct (FS.given _); [done|].
  apply lookup_insert_eq.
Qed.

(** A path spelled as the tree names its node, with nothing there,
    does not end with a separator. *)
Lemma located_untrailed fs path :
  FS.locate path = path -> FS.stat fs path = None ->
  Path.trailingSeparator path = false.
Proof.
  intros E Hs. rewrite locate_kept in E.
  pose proof (stack_canon (negb (Path.isAbsolute path)) path) as Hc.
  destruct (stack _ path) as [|a kept].
  - destruct (Path.isAbsolute path); subst path; discriminate Hs.
  - rewrite <- E. by apply trailing_text.
Qed.

(** What is put under another name does not show. *)
Lemma stat_elsewhere fs name n path :
  FS.locate path <> name -> FS.stat (<[name := n]> fs) path = FS.stat fs path.
Proof.
  intros H. unfold FS.stat, FS.held. destruct (FS.given _); [done|].
  by apply lookup_insert_ne.
Qed.

End TreeFacts.

(** ** The manifest name and the target directory (C1) *)

(** C1, as stated, fails: an override that is the empty string is given,
    yet the directory is named after the package. *)
Lemma empty_override_uses_name :
  validForNewPackages (npmValiddate Sample.env "widgets") = true
  /\ dir Sample.env "widgets" (Some "") = "/repo/packages/widgets"
  /\ dir_as_stated Sample.env "widgets" (Some "") = "/repo/packages"
  /\ dir Sample.env "widgets" (Some "") <> dir_as_stated Sample.env "widgets" (Some "").
Proof. by vm_compute. Qed.

Lemma folderName_spec name folder :
  folderName name folder
  = match folder with
    | Some f => if String.eqb f "" then name else f
    | None => name
    end.
Proof.
  unfold folderName, JS.or. destruct folder as [f|]; [|reflexivity].
  cbn [JS.truthy]. by destruct (String.eqb f "").
Qed.

(** C1, amended: the manifest is named [@ganache/<name>] whatever the
    override; the target directory is [packages/<folder>] under the
    workspace when a non-empty override is given, and [packages/<name>]
    when none is or when it is empty.  When that last name is a plain
    file name, the path is literally the packages directory, a
    separator, and the name. *)
Theorem manifest_name_and_target_dir
    (env : Env) (name : string) (folder : option string)
    (packageAuthor rootPackageJson manifest : value) :
  pkg name folder packageAuthor rootPackageJson = Ok manifest ->
  let target := match folder with
                | Some f => if String.eqb f "" then name else f
                | None => name
                end in
  JS.get manifest "name" = Ok (VStr ("@ganache/" +:+ name))
  /\ dir env name folder = Path.join [workspaceDir env; "packages"; target]
  /\ (Segments.plain target = true ->
      dir env name folder
      = Path.join [workspaceDir env; "packages"] +:+ "/" +:+ target).
Proof.
  intros H target. pkg_inv H. split; [reflexivity|].
  unfold dir. rewrite folderName_spec. fold target. split; [reflexivity|].
  intros Hp. by apply PathFacts.join_under.
Qed.

Lemma manifest_name_and_target_dir_witness :
  exists manifest,
    pkg "widgets" (Some "widgets-pkg") VNull Sample.root = Ok manifest
    /\ JS.get manifest "name" = Ok (VStr "@ganache/widgets")
    /\ dir Sample.env "widgets" (Some "widgets-pkg")
       = Path.join [workspaceDir Sample.env; "packages"] +:+ "/" +:+ "widgets-pkg".
Proof.
  eexists. split; [reflexivity|].
  edestruct (manifest_name_and_target_dir Sample.env "widgets"
               (Some "widgets-pkg") VNull Sample.root) as (Hn & _ & Hd);
    [reflexivity|].
  split; [exact Hn|]. apply Hd. reflexivity.
Defined.

(** ** Serialization *)

Module JSONFacts.
Import StrFacts Serial.

Lemma serialize_defined gap indent v :
  defined v = true -> exists str, JSON.serialize gap indent v = Some str.
Proof.
  destruct v as [| |[]| | | |]; try discriminate; intros _; by eexists.
Qed.

Lemma serialize_object gap indent kvs :
  JSON.serialize gap indent (VObj kvs)
  = Some (JSON.wrap "{" "}" gap indent (indent +:+ gap)
            (JSON.members gap (indent +:+ gap) kvs)).
Proof.
  cbn [JSON.serialize]. do 2 f_equal.
  induction kvs as [|[k x] rest IH]; [reflexivity|].
  cbn [JSON.members]. rewrite <- IH. reflexivity.
Qed.

(** The members come in the order of the object, one for each
    property that is not [undefined]. *)
Lemma members_written gap inner kvs :
  JSON.members gap inner kvs
  = map (fun kv => JSON.member gap (fst kv)
                     (default "null" (JSON.serialize gap inner (snd kv))))
        (written kvs).
Proof.
  induction kvs as [|[k x] rest IH]; [reflexivity|].
  cbn [JSON.members written List.filter snd].
  destruct (defined x) eqn:D.
  - destruct (serialize_defined gap inner x D) as [str E]. rewrite E.
    cbn [map fst snd]. rewrite E. cbn [default]. f_equal. exact IH.
  - destruct x; try discriminate. exact IH.
Qed.

(** The text of an object with something to write, indented by
    [gap]: a line for the brace, a line for each member, a line for
    the closing brace. *)
Lemma wrap_indented opening closing gap stepback indent m ms :
  gap <> "" ->
  JSON.wrap opening closing gap stepback indent (m :: ms)
  = opening +:+ Str.nl +:+ indent
      +:+ Str.join ("," +:+ Str.nl +:+ indent) (m :: ms)
      +:+ Str.nl +:+ stepback +:+ closing.
Proof.
  intros Hg. unfold JSON.wrap. by rewrite (proj2 (String.eqb_neq _ _)).
Qed.

Lemma wrap_compact opening closing stepback indent m ms :
  JSON.wrap opening closing "" stepback indent (m :: ms)
  = opening +:+ Str.join "," (m :: ms) +:+ closing.
Proof. reflexivity. Qed.

(** The last character written for an object. *)
Lemma wrap_last opening gap stepback indent ms c :
  Str.last (JSON.wrap opening (String c "") gap stepback indent ms) = Some c.
Proof.
  unfold JSON.wrap. destruct ms; [|destruct (String.eqb gap "")].
  - by rewrite last_app.
  - by rewrite <- app_assoc, last_app.
  - by rewrite <- !app_assoc, last_app.
Qed.

Lemma last_split s c : Str.last s = Some c -> exists body, s = body +:+ String c "".
Proof.
  induction s as [|d s IH]; [done|]. cbn [Str.last].
  destruct s as [|e s].
  - intros [= ->]. by exists "".
  - intros (body & E)%IH. exists (String d body). by rewrite app_cons, <- E.
Qed.

Lemma object_line gap kvs :
  one_final_newline
    (default "undefined" (JSON.serialize gap "" (VObj kvs)) +:+ Str.nl).
Proof.
  rewrite serialize_object. cbn [default].
  destruct (last_split _ _ (wrap_last "{" gap "" ("" +:+ gap)
                              (JSON.members gap ("" +:+ gap) kvs)
                              (ascii_of_nat 125)))
    as (body & E).
  change (String (ascii_of_nat 125) "") with "}" in E. rewrite E.
  exists body, (ascii_of_nat 125). split; [apply app_assoc|done].
Qed.

End JSONFacts.

(** ** The development dependencies (C5) *)

(** C5, as stated, fails: the manifest carries a sixth key, the type
    declarations of the test runner. *)
Lemma devDependencies_sixth_key :
  exists manifest kvs,
    pkg "widgets" None VNull Sample.root = Ok manifest
    /\ JS.get manifest "devDependencies" = Ok (VObj kvs)
    /\ map fst kvs <> devDependency_keys_as_stated
    /\ In "@types/mocha" (map fst kvs)
    /\ ~ In "@types/mocha" devDependency_keys_as_stated
    /\ length kvs = 6%nat.
Proof.
  eexists _, _. split; [reflexivity|]. split; [reflexivity|].
  split; [discriminate|]. split; [by left|]. split; [|reflexivity].
  cbn. intuition discriminate.
Qed.

Lemma written_keys kvs k :
  In k (map fst (Serial.written kvs))
  <-> exists v, In (k, v) kvs /\ v <> VUndef.
Proof.
  unfold Serial.written. rewrite in_map_iff. split.
  - intros ([k' v] & <- & [Hin Hd]%filter_In). exists v. split; [done|].
    by intros ->.
  - intros (v & Hin & Hd). exists (k, v). split; [done|].
    apply filter_In. split; [done|]. by destruct v.
Qed.

(** C5, amended: [devDependencies] has exactly six keys, the five named
    and [@types/mocha]; each holds what the root manifest holds under
    that key, [undefined] when the root manifest has no such key; and
    the keys written to the file are those the root manifest has. *)
Theorem devDependencies_copied
    (name : string) (folder : option string)
    (packageAuthor rootPackageJson manifest : value) :
  pkg name folder packageAuthor rootPackageJson = Ok manifest ->
  exists deps kvs,
    JS.get rootPackageJson "devDependencies" = Ok deps
    /\ JS.get manifest "devDependencies" = Ok (VObj kvs)
    /\ map fst kvs = devDependency_keys
    /\ (forall k v, In (k, v) kvs -> JS.get deps k = Ok v)
    /\ (forall k, In k (map fst (Serial.written kvs))
                  <-> In k devDependency_keys /\ JS.get deps k <> Ok VUndef).
Proof.
  intros H. pkg_inv H. eexists _, _.
  split; [eassumption|]. split; [reflexivity|]. split; [reflexivity|].
  assert (forall k v,
            In (k, v) [("@types/mocha", v1); ("cross-env", v2); ("mocha", v3);
                       ("nyc", v4); ("ts-node", v5); ("typescript", v6)] ->
            JS.get v0 k = Ok v) as Hcopy.
  { intros k x Hin. cbn in Hin.
    repeat (destruct Hin as [[= <- <-]|Hin]; [assumption|]). destruct Hin. }
  split; [exact Hcopy|]. intros k. rewrite written_keys. split.
  - intros (x & Hin & Hx). split.
    + apply (in_map fst) in Hin. exact Hin.
    + rewrite (Hcopy _ _ Hin). by intros [= ->].
  - intros [Hk Hx].
    change devDependency_keys
      with (map fst [("@types/mocha", v1); ("cross-env", v2); ("mocha", v3);
                     ("nyc", v4); ("ts-node", v5); ("typescript", v6)]) in Hk.
    apply in_map_iff in Hk as ([k' x] & <- & Hin). exists x. split; [done|].
    intros ->. apply Hx. by apply Hcopy.
Qed.

Lemma devDependencies_copied_witness :
  exists manifest deps kvs,
    pkg "widgets" None VNull Sample.root = Ok manifest
    /\ JS.get Sample.root "devDependencies" = Ok deps
    /\ JS.get manifest "devDependencies" = Ok (VObj kvs)
    /\ map fst kvs = devDependency_keys
    /\ JS.get deps "mocha" = Ok (VStr "9.1.3").
Proof.
  destruct (devDependencies_copied "widgets" None VNull Sample.root _ eq_refl)
    as (deps & kvs & Hd & Hm & Hk & Hc & _).
  eexists _, deps, kvs. split; [reflexivity|]. split; [exact Hd|].
  split; [exact Hm|]. split; [exact Hk|].
  injection Hd as <-. reflexivity.
Defined.

(** ** The event loop *)

Module LoopFacts.
Section LoopFacts.

Variable onSuccess : list line.
Variable onFailure : error -> list line.

Abbreviation step := (Loop.step onSuccess onFailure).
Abbreviation run := (Loop.run onSuccess onFailure).
Abbreviation reject := (Loop.reject onFailure).
Abbreviation fulfil := (Loop.fulfil onSuccess).
Abbreviation settle := (Loop.settle onSuccess onFailure).
Abbreviation stepped := (Inv.stepped onSuccess onFailure).
Abbreviation kept := Inv.kept.

Lemma run_nil s : run [] s = s.
Proof. reflexivity. Qed.

Lemma run_cons c schedule s : run (c :: schedule) s = run schedule (step s c).
Proof. reflexivity. Qed.

(** A property that every step keeps holds at the end of every run. *)
Lemma run_invariant (P : state -> Prop) :
  (forall s c, P s -> P (step s c)) ->
  forall schedule s, P s -> P (run schedule s).
Proof.
  intros Hstep schedule. induction schedule as [|c schedule IH]; [done|].
  intros s Hs. rewrite run_cons. by apply IH, Hstep.
Qed.

Lemma reject_same e s :
  files (reject e s) = files s /\ inflight (reject e s) = inflight s
  /\ trace (reject e s) = trace s.
Proof. unfold Loop.reject. by destruct (standing s). Qed.

Lemma fulfil_same s :
  files (fulfil s) = files s /\ inflight (fulfil s) = inflight s
  /\ trace (fulfil s) = trace s.
Proof.
  unfold Loop.fulfil.
  by destruct (standing s), (Loop.all_finished (inflight s)).
Qed.

Lemma settle_same k s :
  files (settle k s) = files s /\ inflight (settle k s) = inflight s
  /\ trace (settle k s) = trace s.
Proof. destruct k; [apply fulfil_same|apply reject_same|done]. Qed.

Lemma step_stepped s c : stepped s c (step s c).
Proof.
  unfold Loop.step.
  destruct (inflight s !! fst c) as [[| |o k]|] eqn:E;
    try (apply Inv.stepped_idle; congruence).
  destruct (FS.exec (snd c) o (files s)) eqn:X.
  - by apply Inv.stepped_done.
  - by eapply Inv.stepped_failed.
Qed.

(** An operation that succeeds puts its node under the name its path
    leads to. *)
Lemma exec_ok fault o fs fs' :
  FS.exec fault o fs = Ok fs' ->
  fault = None
  /\ fs' = <[FS.locate (op_path o) := match o with
                                      | Mkdir _ => Dir
                                      | WriteFile _ data => File data
                                      end]> fs.
Proof.
  unfold FS.exec. destruct fault; [discriminate|].
  destruct o as [p|p data]; cbn [op_path]; destruct (String.eqb p "");
    try discriminate.
  - destruct (FS.stat fs p); [discriminate|].
    destruct (FS.stat fs (FS.parent p)) as [[]|]; try discriminate.
    by intros [= <-].
  - destruct (FS.stat fs p) as [[]|], (FS.stat fs (FS.parent p)) as [[]|],
      (Path.trailingSeparator p); try discriminate; by intros [= <-].
Qed.

(** No operation succeeds on a path that leads to a directory. *)
Lemma exec_ok_stat fault o fs fs' :
  FS.exec fault o fs = Ok fs' -> FS.stat fs (op_path o) <> Some Dir.
Proof.
  unfold FS.exec. destruct fault; [discriminate|].
  destruct o as [p|p data]; cbn [op_path]; destruct (String.eqb p "");
    try discriminate.
  - by destruct (FS.stat fs p).
  - by destruct (FS.stat fs p) as [[]|].
Qed.

(** A directory stays one whatever succeeds. *)
Lemma exec_dir fault o fs fs' q :
  FS.exec fault o fs = Ok fs' ->
  FS.stat fs q = Some Dir -> FS.stat fs' q = Some Dir.
Proof.
  intros Hx Hq. pose proof (exec_ok_stat _ _ _ _ Hx) as Hn.
  apply exec_ok in Hx as [_ ->]. unfold FS.stat, FS.held in *.
  destruct (FS.given (FS.locate q)); [done|].
  destruct (decide (FS.locate (op_path o) = FS.locate q)) as [E|E].
  - rewrite E in Hn. destruct (FS.given (FS.locate q)); congruence.
  - by rewrite lookup_insert_ne.
Qed.

(** So does what the tree holds as a directory under a name. *)
Lemma exec_held fault o fs fs' name :
  FS.exec fault o fs = Ok fs' ->
  fs !! name = Some Dir -> fs' !! name = Some Dir.
Proof.
  intros Hx Hq. pose proof (exec_ok_stat _ _ _ _ Hx) as Hn.
  apply exec_ok in Hx as [_ ->]. unfold FS.stat, FS.held in *.
  destruct (decide (FS.locate (op_path o) = name)) as [E|E].
  - rewrite E in Hn. destruct (FS.given name); congruence.
  - by rewrite lookup_insert_ne.
Qed.

(** A directory the tree holds under the name of a path is what the
    path leads to. *)
Lemma held_stat fs path :
  fs !! FS.locate path = Some Dir -> FS.stat fs path = Some Dir.
Proof. intros H. unfold FS.stat, FS.held. by destruct (FS.given _). Qed.

(** What an operation needs to succeed when the environment lets
    it. *)
Lemma exec_vacant o fs :
  FS.stat fs (op_path o) = None ->
  FS.stat fs (FS.parent (op_path o)) = Some Dir ->
  match o with
  | Mkdir _ => True
  | WriteFile p _ => Path.trailingSeparator p = false
  end ->
  FS.exec None o fs
  = Ok (<[FS.locate (op_path o) := match o with
                                   | Mkdir _ => Dir
                                   | WriteFile _ data => File data
                                   end]> fs).
Proof.
  intros Hs Hp Ht. unfold FS.exec.
  assert (String.eqb (op_path o) "" = false) as Hne.
  { apply String.eqb_neq. intros E. rewrite E in Hs. discriminate. }
  destruct o as [p|p data]; cbn [op_path] in *; by rewrite Hne, Hs, Hp, ?Ht.
Qed.

Lemma pending_app ts1 ts2 : pending (ts1 ++ ts2) = pending ts1 ++ pending ts2.
Proof. apply flat_map_app. Qed.

(** Where the operations of one promise sit among those pending. *)
Lemma pending_lookup ts i t :
  ts !! i = Some t ->
  pending ts = pending (take i ts) ++ ops t ++ pending (drop (S i) ts).
Proof.
  intros H. rewrite <- (take_drop_middle ts i t H) at 1.
  rewrite pending_app. cbn [pending flat_map]. reflexivity.
Qed.

Lemma pending_insert ts i t t' :
  ts !! i = Some t ->
  pending (<[i := t']> ts)
  = pending (take i ts) ++ ops t' ++ pending (drop (S i) ts).
Proof.
  intros H. rewrite insert_take_drop by (by eapply lookup_lt_Some).
  rewrite pending_app. cbn [pending flat_map]. reflexivity.
Qed.

Lemma first_failure_app tr1 tr2 :
  first_failure (tr1 ++ tr2)
  = match first_failure tr1 with
    | Some e => Some e
    | None => first_failure tr2
    end.
Proof.
  induction tr1 as [|[] tr1 IH]; cbn [app first_failure]; done.
Qed.

(** *** What is written stays written *)

Lemma NoDup_drop_middle {A} (l k l' : list A) :
  List.NoDup (l ++ k ++ l') -> List.NoDup (l ++ l').
Proof.
  induction k as [|x k IH]; [done|].
  intros H. apply IH.
  change (List.NoDup (l ++ x :: (k ++ l'))) in H.
  by apply List.NoDup_remove_1 in H.
Qed.

Lemma in_onward_completed k o : ~ In (Completed o) (Loop.onward k).
Proof.
  destruct k as [|e|o' k']; cbn [Loop.onward In]; intros H;
    [done|destruct H as [[=]|[]]..].
Qed.

Lemma step_kept s c : kept s -> kept (step s c).
Proof.
  intros (Hnd & Hfresh & Hfiles & Hloc).
  destruct (step_stepped s c) as [Hidle|o k fs' Hl Hx|o k e Hl Hx]; [done|..].
  - destruct (settle_same k
                (State fs' (<[fst c := k]> (inflight s)) (standing s) (console s)
                   (trace s ++ Completed o :: Loop.onward k)))
      as (Ef & Ei & Et).
    unfold kept. rewrite Ef, Ei, Et. cbn [files inflight trace].
    rewrite (pending_insert _ _ _ k Hl).
    rewrite (pending_lookup _ _ _ Hl) in Hnd, Hfresh, Hloc.
    cbn [ops] in Hnd, Hfresh, Hloc.
    set (P1 := pending (take (fst c) (inflight s))) in *.
    set (P2 := pending (drop (S (fst c)) (inflight s))) in *.
    rewrite map_app in Hnd. cbn [app map] in Hnd.
    apply List.NoDup_remove in Hnd as [Hnd Ho]. rewrite <- map_app in Hnd, Ho.
    apply exec_ok in Hx as [_ ->].
    rewrite (Hloc o) by (rewrite !in_app_iff; cbn [In]; tauto).
    assert (forall o2, In o2 (P1 ++ ops k ++ P2) -> op_path o2 <> op_path o)
      as Hne.
    { intros o2 Hin E. apply Ho. rewrite <- E. by apply in_map. }
    assert (forall o2, In o2 (P1 ++ ops k ++ P2) ->
                       In o2 (P1 ++ (o :: ops k) ++ P2)) as Hsub.
    { intros o2. rewrite !in_app_iff. cbn [In]. tauto. }
    split; [exact Hnd|]. split; [|split].
    + intros o2 o' Hin [Hold|[[= <-]|Hon]]%in_app_iff.
      * by apply Hfresh; [apply Hsub|].
      * by apply Hne.
      * by apply in_onward_completed in Hon.
    + intros p data [Hold|[[= ->]|Hon]]%in_app_iff.
      * rewrite lookup_insert_ne; [by apply Hfiles|].
        apply (Hfresh o (WriteFile p data)); [|done].
        rewrite !in_app_iff. cbn [In]. tauto.
      * cbn [op_path]. apply lookup_insert_eq.
      * by apply in_onward_completed in Hon.
    + intros o2 Hin. by apply Hloc, Hsub.
  - destruct (reject_same e
                (State (files s) (<[fst c := Reject e]> (inflight s))
                   (standing s) (console s) (trace s ++ [Failed o e])))
      as (Ef & Ei & Et).
    unfold kept. rewrite Ef, Ei, Et. cbn [files inflight trace].
    rewrite (pending_insert _ _ _ (Reject e) Hl).
    rewrite (pending_lookup _ _ _ Hl) in Hnd, Hfresh, Hloc. cbn [ops app].
    set (P1 := pending (take (fst c) (inflight s))) in *.
    set (P2 := pending (drop (S (fst c)) (inflight s))) in *.
    split; [|split; [|split]].
    + rewrite !map_app in *. by apply NoDup_drop_middle in Hnd.
    + intros o2 o' Hin [Hold|[[=]|[]]]%in_app_iff.
      apply Hfresh; [|done]. rewrite !in_app_iff in *. tauto.
    + intros p data [Hold|[[=]|[]]]%in_app_iff. by apply Hfiles.
    + intros o2 Hin. apply Hloc. rewrite !in_app_iff in *. tauto.
Qed.

Lemma run_kept schedule s : kept s -> kept (run schedule s).
Proof. apply (run_invariant kept). exact step_kept. Qed.

(** *** What is reported *)

Variable shown : list line.

Abbreviation reported := (Inv.reported onSuccess onFailure shown).

Lemma all_finished_lookup ts i o k :
  Loop.all_finished ts = true -> ts !! i <> Some (Do o k).
Proof.
  unfold Loop.all_finished. rewrite forallb_forall. intros Hall Hl.
  apply list_elem_of_lookup_2, list_elem_of_In in Hl.
  by specialize (Hall _ Hl).
Qed.

Lemma first_failure_onward k :
  first_failure (Loop.onward k)
  = match k with Reject e => Some e | _ => None end.
Proof. by destruct k. Qed.

Lemma step_reported s c : reported s -> reported (step s c).
Proof.
  intros Hrep.
  destruct (step_stepped s c) as [Hidle|o k fs' Hl Hx|o k e Hl Hx]; [done|..].
  - unfold reported in *.
    destruct (settle_same k
                (State fs' (<[fst c := k]> (inflight s)) (standing s) (console s)
                   (trace s ++ Completed o :: Loop.onward k)))
      as (_ & Ei & Et).
    rewrite Et, Ei. cbn [trace inflight].
    rewrite first_failure_app. cbn [first_failure].
    rewrite first_failure_onward.
    destruct (first_failure (trace s)) as [e0|].
    + destruct Hrep as [Hs Hc]. unfold Loop.settle, Loop.reject, Loop.fulfil.
      destruct k; cbn [standing console]; by rewrite ?Hs.
    + destruct Hrep as [[Hs Hc]|(_ & _ & Hall)];
        [|by apply all_finished_lookup with (i := fst c) (o := o) (k := k) in Hall].
      unfold Loop.settle, Loop.reject, Loop.fulfil.
      destruct k as [|e|o' k']; cbn [standing console inflight]; rewrite ?Hs.
      * destruct (Loop.all_finished (<[fst c := Finish]> (inflight s))) eqn:Ea;
          cbn [standing console inflight]; [right|left]; by rewrite ?Hc.
      * cbn [standing console]. by rewrite Hc.
      * by left.
  - unfold reported in *.
    destruct (reject_same e
                (State (files s) (<[fst c := Reject e]> (inflight s))
                   (standing s) (console s) (trace s ++ [Failed o e])))
      as (_ & _ & Et).
    rewrite Et. cbn [trace]. rewrite first_failure_app. cbn [first_failure].
    unfold Loop.reject. cbn [standing console].
    destruct (first_failure (trace s)) as [e0|].
    + destruct Hrep as [Hs Hc]. by rewrite Hs.
    + destruct Hrep as [[Hs Hc]|(_ & _ & Hall)];
        [|by apply all_finished_lookup with (i := fst c) (o := o) (k := k) in Hall].
      rewrite Hs. cbn [standing console]. by rewrite Hc.
Qed.

Lemma run_reported schedule s : reported s -> reported (run schedule s).
Proof. apply (run_invariant reported). exact step_reported. Qed.

(** *** What is issued when *)

Variable dirs : list string.

Abbreviation allowed := (Inv.allowed dirs).
Abbreviation sequenced := (Inv.sequenced dirs).
Abbreviation continues := (Inv.continues dirs).
Abbreviation promised := (Inv.promised dirs).
Abbreviation ordered := (Inv.ordered dirs).

Lemma allowed_mono seen seen' e :
  (forall x, In x seen -> In x seen') -> allowed seen e -> allowed seen' e.
Proof. destruct e as [[]| | |]; cbn; auto. Qed.

Lemma continues_mono k : forall seen seen',
  (forall x, In x seen -> In x seen') -> continues seen k -> continues seen' k.
Proof.
  induction k as [| |o k IH]; [done..|].
  intros seen seen' Hsub [Ha Hk]. split; [by eapply allowed_mono|].
  eapply IH; [|exact Hk]. intros x. rewrite !in_app_iff. intuition.
Qed.

Lemma promised_mono seen seen' t :
  (forall x, In x seen -> In x seen') -> promised seen t -> promised seen' t.
Proof.
  destruct t as [| |o k]; [done..|]. intros Hsub. apply continues_mono.
  intros x. rewrite !in_app_iff. intuition.
Qed.

Lemma sequenced_app tr1 : forall seen tr2,
  sequenced seen (tr1 ++ tr2)
  <-> sequenced seen tr1 /\ sequenced (seen ++ tr1) tr2.
Proof.
  induction tr1 as [|e tr1 IH]; intros seen tr2.
  - cbn. rewrite app_nil_r. tauto.
  - cbn [app sequenced]. rewrite IH, <- app_assoc. cbn [app]. tauto.
Qed.

Lemma sequenced_onward seen o k :
  continues (seen ++ [Completed o]) k ->
  sequenced seen (Completed o :: Loop.onward k).
Proof.
  intros Hk. split; [done|]. destruct k as [| |o' k']; [done..|].
  destruct Hk as [Ha _]. by split.
Qed.

Lemma step_ordered s c : ordered s -> ordered (step s c).
Proof.
  intros [Hseq Hall].
  destruct (step_stepped s c) as [Hidle|o k fs' Hl Hx|o k e Hl Hx]; [done|..].
  - destruct (settle_same k
                (State fs' (<[fst c := k]> (inflight s)) (standing s) (console s)
                   (trace s ++ Completed o :: Loop.onward k)))
      as (_ & Ei & Et).
    unfold ordered. rewrite Ei, Et. cbn [inflight trace].
    pose proof (Forall_lookup_1 _ _ _ _ Hall Hl) as Hk. cbn [promised] in Hk.
    split.
    + apply sequenced_app. split; [done|]. by apply sequenced_onward.
    + apply Forall_insert.
      * eapply Forall_impl; [exact Hall|]. intros t. apply promised_mono.
        intros x. rewrite in_app_iff. auto.
      * destruct k as [| |o' k']; [done..|]. destruct Hk as [_ Hk].
        cbn [promised Loop.onward]. eapply continues_mono; [|exact Hk].
        intros x. rewrite !in_app_iff. cbn [In]. tauto.
  - destruct (reject_same e
                (State (files s) (<[fst c := Reject e]> (inflight s))
                   (standing s) (console s) (trace s ++ [Failed o e])))
      as (_ & Ei & Et).
    unfold ordered. rewrite Ei, Et. cbn [inflight trace]. split.
    + apply sequenced_app. by repeat split.
    + apply Forall_insert; [|done].
      eapply Forall_impl; [exact Hall|]. intros t. apply promised_mono.
      intros x. rewrite in_app_iff. auto.
Qed.

Lemma run_ordered schedule s : ordered s -> ordered (run schedule s).
Proof. apply (run_invariant ordered). exact step_ordered. Qed.

(** An event of a sequenced trace is allowed after those before it. *)
Lemma sequenced_at tr tr1 e tr2 :
  sequenced [] tr -> tr = tr1 ++ e :: tr2 -> allowed tr1 e.
Proof.
  intros H ->. apply sequenced_app in H as [_ H]. by destruct H.
Qed.

(** *** Where the operations come from *)

Variable planned : list fsop.

Abbreviation sourced := (Inv.sourced planned).

Lemma step_sourced s c : sourced s -> sourced (step s c).
Proof.
  intros [Htr Hpe].
  destruct (step_stepped s c) as [Hidle|o k fs' Hl Hx|o k e Hl Hx]; [done|..].
  - destruct (settle_same k
                (State fs' (<[fst c := k]> (inflight s)) (standing s) (console s)
                   (trace s ++ Completed o :: Loop.onward k)))
      as (_ & Ei & Et).
    unfold sourced. rewrite Ei, Et. cbn [inflight trace].
    rewrite (pending_insert _ _ _ k Hl).
    rewrite (pending_lookup _ _ _ Hl) in Hpe. cbn [ops] in Hpe.
    split.
    + intros o' [Hold|[[=]|Hon]]%in_app_iff; [by apply Htr|].
      destruct k as [| |o2 k2]; cbn [Loop.onward In] in Hon;
        [done|by destruct Hon as [[=]|[]]|].
      destruct Hon as [[= <-]|[]]. apply Hpe.
      rewrite !in_app_iff. cbn [ops In]. tauto.
    + intros o'. rewrite !in_app_iff. intros H. apply Hpe.
      rewrite !in_app_iff. cbn [In]. tauto.
  - destruct (reject_same e
                (State (files s) (<[fst c := Reject e]> (inflight s))
                   (standing s) (console s) (trace s ++ [Failed o e])))
      as (_ & Ei & Et).
    unfold sourced. rewrite Ei, Et. cbn [inflight trace].
    rewrite (pending_insert _ _ _ (Reject e) Hl).
    rewrite (pending_lookup _ _ _ Hl) in Hpe. cbn [ops app].
    split.
    + intros o' [Hold|[[=]|[]]]%in_app_iff. by apply Htr.
    + intros o'. rewrite !in_app_iff. intros H. apply Hpe.
      rewrite !in_app_iff. tauto.
Qed.

Lemma run_sourced schedule s : sourced s -> sourced (run schedule s).
Proof. apply (run_invariant sourced). exact step_sourced. Qed.

End LoopFacts.
End LoopFacts.

(** ** The promises of one run *)

Module PlanFacts.
Section PlanFacts.
Import Segments PathFacts.

Variable env : Env.
Variable name : string.
Variable folder : option string.
Variable LICENSE : string.
Variable prettierConfig : value.
Variable manifest : value.

Abbreviation d := (dir env name folder).
Abbreviation absolute := (Path.isAbsolute (dir env name folder)).
Abbreviation base :=
  (stack (negb (Path.isAbsolute (dir env name folder))) (dir env name folder)).
Abbreviation under := (Plan.under env name folder).
Abbreviation chains :=
  (Plan.chains env name folder LICENSE prettierConfig manifest).
Abbreviation names_pending :=
  (Plan.names_pending env name prettierConfig manifest).
Abbreviation dirs := (Plan.dirs env name folder).
Abbreviation shown := (Plan.shown env name folder).
Abbreviation made := (Plan.made env name folder).
Abbreviation start :=
  (Plan.start env name folder LICENSE prettierConfig manifest).

(** The promises created are the first ones of [chains]: all of them
    when nothing is thrown. *)
Lemma issue_elements :
  exists n,
    fst (issue (elements env name folder LICENSE prettierConfig manifest))
    = take n chains
    /\ (snd (issue (elements env name folder LICENSE prettierConfig manifest))
        = None -> n = 9%nat).
Proof.
  unfold elements, chains, initIndex, initRootFiles.
  destruct (prettier_format env (headerdoc name manifest +:+ indexFile)
              (options prettierConfig "typescript")) as [i|e].
  - destruct (prettier_format env (readme name)
                (options prettierConfig "markdown")) as [r|e].
    + exists 9%nat. by split.
    + exists 6%nat. by split.
  - exists 2%nat. by split.
Qed.

Lemma forall_plain_canon allow names kept :
  Forall (fun a => plain a = true) names ->
  canon allow kept -> canon allow (names ++ kept).
Proof.
  induction 1 as [|a names Ha _ IH]; [done|].
  intros Hk. cbn [app]. by apply canon_plain, IH.
Qed.

Lemma under_inj names1 names2 :
  Forall (fun a => plain a = true) names1 ->
  Forall (fun a => plain a = true) names2 ->
  under names1 = under names2 -> names1 = names2.
Proof.
  intros H1 H2 E. apply text_inj in E.
  - by apply app_inv_tail in E.
  - apply forall_plain_canon; [done|apply stack_canon].
  - apply forall_plain_canon; [done|apply stack_canon].
Qed.

Lemma dir_child a : plain a = true -> Path.join [d; a] = under [a].
Proof. intros Ha. apply join_child; [apply join_nonempty|done]. Qed.

Lemma under_child a b names :
  plain a = true -> Forall (fun x => plain x = true) (b :: names) ->
  Path.join [under (b :: names); a] = under (a :: b :: names).
Proof.
  intros Ha Hn. unfold under. cbn [app]. apply join_text_child; [|done].
  apply (forall_plain_canon _ (b :: names)); [done|apply stack_canon].
Qed.

Lemma tests_under : tests env name folder = under ["tests"].
Proof. by apply dir_child. Qed.

Lemma src_under : src env name folder = under ["src"].
Proof. by apply dir_child. Qed.

(** The target directory is none of the paths under it. *)
Lemma under_not_dir a names :
  Forall (fun x => plain x = true) (a :: names) -> under (a :: names) <> d.
Proof.
  intros Hn E. apply (f_equal (stack (negb absolute))) in E.
  unfold under in E.
  rewrite replay in E
    by (apply (forall_plain_canon _ (a :: names)); [done|apply stack_canon]).
  apply (f_equal length) in E. rewrite length_app in E. cbn in E. lia.
Qed.

Lemma chains_paths : map op_path (pending chains) = map under names_pending.
Proof.
  unfold chains, names_pending, initRootFiles, initIndex, initTests, initSrc,
    pkgPath.
  rewrite tests_under, src_under, !dir_child, !under_child
    by (by repeat constructor).
  destruct (prettier_format env (headerdoc name manifest +:+ indexFile) _),
    (prettier_format env (testFile env name) _),
    (prettier_format env indexFile _),
    (prettier_format env (readme name) _); reflexivity.
Qed.

Lemma names_pending_plain :
  Forall (Forall (fun a => plain a = true)) names_pending.
Proof.
  unfold names_pending.
  destruct (Plan.is_ok _), (Plan.is_ok _), (Plan.is_ok _), (Plan.is_ok _);
    repeat constructor.
Qed.

Lemma names_pending_NoDup : List.NoDup names_pending.
Proof.
  unfold names_pending. apply NoDup_ListNoDup.
  destruct (Plan.is_ok _), (Plan.is_ok _), (Plan.is_ok _), (Plan.is_ok _); compute_done.
Qed.

Lemma names_pending_nonempty : Forall (fun names => names <> []) names_pending.
Proof.
  unfold names_pending.
  destruct (Plan.is_ok _), (Plan.is_ok _), (Plan.is_ok _), (Plan.is_ok _);
    repeat constructor; done.
Qed.

Lemma NoDup_map_on {A B} (f : A -> B) (l : list A) :
  (forall x y, In x l -> In y l -> f x = f y -> x = y) ->
  List.NoDup l -> List.NoDup (map f l).
Proof.
  intros Hinj Hnd. induction Hnd as [|x l Hx Hnd IH]; [constructor|].
  cbn [map]. constructor.
  - intros (y & E & Hy)%in_map_iff. apply Hx.
    rewrite (Hinj x y); [done|by left|by right|done].
  - apply IH. intros y z Hy Hz. apply Hinj; by right.
Qed.

(** No two operations of the run work on one path. *)
Lemma chains_NoDup : List.NoDup (map op_path (pending chains)).
Proof.
  rewrite chains_paths. apply NoDup_map_on; [|apply names_pending_NoDup].
  pose proof names_pending_plain as Hp. rewrite Forall_forall in Hp.
  intros x y Hx%list_elem_of_In Hy%list_elem_of_In. apply under_inj; auto.
Qed.

(** None works on the target directory itself. *)
Lemma chains_not_dir o : In o (pending chains) -> op_path o <> d.
Proof.
  intros Ho%(in_map op_path). rewrite chains_paths in Ho.
  apply in_map_iff in Ho as (names & <- & Hin).
  pose proof names_pending_plain as Hp. rewrite Forall_forall in Hp.
  pose proof names_pending_nonempty as Hn. rewrite Forall_forall in Hn.
  apply list_elem_of_In in Hin.
  specialize (Hp _ Hin). specialize (Hn _ Hin).
  destruct names as [|a names]; [done|]. by apply under_not_dir.
Qed.

(** The paths under the target directory are spelled as the tree names
    their nodes, and none ends with a separator. *)
Lemma under_located a names :
  Forall (fun x => plain x = true) (a :: names) ->
  FS.locate (under (a :: names)) = under (a :: names)
  /\ Path.trailingSeparator (under (a :: names)) = false.
Proof.
  intros Hn. unfold under. cbn [app].
  assert (canon (negb absolute) (a :: names ++ base)) as Hc
    by (apply (forall_plain_canon _ (a :: names)); [done|apply stack_canon]).
  split; [by apply TreeFacts.locate_text|by apply TreeFacts.trailing_text].
Qed.

Lemma child_located a :
  plain a = true -> FS.locate (Path.join [d; a]) = Path.join [d; a].
Proof.
  intros Ha. rewrite dir_child by done. apply under_located.
  by repeat constructor.
Qed.

Lemma chains_under o :
  In o (pending chains) ->
  exists a names,
    Forall (fun x => plain x = true) (a :: names)
    /\ op_path o = under (a :: names).
Proof.
  intros Ho%(in_map op_path). rewrite chains_paths in Ho.
  apply in_map_iff in Ho as (names & <- & Hin).
  pose proof names_pending_plain as Hp. rewrite Forall_forall in Hp.
  pose proof names_pending_nonempty as Hn. rewrite Forall_forall in Hn.
  apply list_elem_of_In in Hin.
  specialize (Hp _ Hin). specialize (Hn _ Hin).
  destruct names as [|a names]; [done|]. by exists a, names.
Qed.

Lemma chains_located o :
  In o (pending chains) -> FS.locate (op_path o) = op_path o.
Proof.
  intros (a & names & Hn & ->)%chains_under. by apply under_located.
Qed.

Lemma chains_untrailed o :
  In o (pending chains) -> Path.trailingSeparator (op_path o) = false.
Proof.
  intros (a & names & Hn & ->)%chains_under. by apply under_located.
Qed.

(** *** Order *)

Lemma targets_under names b below x :
  Forall (fun a => plain a = true) names ->
  Forall (fun a => plain a = true) (b :: below) ->
  plain x = true ->
  under names = Path.join [under (b :: below); x] ->
  names = x :: b :: below.
Proof.
  intros Hn Hb Hx E. rewrite under_child in E by done.
  apply under_inj in E; [done|done|by constructor].
Qed.

(** A write straight under the target directory waits for nothing but
    the target directory. *)
Lemma allowed_child seen a data :
  plain a = true -> In (Completed (Mkdir d)) seen ->
  Inv.allowed dirs seen (Issued (WriteFile (under [a]) data)).
Proof.
  intros Ha Hd dd Hdd (x & Hx & E). unfold dirs in Hdd. cbn [In] in Hdd.
  rewrite tests_under, src_under in Hdd.
  destruct Hdd as [<-|[<-|[<-|[]]]]; [done|..];
    apply targets_under in E; try discriminate E; by repeat constructor.
Qed.

(** A write under [tests] or [src] waits for that directory too. *)
Lemma allowed_grandchild seen a b data :
  plain a = true -> plain b = true ->
  In (Completed (Mkdir d)) seen ->
  In (Completed (Mkdir (under [b]))) seen ->
  Inv.allowed dirs seen (Issued (WriteFile (under [a; b]) data)).
Proof.
  intros Ha Hb Hd Hmade dd Hdd (x & Hx & E).
  unfold dirs in Hdd. cbn [In] in Hdd.
  rewrite tests_under, src_under in Hdd.
  destruct Hdd as [<-|[<-|[<-|[]]]]; [done|..];
    apply targets_under in E; try (by repeat constructor);
    injection E as _ <-; exact Hmade.
Qed.

Lemma chains_promised seen :
  In (Completed (Mkdir d)) seen ->
  Forall (Inv.promised dirs seen) chains.
Proof.
  intros Hd. unfold chains, initRootFiles, initIndex, initTests, initSrc.
  rewrite tests_under, src_under, !dir_child, !under_child
    by (by repeat constructor).
  assert (forall b, In (Completed (Mkdir d)) (seen ++ [Completed (Mkdir b)]))
    as Hd' by (intros b; apply in_app_iff; by left).
  assert (forall b, In (Completed (Mkdir b)) (seen ++ [Completed (Mkdir b)]))
    as Hb by (intros b; apply in_app_iff; right; by left).
  destruct (prettier_format env (headerdoc name manifest +:+ indexFile) _),
    (prettier_format env (testFile env name) _),
    (prettier_format env indexFile _),
    (prettier_format env (readme name) _);
    repeat (apply Forall_cons; split); try apply Forall_nil; try done;
    (split; [|done]); apply allowed_grandchild; auto.
Qed.

Lemma chains_heads_allowed seen :
  In (Completed (Mkdir d)) seen ->
  Forall (fun t => Forall (Inv.allowed dirs seen) (Loop.onward t)) chains.
Proof.
  intros Hd. unfold chains, initRootFiles, initIndex, pkgPath.
  rewrite !dir_child by done.
  destruct (prettier_format env (headerdoc name manifest +:+ indexFile) _),
    (prettier_format env (readme name) _);
    repeat (apply Forall_cons; split); try apply Forall_nil; try done;
    by apply allowed_child.
Qed.

Lemma sequenced_allowed tr : forall seen,
  Forall (Inv.allowed dirs seen) tr -> Inv.sequenced dirs seen tr.
Proof.
  induction tr as [|e tr IH]; [done|].
  intros seen [He Htr]%Forall_cons. split; [done|]. apply IH.
  eapply Forall_impl; [exact Htr|]. intros x. apply LoopFacts.allowed_mono.
  intros y. rewrite in_app_iff. auto.
Qed.

Lemma heads_allowed seen ts :
  Forall (fun t => Forall (Inv.allowed dirs seen) (Loop.onward t)) ts ->
  Forall (Inv.allowed dirs seen) (heads ts).
Proof.
  induction 1 as [|t ts Ht _ IH]; [constructor|].
  unfold heads. cbn [flat_map]. apply Forall_app. by split.
Qed.

(** *** The state when the [await] begins *)

Lemma issue_heads :
  first_failure
    (heads (fst (issue (elements env name folder LICENSE prettierConfig
                          manifest)))) = None.
Proof.
  unfold elements, initIndex, initRootFiles.
  destruct (prettier_format env (headerdoc name manifest +:+ indexFile) _);
    [|reflexivity].
  destruct (prettier_format env (readme name) _); reflexivity.
Qed.

Lemma heads_not_completed ts o : ~ In (Completed o) (heads ts).
Proof.
  unfold heads. intros (t & _ & Hin)%in_flat_map.
  exact (LoopFacts.in_onward_completed _ _ Hin).
Qed.

Lemma start_trace fs :
  exists n thrown,
    inflight (start fs) = take n chains
    /\ files (start fs) = fs
    /\ trace (start fs) = made ++ heads (take n chains) ++ thrown
    /\ (forall x, In x thrown -> exists e, x = Raised e)
    /\ Forall (Inv.allowed dirs made) thrown.
Proof.
  unfold start. destruct issue_elements as (n & E & _).
  destruct (issue _) as [ts [e|]]; cbn [fst] in E; subst ts.
  - exists n, [Raised e]. do 3 (split; [reflexivity|]). split.
    + intros x [<-|[]]. by exists e.
    + by repeat constructor.
  - exists n, []. rewrite app_nil_r. do 3 (split; [reflexivity|]). split.
    + by intros x [].
    + constructor.
Qed.

Lemma pending_take n o : In o (pending (take n chains)) -> In o (pending chains).
Proof.
  intros H. rewrite <- (take_drop n chains), LoopFacts.pending_app.
  apply in_app_iff. by left.
Qed.

Lemma in_start_completed fs o :
  In (Completed o) (trace (start fs)) -> o = Mkdir d.
Proof.
  destruct (start_trace fs) as (n & thrown & _ & _ & -> & Hth & _).
  rewrite !in_app_iff. intros [[[=]|[[= <-]|[]]]|[H|H]]; [done|..].
  - destruct (heads_not_completed _ _ H).
  - by destruct (Hth _ H) as [? [=]].
Qed.

Lemma start_kept fs : Inv.kept (start fs).
Proof.
  destruct (start_trace fs) as (n & thrown & Ei & Ef & Et & _).
  unfold Inv.kept. rewrite Ei. split; [|split; [|split]].
  - pose proof chains_NoDup as H.
    rewrite <- (take_drop n chains), LoopFacts.pending_app, map_app in H.
    by apply NoDup_app_remove_r in H.
  - intros o o' Ho%pending_take ->%in_start_completed.
    by apply chains_not_dir.
  - by intros p data [=]%in_start_completed.
  - intros o Ho%pending_take. by apply chains_located.
Qed.

Lemma start_reported fs :
  Inv.reported (onSuccess env name folder manifest) (onFailure name)
    shown (start fs).
Proof.
  unfold Inv.reported, start. pose proof issue_heads as Hh.
  destruct (issue _) as [ts [e|]]; cbn [fst] in Hh; cbn [trace standing console].
  - rewrite !LoopFacts.first_failure_app, Hh. by cbn.
  - rewrite !LoopFacts.first_failure_app, Hh. cbn. by left.
Qed.

Lemma start_ordered fs : Inv.ordered dirs (start fs).
Proof.
  destruct (start_trace fs) as (n & thrown & Ei & Ef & Et & _ & Hth).
  assert (In (Completed (Mkdir d)) made) as Hd by (right; by left).
  unfold Inv.ordered. rewrite Ei, Et. split.
  - apply (LoopFacts.sequenced_app dirs made). split; [by repeat split|].
    cbn [app]. apply sequenced_allowed, Forall_app. split.
    + apply heads_allowed, Forall_take, chains_heads_allowed. exact Hd.
    + exact Hth.
  - apply Forall_take. apply chains_promised.
    apply in_app_iff. by left.
Qed.

(** *** Provenance *)

Lemma heads_pending ts o : In (Issued o) (heads ts) -> In o (pending ts).
Proof.
  unfold heads, pending. rewrite !in_flat_map. intros (t & Ht & Hin).
  exists t. split; [done|].
  destruct t as [|e|o' k]; cbn [Loop.onward In] in Hin;
    [done|by destruct Hin as [[=]|[]]|].
  destruct Hin as [[= <-]|[]]. by left.
Qed.

Lemma start_sourced fs :
  Inv.sourced (Mkdir d :: pending chains) (start fs).
Proof.
  destruct (start_trace fs) as (n & thrown & Ei & _ & Et & Hth & _).
  unfold Inv.sourced. rewrite Ei, Et. split.
  - intros o. rewrite !in_app_iff.
    intros [[[= <-]|[[=]|[]]]|[H|H]]; [by left|..].
    + right. by apply pending_take with n, heads_pending.
    + by destruct (Hth _ H) as [? [=]].
  - intros o H. right. by apply pending_take with n.
Qed.

(** Each write of the run is one of the nine files, with data from
    the source the table gives. *)
Lemma chains_writes p data :
  In (WriteFile p data) (pending chains) ->
  exists from,
    In (p, from) (origins env name folder LICENSE manifest)
    /\ produced env prettierConfig from data.
Proof.
  unfold chains, initRootFiles, initIndex, initTests, initSrc, origins.
  destruct (prettier_format env (headerdoc name manifest +:+ indexFile) _)
    eqn:E1,
    (prettier_format env (testFile env name) _) eqn:E2,
    (prettier_format env indexFile _) eqn:E3,
    (prettier_format env (readme name) _) eqn:E4;
    cbn [pending flat_map ops app then_ bind In];
    intros H;
    repeat (destruct H as [H|H]);
    try (exfalso; exact H); try discriminate H;
    injection H as <- <-;
    eexists;
    (split;
     [repeat (first [left; reflexivity|right])
     |first [reflexivity|eassumption]]).
Qed.

End PlanFacts.
End PlanFacts.

(** ** The ways a run can go *)

Lemma create_created env name folder fs mkdirFault schedule :
  created env name folder fs mkdirFault schedule
    (create env name folder fs mkdirFault schedule).
Proof.
  unfold create.
  destruct (validForNewPackages (nameValidation env name)) eqn:V;
    [|by apply created_invalid].
  destruct (gather env name folder) as [[[LICENSE prettierConfig] manifest]|e]
    eqn:G; [|by apply created_unread].
  destruct (FS.exec mkdirFault (Mkdir (dir env name folder)) fs) as [fs'|e] eqn:X;
    [|by eapply created_unmade].
  pose proof (created_run env name folder fs mkdirFault schedule
                LICENSE prettierConfig manifest fs' V G X) as H.
  unfold Plan.start in H.
  by destruct (issue (elements env name folder LICENSE prettierConfig manifest))
    as [ts [e|]].
Qed.

(** The run once [mkdirSync] has made the target directory: nothing
    was at its path, and the directory it goes into was there. *)
Lemma create_made env name folder fs schedule LICENSE prettierConfig manifest :
  validForNewPackages (nameValidation env name) = true ->
  gather env name folder = Ok (LICENSE, prettierConfig, manifest) ->
  FS.stat fs (dir env name folder) = None ->
  FS.stat fs (FS.parent (dir env name folder)) = Some Dir ->
  create env name folder fs None schedule
  = Loop.run (onSuccess env name folder manifest) (onFailure name) schedule
      (Plan.start env name folder LICENSE prettierConfig manifest
         (<[FS.locate (dir env name folder) := Dir]> fs)).
Proof.
  intros V G Hd Hp. unfold create. rewrite V, G.
  rewrite (LoopFacts.exec_vacant (Mkdir (dir env name folder)) fs Hd Hp I).
  unfold Plan.start.
  by destruct (issue (elements env name folder LICENSE prettierConfig manifest))
    as [ts [e|]].
Qed.

(** ** An existing target directory (C2) *)

Lemma exec_mkdir_exists fault p fs n :
  p <> "" ->
  FS.stat fs p = Some n ->
  FS.exec fault (Mkdir p) fs
  = Err (match fault with Some e => e | None => SystemError "EEXIST" p end).
Proof.
  intros Hp H. unfold FS.exec. destruct fault; [done|].
  apply String.eqb_neq in Hp. by rewrite Hp, H.
Qed.

(** C2: when the path of the target directory leads to a node, however
    the path is spelled (an override may end with a separator, which
    [join] keeps), the run fails with the tree exactly as it was: no
    write is issued, no operation completes, and the operator is told,
    by the rejection of the run for a name turned down and by the
    logged error and the failure message otherwise; the error is the
    refusal of [mkdirSync] when everything before it went well. *)
Theorem existing_directory_untouched
    (env : Env) (name : string) (folder : option string)
    (fs : gmap string node) (mkdirFault : option error)
    (schedule : list (nat * option error)) (n : node) :
  FS.stat fs (dir env name folder) = Some n ->
  let s := create env name folder fs mkdirFault schedule in
  files s = fs
  /\ inflight s = []
  /\ (forall p data, ~ In (Issued (WriteFile p data)) (trace s))
  /\ (forall o, ~ In (Completed o) (trace s))
  /\ (standing s = Unhandled (invalidName env name)
      \/ standing s = Returned
         /\ exists e, In (Logged e) (console s)
                      /\ In (NotCreated name) (console s)
                      /\ ~ In (Success name (folderName name folder)) (console s))
  /\ (validForNewPackages (nameValidation env name) = true ->
      (exists gathered, gather env name folder = Ok gathered) ->
      mkdirFault = None ->
      In (Logged (SystemError "EEXIST" (dir env name folder))) (console s)).
Proof.
  intros Hdir s. subst s.
  destruct (create_created env name folder fs mkdirFault schedule)
    as [V|e V G|LICENSE prettierConfig manifest e V G X
        |LICENSE prettierConfig manifest fs' V G X];
    cbn [files inflight trace standing console].
  - repeat split; try done.
    + intros p data [[=]|[]].
    + intros o [[=]|[]].
    + by left.
    + rewrite V. discriminate.
  - repeat split; try done.
    + intros p data [[=]|[]].
    + intros o [[=]|[]].
    + right. split; [done|]. exists e. unfold onFailure. cbn.
      split; [by left|]. split; [by right; right; left|].
      intuition discriminate.
    + intros _ [g Hg]. rewrite G in Hg. discriminate.
  - rewrite (exec_mkdir_exists _ _ _ _ (PathFacts.join_nonempty _) Hdir) in X.
    injection X as <-.
    repeat split; try done.
    + intros p data [[=]|[[=]|[]]].
    + intros o [[=]|[[=]|[]]].
    + right. split; [done|].
      exists (match mkdirFault with
              | Some e => e
              | None => SystemError "EEXIST" (dir env name folder)
              end).
      unfold onFailure, Plan.shown. cbn.
      split; [by right; right; left|]. split; [by do 4 right; left|].
      intuition discriminate.
    + intros _ _ ->. unfold onFailure, Plan.shown. cbn.
      by right; right; left.
  - rewrite (exec_mkdir_exists _ _ _ _ (PathFacts.join_nonempty _) Hdir) in X.
    discriminate.
Qed.

Lemma existing_directory_untouched_witness :
  let fs := <["/repo/packages/gadgets" := Dir]> Sample.disk in
  let s := create Sample.env "widgets" (Some "gadgets/") fs None
             Sample.in_order in
  files s = fs
  /\ In (Logged (SystemError "EEXIST" "/repo/packages/gadgets/")) (console s).
Proof.
  intros fs s.
  destruct (existing_directory_untouched Sample.env "widgets" (Some "gadgets/")
              fs None Sample.in_order Dir eq_refl)
    as (Hf & _ & _ & _ & _ & He).
  split; [exact Hf|]. apply He; [reflexivity|by eexists|reflexivity].
Defined.

(** ** A write that fails (C3) *)

Lemma first_failure_none tr :
  first_failure tr = None -> forall o e, ~ In (Failed o e) tr.
Proof.
  induction tr as [|x tr IH]; [by intros _ o e []|].
  intros H o e [->|Hin]; [discriminate H|].
  destruct x; try discriminate H; by apply (IH H o e).
Qed.

(** Nothing the loop does takes a path away. *)
Lemma run_present onSuccess onFailure schedule : forall s p,
  is_Some (files s !! p) ->
  is_Some (files (Loop.run onSuccess onFailure schedule s) !! p).
Proof.
  induction schedule as [|c schedule IH]; [done|].
  intros s p Hp. rewrite LoopFacts.run_cons. apply IH.
  destruct (LoopFacts.step_stepped onSuccess onFailure s c)
    as [Hidle|o k fs' Hl Hx|o k e Hl Hx]; [done|..].
  - destruct (LoopFacts.settle_same onSuccess onFailure k
                (State fs' (<[fst c := k]> (inflight s)) (standing s) (console s)
                   (trace s ++ Completed o :: Loop.onward k))) as (-> & _).
    cbn [files]. apply LoopFacts.exec_ok in Hx as [_ ->].
    rewrite lookup_insert. by case_decide.
  - by destruct (LoopFacts.reject_same onFailure e
                   (State (files s) (<[fst c := Reject e]> (inflight s))
                      (standing s) (console s) (trace s ++ [Failed o e])))
      as (-> & _).
Qed.

(** C3: whenever a write fails, the script has entered its [catch]
    block with the error of the first failure of the run, has logged
    that error and told the operator the package was not created; every
    file a write has put is there with the data written, and no path
    that was in the tree has left it. *)
Theorem failed_write_reported_files_kept
    (env : Env) (name : string) (folder : option string)
    (fs : gmap string node) (mkdirFault : option error)
    (schedule : list (nat * option error))
    (path data : string) (e : error) :
  let s := create env name folder fs mkdirFault schedule in
  In (Failed (WriteFile path data) e) (trace s) ->
  (exists first,
      first_failure (trace s) = Some first
      /\ standing s = Returned
      /\ console s = [AboutToWrite (pkgPath env name folder); Blank;
                      Logged first; Blank; NotCreated name])
  /\ (forall p written, In (Completed (WriteFile p written)) (trace s) ->
                        files s !! p = Some (File written))
  /\ (forall p, is_Some (fs !! p) -> is_Some (files s !! p)).
Proof.
  intros s Hfail. subst s.
  destruct (create_created env name folder fs mkdirFault schedule)
    as [V|e' V G|LICENSE prettierConfig manifest e' V G X
        |LICENSE prettierConfig manifest fs' V G X];
    cbn [trace] in Hfail.
  - by destruct Hfail as [[=]|[]].
  - by destruct Hfail as [[=]|[]].
  - by destruct Hfail as [[=]|[[=]|[]]].
  - set (start := Plan.start env name folder LICENSE prettierConfig
                    manifest fs') in *.
    pose proof (LoopFacts.run_reported _ _ _ schedule start
                  (PlanFacts.start_reported env name folder LICENSE
                     prettierConfig manifest fs')) as Hrep.
    pose proof (LoopFacts.run_kept (onSuccess env name folder manifest)
                  (onFailure name) schedule start
                  (PlanFacts.start_kept env name folder LICENSE
                     prettierConfig manifest fs')) as (_ & _ & Hkept & _).
    unfold Inv.reported in Hrep. split; [|split; [exact Hkept|]].
    + destruct (first_failure _) as [first|] eqn:F.
      * exists first. destruct Hrep as [Hs Hc]. by rewrite Hs, Hc.
      * destruct (first_failure_none _ F _ _ Hfail).
    + intros p Hp. apply run_present.
      destruct (PlanFacts.start_trace env name folder LICENSE prettierConfig
                  manifest fs') as (_ & _ & _ & Ef & _).
      fold start in Ef. rewrite Ef.
      apply LoopFacts.exec_ok in X as [_ ->].
      rewrite lookup_insert. by case_decide.
Qed.

Lemma failed_write_reported_files_kept_witness :
  let full := SystemError "ENOSPC" "/repo/packages/widgets/LICENSE" in
  let s := create Sample.env "widgets" None Sample.disk None
             [(0, None); (1, Some full); (5, None)]%nat in
  first_failure (trace s) = Some full
  /\ console s = [AboutToWrite "/repo/packages/widgets/package.json"; Blank;
                  Logged full; Blank; NotCreated "widgets"]
  /\ files s !! "/repo/packages/widgets/.npmignore" = Some (File npmignore).
Proof.
  intros full s.
  destruct (failed_write_reported_files_kept Sample.env "widgets" None
              Sample.disk None [(0, None); (1, Some full); (5, None)]%nat
              "/repo/packages/widgets/LICENSE" "MIT License" full)
    as ((first & Hf & _ & Hc) & Hkept & _).
  - vm_compute. do 12 right. left. reflexivity.
  - vm_compute in Hf. injection Hf as <-.
    split; [reflexivity|]. split; [exact Hc|].
    apply Hkept. vm_compute. do 11 right. left. reflexivity.
Defined.

(** ** Directories before the writes into them (C9) *)

(** C9: in every run, under every order of completion and every fault,
    when a write is issued whose path is a name joined to one of the
    directories the script makes, the creation of that directory has
    completed before.  So the test stub is issued after [tests] is
    made, and the source stub after [src] is. *)
Theorem writes_wait_for_their_directory
    (env : Env) (name : string) (folder : option string)
    (fs : gmap string node) (mkdirFault : option error)
    (schedule : list (nat * option error))
    (before after : list event) (path data : string) :
  trace (create env name folder fs mkdirFault schedule)
  = before ++ Issued (WriteFile path data) :: after ->
  (forall made, In made (Plan.dirs env name folder) ->
                Inv.targets path made ->
                In (Completed (Mkdir made)) before)
  /\ (path = Path.join [tests env name folder; "index.test.ts"] ->
      In (Completed (Mkdir (tests env name folder))) before)
  /\ (path = Path.join [src env name folder; "index.ts"] ->
      In (Completed (Mkdir (src env name folder))) before).
Proof.
  intros Htrace.
  assert (forall made, In made (Plan.dirs env name folder) ->
                       Inv.targets path made ->
                       In (Completed (Mkdir made)) before) as Hall.
  { destruct (create_created env name folder fs mkdirFault schedule)
      as [V|e' V G|LICENSE prettierConfig manifest e' V G X
          |LICENSE prettierConfig manifest fs' V G X];
      cbn [trace] in Htrace.
    - by destruct before as [|? [|]].
    - by destruct before as [|? [|]].
    - by destruct before as [|? [|? [|]]].
    - pose proof (LoopFacts.run_ordered (onSuccess env name folder manifest)
                    (onFailure name) (Plan.dirs env name folder) schedule _
                    (PlanFacts.start_ordered env name folder LICENSE
                       prettierConfig manifest fs')) as [Hseq _].
      exact (LoopFacts.sequenced_at _ _ _ _ _ Hseq Htrace). }
  split; [exact Hall|]. split; intros ->.
  - apply Hall; [right; by left|]. by exists "index.test.ts".
  - apply Hall; [right; right; by left|]. by exists "index.ts".
Qed.

Lemma writes_wait_for_their_directory_witness :
  let s := create Sample.env "widgets" None Sample.disk None Sample.in_order in
  In (Completed (Mkdir "/repo/packages/widgets/tests")) (take 15 (trace s)).
Proof.
  intros s.
  destruct (writes_wait_for_their_directory Sample.env "widgets" None
              Sample.disk None Sample.in_order
              (take 15 (trace s)) (drop 16 (trace s))
              "/repo/packages/widgets/tests/index.test.ts"
              (testFile Sample.env "widgets" +:+ Str.nl))
    as (_ & Ht & _).
  - by vm_compute.
  - apply Ht. by vm_compute.
Defined.

(** ** Formatted and verbatim files (C7) *)

(** C7, as stated, fails: the licence is written as it was read.  With
    a formatter that sees to the final line feed, the data written for
    it is the output of the formatter for no text and no options. *)
Lemma license_written_unformatted :
  let s := create Sample.env "widgets" None Sample.disk None Sample.in_order in
  In (Issued (WriteFile "/repo/packages/widgets/LICENSE" "MIT License"))
     (trace s)
  /\ readFile Sample.env "/repo/LICENSE" = Ok "MIT License"
  /\ forall text opts, prettier_format Sample.env text opts <> Ok "MIT License".
Proof.
  split; [|split; [reflexivity|]].
  - vm_compute. do 3 right. left. reflexivity.
  - intros text opts E. cbn in E. unfold Sample.final_newline in E.
    destruct (Str.last text) as [c|] eqn:L.
    + destruct (Ascii.eqb c (ascii_of_nat 10)) eqn:C.
      * injection E as ->. injection L as <-. discriminate C.
      * injection E as E. apply (f_equal Str.last) in E.
        change Str.nl with (String (ascii_of_nat 10) "") in E.
        rewrite StrFacts.last_app in E. discriminate E.
    + injection E as ->. discriminate L.
Qed.

(** C7, amended: every write the script issues is one of the nine files
    of the package.  The entry stub, the source stub and the test stub
    carry the output of the formatter under the parser [typescript], the
    readme its output under the parser [markdown]; the ignore file and
    the licence are written verbatim, as are the three serialized
    documents. *)
Theorem written_formatted_or_verbatim
    (env : Env) (name : string) (folder : option string)
    (fs : gmap string node) (mkdirFault : option error)
    (schedule : list (nat * option error)) (path data : string) :
  In (Issued (WriteFile path data))
     (trace (create env name folder fs mkdirFault schedule)) ->
  exists LICENSE prettierConfig manifest from,
    gather env name folder = Ok (LICENSE, prettierConfig, manifest)
    /\ In (path, from) (origins env name folder LICENSE manifest)
    /\ produced env prettierConfig from data.
Proof.
  intros Hin.
  destruct (create_created env name folder fs mkdirFault schedule)
    as [V|e' V G|LICENSE prettierConfig manifest e' V G X
        |LICENSE prettierConfig manifest fs' V G X];
    cbn [trace] in Hin.
  - by destruct Hin as [[=]|[]].
  - by destruct Hin as [[=]|[]].
  - by destruct Hin as [[=]|[[=]|[]]].
  - pose proof (LoopFacts.run_sourced (onSuccess env name folder manifest)
                  (onFailure name) _ schedule _
                  (PlanFacts.start_sourced env name folder LICENSE
                     prettierConfig manifest fs')) as [Htr _].
    destruct (Htr _ Hin) as [[=]|Hp].
    destruct (PlanFacts.chains_writes env name folder LICENSE prettierConfig
                manifest _ _ Hp) as (from & Hfrom & Hdata).
    by exists LICENSE, prettierConfig, manifest, from.
Qed.

Lemma written_formatted_or_verbatim_witness :
  exists LICENSE prettierConfig manifest from,
    gather Sample.env "widgets" None = Ok (LICENSE, prettierConfig, manifest)
    /\ In ("/repo/packages/widgets/README.md", from)
         (origins Sample.env "widgets" None LICENSE manifest)
    /\ produced Sample.env prettierConfig from (readme "widgets" +:+ Str.nl).
Proof.
  apply (written_formatted_or_verbatim Sample.env "widgets" None
           Sample.disk None Sample.in_order).
  vm_compute. do 8 right. left. reflexivity.
Defined.

(** ** Two runs that differ in the override (C10) *)

(** Two manifests built from the same reads under two overrides, and the
    promises made with them. *)
Lemma plans_pair_off
    (env : Env) (name : string) (folder1 folder2 : option string)
    (packageAuthor rootPackageJson : value)
    (LICENSE : string) (prettierConfig manifest1 manifest2 : value) :
  pkg name folder1 packageAuthor rootPackageJson = Ok manifest1 ->
  pkg name folder2 packageAuthor rootPackageJson = Ok manifest2 ->
  let run1 := issue (elements env name folder1 LICENSE prettierConfig manifest1) in
  let run2 := issue (elements env name folder2 LICENSE prettierConfig manifest2) in
  snd run1 = snd run2
  /\ Forall2
       (fun o1 o2 =>
          (exists names,
              op_path o1 = Plan.under env name folder1 names
              /\ op_path o2 = Plan.under env name folder2 names)
          /\ (op_data o1 = op_data o2
              \/ o1 = WriteFile (pkgPath env name folder1) (pkgStr manifest1)
                 /\ o2 = WriteFile (pkgPath env name folder2) (pkgStr manifest2)))
       (pending (fst run1)) (pending (fst run2))
  /\ exists theirs,
       manifest2 = VObj theirs
       /\ manifest1 = relocated (folderName name folder1) theirs.
Proof.
  intros H1 H2 run1 run2. subst run1 run2.
  assert (headerdoc name manifest1 = headerdoc name manifest2) as Hh.
  { pose proof H1 as H1'. pose proof H2 as H2'. pkg_inv H1'. pkg_inv H2'.
    same_reads. reflexivity. }
  split; [|split].
  - unfold elements, initIndex. rewrite Hh.
    destruct (prettier_format env _ _); [|reflexivity].
    destruct (prettier_format env (readme name) _); reflexivity.
  - unfold elements, initIndex, initRootFiles, initTests, initSrc, pkgPath.
    rewrite Hh.
    rewrite !PlanFacts.tests_under, !PlanFacts.src_under,
      !PlanFacts.dir_child, !PlanFacts.under_child by (by repeat constructor).
    destruct (prettier_format env _ (options prettierConfig "typescript"));
      [|cbn [bind issue fst app pending flat_map ops op_path op_data];
        pair_off].
    destruct (prettier_format env (readme name) _);
      unfold then_;
      destruct (prettier_format env (testFile env name) _),
        (prettier_format env indexFile _);
      cbn [bind issue fst app pending flat_map ops op_path op_data];
      pair_off.
  - pkg_inv H1. pkg_inv H2. same_reads. eexists. split; reflexivity.
Qed.

(** The reads of the two runs fail alike. *)
Lemma gather_fails_alike env name folder1 folder2 e :
  gather env name folder1 = Err e <-> gather env name folder2 = Err e.
Proof.
  unfold gather.
  destruct (readFile env _); [|done].
  destruct (prettier_resolveConfig env _); [|done].
  destruct (userName env) as [author|]; [|done].
  destruct (rootPackageJson env) as [root|]; [|done].
  cbn [bind]. unfold pkg.
  destruct (if JS.truthy author then Ok author else JS.get root "author");
    [|done].
  destruct (JS.get root "devDependencies") as [deps|]; [|done].
  cbn [bind].
  destruct (JS.get deps "@types/mocha"); [|done].
  destruct (JS.get deps "cross-env"); [|done].
  destruct (JS.get deps "mocha"); [|done].
  destruct (JS.get deps "nyc"); [|done].
  destruct (JS.get deps "ts-node"); [|done].
  destruct (JS.get deps "typescript"); [|done].
  done.
Qed.

(** C10: two runs on the same name and surroundings that differ in the
    override alone read the same licence and the same formatter
    configuration, create their promises alike and throw alike; their
    operations pair off, each pair working on the same names under its
    own target directory and writing the same data, but for the
    manifest; and either manifest is the other with [homepage] and
    [repository.directory] replaced. *)
Theorem override_changes_only_location
    (env : Env) (name : string) (folder1 folder2 : option string)
    (LICENSE1 LICENSE2 : string)
    (prettierConfig1 prettierConfig2 manifest1 manifest2 : value) :
  gather env name folder1 = Ok (LICENSE1, prettierConfig1, manifest1) ->
  gather env name folder2 = Ok (LICENSE2, prettierConfig2, manifest2) ->
  let run1 :=
    issue (elements env name folder1 LICENSE1 prettierConfig1 manifest1) in
  let run2 :=
    issue (elements env name folder2 LICENSE2 prettierConfig2 manifest2) in
  LICENSE1 = LICENSE2
  /\ prettierConfig1 = prettierConfig2
  /\ snd run1 = snd run2
  /\ Forall2
       (fun o1 o2 =>
          (exists names,
              op_path o1 = Plan.under env name folder1 names
              /\ op_path o2 = Plan.under env name folder2 names)
          /\ (op_data o1 = op_data o2
              \/ o1 = WriteFile (pkgPath env name folder1) (pkgStr manifest1)
                 /\ o2 = WriteFile (pkgPath env name folder2) (pkgStr manifest2)))
       (pending (fst run1)) (pending (fst run2))
  /\ exists theirs,
       manifest2 = VObj theirs
       /\ manifest1 = relocated (folderName name folder1) theirs.
Proof.
  intros G1 G2. unfold gather in G1, G2. bind_inv G1. bind_inv G2.
  injection G1 as <- <- <-. injection G2 as <- <- <-. same_reads.
  split; [reflexivity|]. split; [reflexivity|].
  by eapply plans_pair_off.
Qed.

Lemma override_changes_only_location_witness :
  exists ours theirs,
    pkg "widgets" None VNull Sample.root = Ok ours
    /\ pkg "widgets" (Some "widgets-pkg") VNull Sample.root = Ok (VObj theirs)
    /\ ours = relocated "widgets" theirs.
Proof.
  destruct (override_changes_only_location Sample.env "widgets" None
              (Some "widgets-pkg") _ _ _ _ _ _ eq_refl eq_refl)
    as (_ & _ & _ & _ & theirs & E & H).
  eexists _, theirs. split; [reflexivity|]. split; [by rewrite <- E|exact H].
Defined.

(** ** The report for a name turned down (C4) *)

Lemma to_string_strings l : JS.to_string (VArr (map VStr l)) = Str.join "," l.
Proof.
  cbn [JS.to_string]. f_equal. rewrite map_map. apply map_id.
Qed.

(** What the script does with the answer of the checker: a name turned
    down ends the run with an error whose message closes on the
    [errors] of the answer, joined by commas, before anything is read,
    printed or written. *)
Lemma invalid_name_report env name folder fs mkdirFault schedule :
  validForNewPackages (npmValiddate env name) = false ->
  let s := create env name folder fs mkdirFault schedule in
  standing s
  = Unhandled
      (Error ("the name " +:+ Str.dq +:+ name +:+ Str.dq
              +:+ " is not a valid npm package name:" +:+ Str.nl
              +:+ match errors (npmValiddate env name) with
                  | Some l => Str.join "," l
                  | None => "undefined"
                  end))
  /\ console s = [] /\ files s = fs /\ inflight s = [].
Proof.
  intros V s. subst s. unfold create, nameValidation. rewrite V.
  cbn [standing console files inflight]. repeat split.
  unfold invalidName, nameValidation.
  destruct (errors (npmValiddate env name)); [|reflexivity].
  by rewrite to_string_strings.
Qed.

(** C4 fails on the code: for a name whose only violation is its capital
    letter, the checker answers with a warning and no [errors], and the
    message of the error the script throws lists [undefined] in place
    of the violation. *)
Theorem capital_letters_reported_as_undefined :
  let s := create Sample.env "Widgets" None Sample.disk None [] in
  Registry.warnings "Widgets" = ["name can no longer contain capital letters"]
  /\ validForNewPackages (npmValiddate Sample.env "Widgets") = false
  /\ errors (npmValiddate Sample.env "Widgets") = None
  /\ standing s
     = Unhandled
         (Error ("the name " +:+ Str.dq +:+ "Widgets" +:+ Str.dq
                 +:+ " is not a valid npm package name:" +:+ Str.nl
                 +:+ "undefined")).
Proof. by vm_compute. Qed.

(** The same for the name of the specification's scenario: two of its
    three violations are warnings and stay out of the report. *)
Lemma invalid_name_report_partial :
  let s := create Sample.env "Invalid Name!" None Sample.disk None [] in
  length (Registry.warnings "Invalid Name!") = 2%nat
  /\ standing s
     = Unhandled
         (Error ("the name " +:+ Str.dq +:+ "Invalid Name!" +:+ Str.dq
                 +:+ " is not a valid npm package name:" +:+ Str.nl
                 +:+ "name can only contain URL-friendly characters")).
Proof. by vm_compute. Qed.

(** ** The serialized documents (C6) *)

(** An object whose first property is defined, serialized with two
spaces: a line for the brace, a line for each member, indented, and a
line for the closing brace. *)
Lemma object_indented k v rest :
  Serial.defined v = true ->
  exists first more,
    JSON.members "  " "  " ((k, v) :: rest) = first :: more
    /\ JSON.stringify (VObj ((k, v) :: rest)) 2
       = "{" +:+ Str.nl +:+ "  "
           +:+ Str.join ("," +:+ Str.nl +:+ "  ") (first :: more)
           +:+ Str.nl +:+ "}".
Proof.
  intros Hv. destruct (JSONFacts.serialize_defined "  " "  " v Hv) as [str E].
  exists (JSON.member "  " k str), (JSON.members "  " "  " rest).
  assert (JSON.members "  " "  " ((k, v) :: rest)
          = JSON.member "  " k str :: JSON.members "  " "  " rest) as Em
    by (cbn [JSON.members]; by rewrite E).
  split; [exact Em|].
  unfold JSON.stringify.
  change (String.concat "" (replicate 2 " ")) with "  ".
  rewrite JSONFacts.serialize_object.
  change ("" +:+ "  ") with "  ". rewrite Em.
  unfold default. by rewrite JSONFacts.wrap_indented.
Qed.

(** The manifest and the build configuration are indented by two
spaces, one member to a line, in the order of the object. *)
Lemma manifest_indented name folder packageAuthor rootPackageJson manifest :
  pkg name folder packageAuthor rootPackageJson = Ok manifest ->
  exists kvs first rest,
    manifest = VObj kvs
    /\ JSON.members "  " "  " kvs = first :: rest
    /\ pkgStr manifest
       = ("{" +:+ Str.nl +:+ "  "
            +:+ Str.join ("," +:+ Str.nl +:+ "  ") (first :: rest)
            +:+ Str.nl +:+ "}") +:+ Str.nl.
Proof.
  intros H. pkg_inv H.
  edestruct (object_indented "name" (VStr (packageName name)))
    as (first & more & Em & Es); [reflexivity|].
  eexists _, first, more. split; [reflexivity|]. split; [exact Em|].
  unfold pkgStr. by rewrite Es.
Qed.

Lemma tsConfig_indented :
  exists first rest,
    JSON.members "  " "  " (JS.spread tsConfig) = first :: rest
    /\ JSON.stringify tsConfig 2 +:+ Str.nl
       = ("{" +:+ Str.nl +:+ "  "
            +:+ Str.join ("," +:+ Str.nl +:+ "  ") (first :: rest)
            +:+ Str.nl +:+ "}") +:+ Str.nl.
Proof.
  edestruct (object_indented "extends"
               (VStr (relativePathToSrc +:+ "tsconfig-base.json")))
    as (first & more & Em & Es); [reflexivity|].
  exists first, more. split; [exact Em|]. unfold tsConfig. by rewrite Es.
Qed.

(** The lockfile stub is written on one line, without a space. *)
Lemma shrinkwrap_compact name :
  JSON.stringify (shrinkwrap name) 0 +:+ Str.nl
  = "{" +:+ JSON.quote "name" +:+ ":" +:+ JSON.quote ("@ganache/" +:+ name)
      +:+ "," +:+ JSON.quote "version" +:+ ":" +:+ JSON.quote "0.1.0"
      +:+ "," +:+ JSON.quote "lockfileVersion" +:+ ":1}" +:+ Str.nl.
Proof.
  unfold JSON.stringify, shrinkwrap.
  change (String.concat "" (replicate 0 " ")) with "".
  rewrite JSONFacts.serialize_object. cbn [JSON.members JSON.serialize].
  rewrite JSONFacts.wrap_compact. unfold JSON.member, default, from_option, id.
  cbn [Str.join String.eqb].
  unfold packageName, version. change (Str.of_Z 1) with "1".
  rewrite !StrFacts.app_assoc. reflexivity.
Qed.

(** Each of the three documents ends with one line feed. *)
Lemma documents_end_with_newline name kvs :
  Serial.one_final_newline (pkgStr (VObj kvs))
  /\ Serial.one_final_newline (JSON.stringify tsConfig 2 +:+ Str.nl)
  /\ Serial.one_final_newline (JSON.stringify (shrinkwrap name) 0 +:+ Str.nl).
Proof. repeat split; apply JSONFacts.object_line. Qed.

(** C6 fails on the code: the lockfile stub is serialized without
    indentation, on a single line, unlike the manifest and the build
    configuration next to it. *)
Theorem lockfile_written_on_one_line :
  let s := create Sample.env "widgets" None Sample.disk None Sample.in_order in
  let written :=
    "{" +:+ JSON.quote "name" +:+ ":" +:+ JSON.quote "@ganache/widgets"
      +:+ "," +:+ JSON.quote "version" +:+ ":" +:+ JSON.quote "0.1.0"
      +:+ "," +:+ JSON.quote "lockfileVersion" +:+ ":1}" +:+ Str.nl in
  files s !! "/repo/packages/widgets/npm-shrinkwrap.json" = Some (File written)
  /\ written <> JSON.stringify (shrinkwrap "widgets") 2 +:+ Str.nl
  /\ Str.mem (ascii_of_nat 10) (JSON.stringify (shrinkwrap "widgets") 0) = false
  /\ Str.mem (ascii_of_nat 32) (JSON.stringify (shrinkwrap "widgets") 0) = false.
Proof. by vm_compute. Qed.

(** ** Failures and the top level (C8) *)

(** The [fail] handler prints and exits with status zero when it is
    given a message alone, and throws the exception it is given. *)
Lemma fail_exits_or_throws msg err fs :
  standing (fail msg err fs)
  = match err with Some e => Thrown e | None => Exited 0 end
  /\ console (fail msg err fs)
     = match err with Some _ => [] | None => [Help; Blank; Message msg] end.
Proof. by destruct err. Qed.

(** Once the name is accepted, whatever fails is caught: the run never
    ends on a rejection, and from the first failure on the error is
    logged and the operator told. *)
Lemma generation_failure_caught env name folder fs mkdirFault schedule :
  validForNewPackages (npmValiddate env name) = true ->
  let s := create env name folder fs mkdirFault schedule in
  (standing s = Awaiting \/ standing s = Returned)
  /\ forall e, first_failure (trace s) = Some e ->
               standing s = Returned
               /\ exists before, console s = before ++ [Logged e; Blank; NotCreated name].
Proof.
  intros V s. subst s. fold (nameValidation env name) in V.
  destruct (create_created env name folder fs mkdirFault schedule)
    as [V'|e' _ G|LICENSE prettierConfig manifest e' _ G X
        |LICENSE prettierConfig manifest fs' _ G X];
    cbn [standing trace console first_failure].
  - congruence.
  - split; [by right|]. intros e [= <-]. split; [done|]. by exists [].
  - split; [by right|]. intros e [= <-]. split; [done|]. by eexists.
  - pose proof (LoopFacts.run_reported _ _ _ schedule _
                  (PlanFacts.start_reported env name folder LICENSE
                     prettierConfig manifest fs')) as Hrep.
    unfold Inv.reported in Hrep.
    destruct (first_failure _) as [first|].
    + destruct Hrep as [Hs Hc]. split; [by right|].
      intros e [= <-]. split; [done|]. by eexists.
    + split; [|done]. destruct Hrep as [[? _]|[? _]]; auto.
Qed.

(** C8 fails on the code: the error for a name turned down is thrown
    before the [try] block, so the promise of the async function
    rejects with it; the script logs nothing and prints no failure
    message. *)
Theorem invalid_name_escapes_the_catch :
  let s := create Sample.env "Invalid Name!" None Sample.disk None [] in
  standing s = Unhandled (invalidName Sample.env "Invalid Name!")
  /\ console s = []
  /\ (forall e, ~ In (Logged e) (console s))
  /\ ~ In (NotCreated "Invalid Name!") (console s)
  /\ script Sample.env (Parsed "Invalid Name!" None) Sample.disk None [] = s.
Proof.
  split; [reflexivity|]. split; [reflexivity|].
  split; [intros e H; vm_compute in H; exact H|].
  split; [intros H; vm_compute in H; exact H|reflexivity].
Qed.

(** * More of the script *)

(** ** How a run stands against the state its [await] began in *)

Module OutcomeFacts.
Section OutcomeFacts.

Variable onSuccess : list line.
Variable onFailure : error -> list line.
Variable began : state.

Abbreviation step := (Loop.step onSuccess onFailure).
Abbreviation run := (Loop.run onSuccess onFailure).
Abbreviation conserved := (Outcome.conserved began).
Abbreviation framed := (Outcome.framed began).

Lemma map_insert_same {A B} (f : A -> B) (l : list A) i x y :
  l !! i = Some x -> f y = f x -> map f (<[i := y]> l) = map f l.
Proof.
  revert i. induction l as [|a l IH]; intros [|i] H E; try done.
  - cbn in H. injection H as ->. cbn. by rewrite E.
  - cbn. f_equal. by apply IH.
Qed.

Lemma first_failure_kept tr1 tr2 e :
  first_failure tr1 = Some e -> first_failure (tr1 ++ tr2) = Some e.
Proof. intros H. by rewrite LoopFacts.first_failure_app, H. Qed.

Lemma first_failure_none_app tr1 tr2 :
  first_failure (tr1 ++ tr2) = None ->
  first_failure tr1 = None /\ first_failure tr2 = None.
Proof.
  rewrite LoopFacts.first_failure_app.
  destruct (first_failure tr1); [discriminate|done].
Qed.

Lemma step_conserved s c : conserved s -> conserved (step s c).
Proof.
  intros Hc.
  destruct (LoopFacts.step_stepped onSuccess onFailure s c)
    as [Hidle|o k fs' Hl Hx|o k e Hl Hx]; [done|..].
  - destruct (LoopFacts.settle_same onSuccess onFailure k
                (State fs' (<[fst c := k]> (inflight s)) (standing s) (console s)
                   (trace s ++ Completed o :: Loop.onward k)))
      as (_ & Ei & Et).
    unfold Outcome.conserved. rewrite Ei, Et. cbn [inflight trace].
    intros [Hs Hk]%first_failure_none_app.
    destruct (Hc Hs) as (H0 & Hf & Ho). split; [exact H0|]. split.
    + rewrite <- Hf. by apply map_insert_same with (Do o k).
    + intros o' Hin. rewrite (LoopFacts.pending_insert _ _ _ k Hl).
      destruct (Ho o' Hin) as [Hp|Hd].
      * rewrite (LoopFacts.pending_lookup _ _ _ Hl) in Hp.
        rewrite !in_app_iff in *. cbn [ops In] in Hp.
        destruct Hp as [?|[[->|?]|?]]; auto.
        right. right. by left.
      * right. apply in_app_iff. by left.
  - destruct (LoopFacts.reject_same onFailure e
                (State (files s) (<[fst c := Reject e]> (inflight s))
                   (standing s) (console s) (trace s ++ [Failed o e])))
      as (_ & _ & Et).
    unfold Outcome.conserved. rewrite Et. cbn [trace].
    by intros [_ [=]]%first_failure_none_app.
Qed.

Lemma run_conserved schedule s : conserved s -> conserved (run schedule s).
Proof. apply (LoopFacts.run_invariant _ _ conserved). exact step_conserved. Qed.

Lemma step_made_kept s c :
  Inv.kept s /\ Outcome.made_kept s ->
  Inv.kept (step s c) /\ Outcome.made_kept (step s c).
Proof.
  intros [Hk Hm]. split; [by apply LoopFacts.step_kept|].
  destruct Hk as (_ & Hfresh & _).
  destruct (LoopFacts.step_stepped onSuccess onFailure s c)
    as [Hidle|o k fs' Hl Hx|o k e Hl Hx]; [done|..].
  - destruct (LoopFacts.settle_same onSuccess onFailure k
                (State fs' (<[fst c := k]> (inflight s)) (standing s) (console s)
                   (trace s ++ Completed o :: Loop.onward k)))
      as (Ef & _ & Et).
    unfold Outcome.made_kept. rewrite Ef, Et. cbn [files trace].
    intros p [Hold|[[= ->]|Hon]]%in_app_iff.
    + by apply (LoopFacts.exec_held _ _ _ _ _ Hx), Hm.
    + apply LoopFacts.exec_ok in Hx as [_ ->]. cbn [op_path].
      apply lookup_insert_eq.
    + by apply LoopFacts.in_onward_completed in Hon.
  - destruct (LoopFacts.reject_same onFailure e
                (State (files s) (<[fst c := Reject e]> (inflight s))
                   (standing s) (console s) (trace s ++ [Failed o e])))
      as (Ef & _ & Et).
    unfold Outcome.made_kept. rewrite Ef, Et. cbn [files trace].
    intros p [Hold|[[=]|[]]]%in_app_iff. by apply Hm.
Qed.

Lemma run_made_kept schedule s :
  Inv.kept s -> Outcome.made_kept s -> Outcome.made_kept (run schedule s).
Proof.
  intros Hk Hm.
  apply (LoopFacts.run_invariant _ _
           (fun s => Inv.kept s /\ Outcome.made_kept s)); [|done].
  exact step_made_kept.
Qed.

Lemma step_framed planned s c :
  Inv.sourced planned s /\ framed planned s ->
  Inv.sourced planned (step s c) /\ framed planned (step s c).
Proof.
  intros [Hs Hf]. split; [by apply LoopFacts.step_sourced|].
  destruct Hs as [_ Hpe].
  destruct (LoopFacts.step_stepped onSuccess onFailure s c)
    as [Hidle|o k fs' Hl Hx|o k e Hl Hx]; [done|..].
  - destruct (LoopFacts.settle_same onSuccess onFailure k
                (State fs' (<[fst c := k]> (inflight s)) (standing s) (console s)
                   (trace s ++ Completed o :: Loop.onward k)))
      as (Ef & _ & _).
    unfold Outcome.framed. rewrite Ef. cbn [files].
    apply LoopFacts.exec_ok in Hx as [_ ->].
    intros p Hp. rewrite lookup_insert_ne; [by apply Hf|].
    apply Hp, Hpe.
    rewrite (LoopFacts.pending_lookup _ _ _ Hl), !in_app_iff.
    right. left. by left.
  - unfold Outcome.framed.
    by destruct (LoopFacts.reject_same onFailure e
                   (State (files s) (<[fst c := Reject e]> (inflight s))
                      (standing s) (console s) (trace s ++ [Failed o e])))
      as (-> & _ & _).
Qed.

Lemma run_framed planned schedule s :
  Inv.sourced planned s -> framed planned s -> framed planned (run schedule s).
Proof.
  intros Hs Hf.
  apply (LoopFacts.run_invariant _ _
           (fun s => Inv.sourced planned s /\ framed planned s)); [|done].
  apply step_framed.
Qed.

Lemma all_finished_insert ts i o k t :
  ts !! i = Some t -> Loop.all_finished (<[i := Do o k]> ts) = false.
Proof.
  revert i. induction ts as [|a ts IH]; intros [|i] H; try done.
  cbn in H. change (<[S i := Do o k]> (a :: ts)) with (a :: <[i := Do o k]> ts).
  unfold Loop.all_finished in *. cbn [forallb]. rewrite (IH _ H).
  by destruct a.
Qed.

Lemma reject_standing e s : standing (Loop.reject onFailure e s) <> Awaiting.
Proof. unfold Loop.reject. by destruct (standing s) eqn:E; cbn; rewrite ?E. Qed.

Lemma step_underway s c : Outcome.underway s -> Outcome.underway (step s c).
Proof.
  intros [Hall Hw].
  destruct (LoopFacts.step_stepped onSuccess onFailure s c)
    as [Hidle|o k fs' Hl Hx|o k e Hl Hx]; [done|..].
  - destruct (LoopFacts.settle_same onSuccess onFailure k
                (State fs' (<[fst c := k]> (inflight s)) (standing s) (console s)
                   (trace s ++ Completed o :: Loop.onward k)))
      as (_ & Ei & Et).
    unfold Outcome.underway. rewrite Ei, Et. cbn [inflight trace]. split.
    + apply Forall_insert.
      * eapply Forall_impl; [exact Hall|]. intros [|e1|o' k'] Ht; [done|..].
        -- destruct (first_failure (trace s)) as [e0|] eqn:F; [|done].
           by rewrite (first_failure_kept _ _ e0 F).
        -- apply in_app_iff. by left.
      * destruct k as [|e|o' k']; [done|..].
        -- rewrite LoopFacts.first_failure_app.
           by destruct (first_failure (trace s)).
        -- apply in_app_iff. right. right. by left.
    + destruct k as [|e|o' k']; cbn [Loop.settle].
      * unfold Loop.fulfil. cbn [standing inflight].
        destruct (standing s) eqn:Es; cbn [standing inflight]; try done.
        destruct (Loop.all_finished (<[fst c := Finish]> (inflight s))) eqn:Ea;
          cbn [standing inflight]; done.
      * intros H. by apply reject_standing in H.
      * intros _. by eapply all_finished_insert.
  - unfold Outcome.underway. split; [|intros H; by apply reject_standing in H].
    destruct (LoopFacts.reject_same onFailure e
                (State (files s) (<[fst c := Reject e]> (inflight s))
                   (standing s) (console s) (trace s ++ [Failed o e])))
      as (_ & -> & ->).
    cbn [inflight trace]. apply Forall_insert.
    + eapply Forall_impl; [exact Hall|]. intros [|e1|o' k'] Ht; [done|..].
      * destruct (first_failure (trace s)) as [e0|] eqn:F; [|done].
        by rewrite (first_failure_kept _ _ e0 F).
      * apply in_app_iff. by left.
    + rewrite LoopFacts.first_failure_app.
      by destruct (first_failure (trace s)).
Qed.

Lemma run_underway schedule s :
  Outcome.underway s -> Outcome.underway (run schedule s).
Proof. apply (LoopFacts.run_invariant _ _ Outcome.underway). exact step_underway. Qed.

End OutcomeFacts.
End OutcomeFacts.

(** ** The state when the [await] begins, again *)

Module StartFacts.
Section StartFacts.

Variable env : Env.
Variable name : string.
Variable folder : option string.
Variable LICENSE : string.
Variable prettierConfig : value.
Variable manifest : value.

Abbreviation d := (dir env name folder).
Abbreviation chains :=
  (Plan.chains env name folder LICENSE prettierConfig manifest).
Abbreviation start :=
  (Plan.start env name folder LICENSE prettierConfig manifest).

Lemma start_files fs : files (start fs) = fs.
Proof.
  by destruct (PlanFacts.start_trace env name folder LICENSE prettierConfig
                 manifest fs) as (_ & _ & _ & -> & _).
Qed.

Lemma start_made_kept fs :
  fs !! FS.locate d = Some Dir -> Outcome.made_kept (start fs).
Proof.
  intros Hd p Hin. rewrite start_files.
  by apply PlanFacts.in_start_completed in Hin as [= ->].
Qed.

Lemma start_sourced_inflight fs :
  Inv.sourced (Mkdir d :: pending (inflight (start fs))) (start fs).
Proof.
  destruct (PlanFacts.start_trace env name folder LICENSE prettierConfig
              manifest fs) as (n & thrown & Ei & _ & Et & Hth & _).
  unfold Inv.sourced. rewrite Ei, Et. split.
  - intros o. rewrite !in_app_iff.
    intros [[[= <-]|[[=]|[]]]|[H|H]]; [by left|..].
    + right. by apply PlanFacts.heads_pending.
    + by destruct (Hth _ H) as [? [=]].
  - intros o H. by right.
Qed.

Lemma heads_issued ts o k : In (Do o k) ts -> In (Issued o) (heads ts).
Proof.
  intros H. unfold heads. apply in_flat_map. exists (Do o k).
  split; [done|by left].
Qed.

(** Every promise the script creates has an operation in flight. *)
Lemma start_doing fs :
  Forall (fun t => exists o k, t = Do o k) (inflight (start fs)).
Proof.
  unfold Plan.start, elements, initIndex, initRootFiles.
  destruct (prettier_format env (headerdoc name manifest +:+ indexFile)
              (options prettierConfig "typescript")) as [i|e];
    [destruct (prettier_format env (readme name)
                 (options prettierConfig "markdown")) as [r|e]|];
    cbn [issue bind app inflight]; repeat constructor; by eexists _, _.
Qed.

Lemma start_underway fs : Outcome.underway (start fs).
Proof.
  split.
  - pose proof (start_doing fs) as Hd.
    destruct (PlanFacts.start_trace env name folder LICENSE prettierConfig
                manifest fs) as (n & thrown & Ei & _ & Et & _).
    rewrite Et. rewrite Forall_forall in Hd. apply Forall_forall.
    intros t Ht. destruct (Hd t Ht) as (o & k & ->).
    rewrite !in_app_iff. right. left. rewrite <- Ei.
    apply heads_issued with k. by apply list_elem_of_In.
  - unfold Plan.start, elements, initIndex, initRootFiles.
    destruct (prettier_format env (headerdoc name manifest +:+ indexFile)
                (options prettierConfig "typescript")) as [i|e];
      [destruct (prettier_format env (readme name)
                   (options prettierConfig "markdown")) as [r|e]|];
      cbn [issue bind app inflight standing]; done.
Qed.

(** When nothing was thrown while the array was built, every promise of
    [chains] was created. *)
Lemma start_unfailed fs :
  first_failure (trace (start fs)) = None -> inflight (start fs) = chains.
Proof.
  unfold Plan.start.
  destruct (PlanFacts.issue_elements env name folder LICENSE prettierConfig
              manifest) as (n & E & Hn).
  pose proof (PlanFacts.issue_heads env name folder LICENSE prettierConfig
                manifest) as Hh.
  destruct (issue _) as [ts [e|]]; cbn [fst snd trace inflight] in *.
  - rewrite !LoopFacts.first_failure_app, Hh. cbn. discriminate.
  - intros _. by rewrite E, (Hn eq_refl).
Qed.

Lemma chains_touched o :
  In o (pending chains) -> In (op_path o) (touched env name folder).
Proof.
  unfold Plan.chains, initRootFiles, initIndex, initTests, initSrc, touched.
  destruct (prettier_format env (headerdoc name manifest +:+ indexFile) _),
    (prettier_format env (testFile env name) _),
    (prettier_format env indexFile _),
    (prettier_format env (readme name) _);
    cbn [pending flat_map ops app then_ bind In];
    intros H;
    repeat (destruct H as [H|H]);
    try (exfalso; exact H);
    subst o; cbn [op_path In];
    repeat (first [left; reflexivity|right]).
Qed.

(** When every promise is on its way to fulfilment, the formatter has
    taken the four texts, and each of the nine files is the work of one
    promise. *)
Lemma chains_fulfilled path from :
  Forall (fun t => fate t = Finish) chains ->
  In (path, from) (origins env name folder LICENSE manifest) ->
  exists data,
    produced env prettierConfig from data
    /\ In (WriteFile path data) (pending chains).
Proof.
  unfold Plan.chains, initRootFiles, initIndex, initTests, initSrc, origins.
  destruct (prettier_format env (headerdoc name manifest +:+ indexFile) _)
    eqn:E1,
    (prettier_format env (testFile env name) _) eqn:E2,
    (prettier_format env indexFile _) eqn:E3,
    (prettier_format env (readme name) _) eqn:E4;
    cbn [pending flat_map ops app then_ bind In fate];
    intros HF;
    repeat (apply Forall_cons_1 in HF as [? HF]); try discriminate;
    intros Hin;
    repeat (destruct Hin as [Hin|Hin]);
    try (exfalso; exact Hin);
    injection Hin as <- <-;
    eexists;
    (split; [first [reflexivity|eassumption]|]);
    cbn [In]; tauto.
Qed.

Lemma chains_dirs :
  In (Mkdir (tests env name folder)) (pending chains)
  /\ In (Mkdir (src env name folder)) (pending chains).
Proof.
  unfold pending. rewrite !in_flat_map. split.
  - exists (Do (Mkdir (tests env name folder))
              (then_ (initTests env name folder prettierConfig))).
    split; [|by left]. unfold Plan.chains. apply in_app_iff.
    right. right. by left.
  - exists (Do (Mkdir (src env name folder))
              (then_ (initSrc env name folder prettierConfig))).
    split; [|by left]. unfold Plan.chains. apply in_app_iff.
    right. right. right. by left.
Qed.


End StartFacts.
End StartFacts.

(** ** Runs, from their first line *)

Lemma run_trace onSuccess onFailure schedule : forall s x,
  In x (trace s) -> In x (trace (Loop.run onSuccess onFailure schedule s)).
Proof.
  induction schedule as [|c schedule IH]; [done|].
  intros s x Hx. rewrite LoopFacts.run_cons. apply IH.
  destruct (LoopFacts.step_stepped onSuccess onFailure s c)
    as [Hidle|o k fs' Hl Hx'|o k e Hl Hx']; [done|..].
  - destruct (LoopFacts.settle_same onSuccess onFailure k
                (State fs' (<[fst c := k]> (inflight s)) (standing s) (console s)
                   (trace s ++ Completed o :: Loop.onward k))) as (_ & _ & ->).
    apply in_app_iff. by left.
  - destruct (LoopFacts.reject_same onFailure e
                (State (files s) (<[fst c := Reject e]> (inflight s))
                   (standing s) (console s) (trace s ++ [Failed o e])))
      as (_ & _ & ->).
    apply in_app_iff. by left.
Qed.

Lemma run_first_failure onSuccess onFailure schedule s e :
  first_failure (trace s) = Some e ->
  first_failure (trace (Loop.run onSuccess onFailure schedule s)) = Some e.
Proof.
  apply (LoopFacts.run_invariant onSuccess onFailure
           (fun s => first_failure (trace s) = Some e)).
  clear s. intros s c Hs.
  destruct (LoopFacts.step_stepped onSuccess onFailure s c)
    as [Hidle|o k fs' Hl Hx'|o k e' Hl Hx']; [done|..].
  - destruct (LoopFacts.settle_same onSuccess onFailure k
                (State fs' (<[fst c := k]> (inflight s)) (standing s) (console s)
                   (trace s ++ Completed o :: Loop.onward k))) as (_ & _ & ->).
    by apply OutcomeFacts.first_failure_kept.
  - destruct (LoopFacts.reject_same onFailure e'
                (State (files s) (<[fst c := Reject e']> (inflight s))
                   (standing s) (console s) (trace s ++ [Failed o e'])))
      as (_ & _ & ->).
    by apply OutcomeFacts.first_failure_kept.
Qed.

Lemma all_finished_spec ts :
  Loop.all_finished ts = true <-> Forall (fun t => t = Finish) ts.
Proof.
  unfold Loop.all_finished. rewrite forallb_forall, Forall_forall.
  split; intros H t Ht.
  - apply list_elem_of_In in Ht. specialize (H t Ht). by destruct t.
  - apply list_elem_of_In in Ht. by rewrite (H t Ht).
Qed.

Lemma all_finished_pending ts : Loop.all_finished ts = true -> pending ts = [].
Proof.
  intros H%all_finished_spec. induction H as [|t ts -> _ IH]; [done|exact IH].
Qed.

Lemma fate_same (ts1 ts2 : list task) :
  map fate ts1 = map fate ts2 ->
  Forall (fun t => t = Finish) ts1 -> Forall (fun t => fate t = Finish) ts2.
Proof.
  revert ts2. induction ts1 as [|t ts1 IH]; intros [|t2 ts2] E H; try done.
  injection E as E1 E2. apply Forall_cons_1 in H as [-> H].
  constructor; [done|by apply IH].
Qed.




(** X2: the success line is printed only over a complete package: when
    it is on the console, nothing has failed, the three directories
    are there (the target directory under the name the tree has for
    its path), and each of the nine files is there with the data its
    source gives, formatted or verbatim. *)
Theorem success_means_complete
    (env : Env) (name : string) (folder : option string)
    (fs : gmap string node) (mkdirFault : option error)
    (schedule : list (nat * option error)) :
  let s := create env name folder fs mkdirFault schedule in
  In (Success name (folderName name folder)) (console s) ->
  exists LICENSE prettierConfig manifest,
    gather env name folder = Ok (LICENSE, prettierConfig, manifest)
    /\ first_failure (trace s) = None
    /\ Forall (fun made => files s !! FS.locate made = Some Dir)
         (Plan.dirs env name folder)
    /\ forall path from,
         In (path, from) (origins env name folder LICENSE manifest) ->
         exists data,
           produced env prettierConfig from data
           /\ files s !! path = Some (File data).
Proof.
  intros s Hsucc. subst s.
  destruct (create_created env name folder fs mkdirFault schedule)
    as [V|e' V G|LICENSE prettierConfig manifest e' V G X
        |LICENSE prettierConfig manifest fs' V G X];
    cbn [console] in Hsucc.
  - destruct Hsucc.
  - unfold onFailure in Hsucc. cbn in Hsucc. intuition discriminate.
  - unfold onFailure, Plan.shown in Hsucc. cbn in Hsucc. intuition discriminate.
  - set (began := Plan.start env name folder LICENSE prettierConfig manifest fs')
      in *.
    set (s := Loop.run _ _ schedule began) in *.
    pose proof (LoopFacts.run_reported _ _ _ schedule began
                  (PlanFacts.start_reported env name folder LICENSE
                     prettierConfig manifest fs')) as Hrep.
    fold s in Hrep. unfold Inv.reported in Hrep.
    destruct (first_failure (trace s)) as [e|] eqn:F.
    { destruct Hrep as [_ Hc]. rewrite Hc in Hsucc.
      unfold onFailure, Plan.shown in Hsucc. cbn in Hsucc.
      intuition discriminate. }
    destruct Hrep as [[_ Hc]|(_ & _ & Hall)].
    { rewrite Hc in Hsucc. unfold Plan.shown in Hsucc. cbn in Hsucc.
      intuition discriminate. }
    assert (Outcome.conserved began began) as H0.
    { intros H. split; [done|]. split; [done|]. intros o Ho. by left. }
    apply (OutcomeFacts.run_conserved (onSuccess env name folder manifest)
             (onFailure name) began schedule) in H0.
    fold s in H0. destruct (H0 F) as (F0 & Hfate & Hops).
    unfold began in F0. apply StartFacts.start_unfailed in F0.
    fold began in F0. rewrite F0 in Hfate, Hops.
    rewrite (all_finished_pending _ Hall) in Hops.
    apply all_finished_spec in Hall.
    apply (fate_same _ _ Hfate) in Hall.
    pose proof (LoopFacts.run_kept (onSuccess env name folder manifest)
                  (onFailure name) schedule began
                  (PlanFacts.start_kept env name folder LICENSE
                     prettierConfig manifest fs')) as Hk.
    assert (fs' !! FS.locate (dir env name folder) = Some Dir) as Hd.
    { apply LoopFacts.exec_ok in X as [_ ->]. apply lookup_insert_eq. }
    pose proof (OutcomeFacts.run_made_kept (onSuccess env name folder manifest)
                  (onFailure name) schedule began
                  (PlanFacts.start_kept env name folder LICENSE
                     prettierConfig manifest fs')
                  (StartFacts.start_made_kept env name folder LICENSE
                     prettierConfig manifest fs' Hd)) as Hm.
    fold s in Hk, Hm. destruct Hk as (_ & _ & Hk & _).
    exists LICENSE, prettierConfig, manifest.
    split; [exact G|]. split; [reflexivity|]. split.
    + destruct (StartFacts.chains_dirs env name folder LICENSE prettierConfig
                  manifest) as [Ht Hs].
      repeat constructor; apply Hm.
      * apply run_trace. unfold began, Plan.start.
        destruct (issue _) as [ts [e|]]; cbn [trace]; right; by left.
      * by destruct (Hops _ Ht).
      * by destruct (Hops _ Hs).
    + intros path from Hin.
      destruct (StartFacts.chains_fulfilled env name folder LICENSE
                  prettierConfig manifest path from Hall Hin)
        as (data & Hp & Hw).
      exists data. split; [exact Hp|]. apply Hk. by destruct (Hops _ Hw).
Qed.

Lemma success_means_complete_witness :
  files (create Sample.env "widgets" None Sample.disk None Sample.in_order)
    !! "/repo/packages/widgets/README.md"
  = Some (File (readme "widgets" +:+ Str.nl)).
Proof.
  destruct (success_means_complete Sample.env "widgets" None Sample.disk None
              Sample.in_order)
    as (LICENSE & prettierConfig & manifest & G & _ & _ & Hfiles).
  - vm_compute. do 3 right. left. reflexivity.
  - vm_compute in G. injection G as <- <- <-.
    destruct (Hfiles "/repo/packages/widgets/README.md"
                (Formatted (readme "widgets") "markdown"))
      as (data & Hp & Hf).
    + vm_compute. do 6 right. left. reflexivity.
    + vm_compute in Hp. injection Hp as <-. exact Hf.
Defined.

(** X3: when nothing has failed and every operation the script has
    issued has completed, the script has printed the manifest and the
    success lines after the announcement, and has returned. *)
Theorem completion_reported
    (env : Env) (name : string) (folder : option string)
    (fs : gmap string node) (mkdirFault : option error)
    (schedule : list (nat * option error)) :
  let s := create env name folder fs mkdirFault schedule in
  first_failure (trace s) = None ->
  (forall o, In (Issued o) (trace s) -> In (Completed o) (trace s)) ->
  exists LICENSE prettierConfig manifest,
    gather env name folder = Ok (LICENSE, prettierConfig, manifest)
    /\ standing s = Returned
    /\ console s
       = [AboutToWrite (pkgPath env name folder); Blank;
          Highlighted (JSON.stringify manifest 2 +:+ Str.nl);
          Success name (folderName name folder); Blank;
          UpdateHere (dir env name folder)].
Proof.
  intros s F Hdone. subst s.
  destruct (create_created env name folder fs mkdirFault schedule)
    as [V|e' V G|LICENSE prettierConfig manifest e' V G X
        |LICENSE prettierConfig manifest fs' V G X];
    cbn [trace] in F; try discriminate F.
  set (began := Plan.start env name folder LICENSE prettierConfig manifest fs')
    in *.
  set (s := Loop.run _ _ schedule began) in *.
  pose proof (LoopFacts.run_reported _ _ _ schedule began
                (PlanFacts.start_reported env name folder LICENSE
                   prettierConfig manifest fs')) as Hrep.
  pose proof (LoopFacts.run_kept (onSuccess env name folder manifest)
                (onFailure name) schedule began
                (PlanFacts.start_kept env name folder LICENSE
                   prettierConfig manifest fs')) as (_ & Hfresh & _).
  pose proof (OutcomeFacts.run_underway (onSuccess env name folder manifest)
                (onFailure name) schedule began
                (StartFacts.start_underway env name folder LICENSE
                   prettierConfig manifest fs')) as [Hall Hw].
  fold s in Hrep, Hfresh, Hall, Hw.
  assert (Loop.all_finished (inflight s) = true) as Hfin.
  { apply all_finished_spec. rewrite Forall_forall in Hall.
    apply Forall_forall. intros t Hin. specialize (Hall t Hin).
    destruct t as [|e|o k]; [done|by rewrite F in Hall|]. exfalso.
    apply (Hfresh o o); [|by apply Hdone|done].
    unfold pending. apply in_flat_map. exists (Do o k).
    split; [by apply list_elem_of_In|by left]. }
  unfold Inv.reported in Hrep. rewrite F in Hrep.
  destruct Hrep as [[Hs _]|(Hs & Hc & _)].
  { rewrite (Hw Hs) in Hfin. discriminate. }
  exists LICENSE, prettierConfig, manifest. by rewrite Hc.
Qed.

Lemma completion_reported_witness :
  standing (create Sample.env "widgets" None Sample.disk None Sample.in_order)
  = Returned.
Proof.
  destruct (completion_reported Sample.env "widgets" None Sample.disk None
              Sample.in_order) as (_ & _ & _ & _ & Hs & _).
  - reflexivity.
  - intros o H. vm_compute in H. vm_compute.
    repeat (destruct H as [H|H];
            [try discriminate H; injection H as <-;
             repeat (first [left; reflexivity|right])|]).
    destruct H.
  - exact Hs.
Defined.

(** A run whose target directory is there changes nothing, issues no
    write and prints no success. *)
Lemma create_blocked env name folder fs mkdirFault schedule n :
  FS.stat fs (dir env name folder) = Some n ->
  let s := create env name folder fs mkdirFault schedule in
  files s = fs
  /\ (forall o, ~ In (Completed o) (trace s))
  /\ ~ In (Success name (folderName name folder)) (console s)
  /\ (validForNewPackages (nameValidation env name) = true ->
      (exists gathered, gather env name folder = Ok gathered) ->
      mkdirFault = None ->
      In (Logged (SystemError "EEXIST" (dir env name folder))) (console s)).
Proof.
  intros Hdir s. subst s.
  destruct (create_created env name folder fs mkdirFault schedule)
    as [V|e V G|LICENSE prettierConfig manifest e V G X
        |LICENSE prettierConfig manifest fs' V G X];
    cbn [files trace console].
  - split; [done|]. split; [by intros o [[=]|[]]|]. split; [by intros []|].
    congruence.
  - split; [done|]. split; [by intros o [[=]|[]]|]. split.
    + unfold onFailure. cbn. intuition discriminate.
    + intros _ [g Hg]. rewrite G in Hg. discriminate.
  - rewrite (exec_mkdir_exists _ _ _ _ (PathFacts.join_nonempty _) Hdir) in X.
    injection X as <-.
    split; [done|]. split; [by intros o [[=]|[[=]|[]]]|]. split.
    + unfold onFailure, Plan.shown. cbn. intuition discriminate.
    + intros _ _ ->. unfold onFailure, Plan.shown. cbn.
      by right; right; left.
  - rewrite (exec_mkdir_exists _ _ _ _ (PathFacts.join_nonempty _) Hdir) in X.
    discriminate.
Qed.

(** X4: the script never writes into a package it has made before.  Once
    a run has made the target directory, however that run went on, a
    later run whose target path leads to the same directory, however
    either path is spelled (under any name, by any environment, on any
    schedule), leaves the tree exactly as it found it, completes no
    operation and prints no success; when it gets as far as
    [mkdirSync], the error it logs is [EEXIST] for the path it was
    given. *)
Theorem second_run_refused
    (env : Env) (name : string) (folder : option string)
    (fs : gmap string node) (mkdirFault : option error)
    (schedule : list (nat * option error))
    (env' : Env) (name' : string) (folder' : option string)
    (mkdirFault' : option error) (schedule' : list (nat * option error)) :
  let s := create env name folder fs mkdirFault schedule in
  In (Completed (Mkdir (dir env name folder))) (trace s) ->
  FS.locate (dir env' name' folder') = FS.locate (dir env name folder) ->
  let s' := create env' name' folder' (files s) mkdirFault' schedule' in
  files s' = files s
  /\ (forall o, ~ In (Completed o) (trace s'))
  /\ ~ In (Success name' (folderName name' folder')) (console s')
  /\ (validForNewPackages (nameValidation env' name') = true ->
      (exists gathered, gather env' name' folder' = Ok gathered) ->
      mkdirFault' = None ->
      In (Logged (SystemError "EEXIST" (dir env' name' folder'))) (console s')).
Proof.
  intros s Hmade Hsame s'. subst s s'.
  assert (FS.stat (files (create env name folder fs mkdirFault schedule))
            (dir env' name' folder') = Some Dir) as Hd.
  { apply LoopFacts.held_stat. rewrite Hsame. revert Hmade.
    destruct (create_created env name folder fs mkdirFault schedule)
      as [V|e V G|LICENSE prettierConfig manifest e V G X
          |LICENSE prettierConfig manifest fs' V G X];
      cbn [trace].
    - by intros [[=]|[]].
    - by intros [[=]|[]].
    - by intros [[=]|[[=]|[]]].
    - apply (OutcomeFacts.run_made_kept (onSuccess env name folder manifest)
               (onFailure name) schedule _
               (PlanFacts.start_kept env name folder LICENSE
                  prettierConfig manifest fs')).
      apply StartFacts.start_made_kept.
      apply LoopFacts.exec_ok in X as [_ ->]. apply lookup_insert_eq. }
  by apply create_blocked with Dir.
Qed.

Lemma second_run_refused_witness :
  let s := create Sample.env "widgets" (Some "./gadgets/") Sample.disk None
             [(0, None); (1, Some (SystemError "ENOSPC" "/repo/packages/gadgets/LICENSE"))]%nat in
  let s' := create Sample.env "gadgets" None (files s) None Sample.in_order in
  files s' = files s
  /\ In (Logged (SystemError "EEXIST" "/repo/packages/gadgets")) (console s').
Proof.
  intros s s'.
  destruct (second_run_refused Sample.env "widgets" (Some "./gadgets/")
              Sample.disk None
              [(0, None); (1, Some (SystemError "ENOSPC" "/repo/packages/gadgets/LICENSE"))]%nat
              Sample.env "gadgets" None None Sample.in_order)
    as (Hf & _ & _ & He).
  - vm_compute. right. left. reflexivity.
  - reflexivity.
  - split; [exact Hf|]. apply He; [reflexivity|by eexists|reflexivity].
Defined.

(** X5: when the formatter turns down the entry stub, the array handed
    to [Promise.all] is cut short there.  With [mkdirSync] done
    (nothing at the path of the target directory, and the directory it
    goes into there), the failure is reported at once, the target
    directory stays, the only writes ever issued are the ignore file
    and the licence, which go on; [tests] and [src] are never made and
    the manifest is never written. *)
Theorem entry_stub_failure_cuts_the_array
    (env : Env) (name : string) (folder : option string)
    (fs : gmap string node) (schedule : list (nat * option error))
    (LICENSE : string) (prettierConfig manifest : value) (e : error) :
  validForNewPackages (nameValidation env name) = true ->
  gather env name folder = Ok (LICENSE, prettierConfig, manifest) ->
  FS.stat fs (dir env name folder) = None ->
  FS.stat fs (FS.parent (dir env name folder)) = Some Dir ->
  prettier_format env (headerdoc name manifest +:+ indexFile)
    (options prettierConfig "typescript") = Err e ->
  let s := create env name folder fs None schedule in
  standing s = Returned
  /\ console s = [AboutToWrite (pkgPath env name folder); Blank;
                  Logged e; Blank; NotCreated name]
  /\ files s !! FS.locate (dir env name folder) = Some Dir
  /\ (forall o, In (Issued o) (trace s) ->
        o = Mkdir (dir env name folder)
        \/ o = WriteFile (Path.join [dir env name folder; ".npmignore"]) npmignore
        \/ o = WriteFile (Path.join [dir env name folder; "LICENSE"]) LICENSE)
  /\ (forall p, p <> FS.locate (dir env name folder) ->
                p <> Path.join [dir env name folder; ".npmignore"] ->
                p <> Path.join [dir env name folder; "LICENSE"] ->
                files s !! p = fs !! p).
Proof.
  intros V G Hfresh Hparent Hfmt s. subst s.
  rewrite (create_made env name folder fs schedule LICENSE prettierConfig
             manifest V G Hfresh Hparent).
  set (began := Plan.start env name folder LICENSE prettierConfig manifest
                  (<[FS.locate (dir env name folder) := Dir]> fs)).
  assert (began
          = State (<[FS.locate (dir env name folder) := Dir]> fs)
              (initRootFiles env name folder LICENSE) Returned
              (Plan.shown env name folder ++ onFailure name e)
              (Plan.made env name folder
               ++ heads (initRootFiles env name folder LICENSE)
               ++ [Raised e])) as Eb.
  { unfold began, Plan.start, elements, initIndex. rewrite Hfmt.
    reflexivity. }
  set (s := Loop.run _ _ schedule began).
  pose proof (LoopFacts.run_reported _ _ _ schedule began
                (PlanFacts.start_reported env name folder LICENSE
                   prettierConfig manifest _)) as Hrep.
  fold began s in Hrep. unfold Inv.reported in Hrep.
  assert (first_failure (trace s) = Some e) as F.
  { apply run_first_failure. rewrite Eb. reflexivity. }
  rewrite F in Hrep. destruct Hrep as [Hs Hc].
  pose proof (LoopFacts.run_sourced (onSuccess env name folder manifest)
                (onFailure name) _ schedule began
                (StartFacts.start_sourced_inflight env name folder LICENSE
                   prettierConfig manifest _)) as [Hsrc _].
  pose proof (OutcomeFacts.run_framed (onSuccess env name folder manifest)
                (onFailure name) began _ schedule began
                (StartFacts.start_sourced_inflight env name folder LICENSE
                   prettierConfig manifest _)) as Hfr.
  fold began s in Hsrc, Hfr.
  assert (pending (inflight began)
          = [WriteFile (Path.join [dir env name folder; ".npmignore"]) npmignore;
             WriteFile (Path.join [dir env name folder; "LICENSE"]) LICENSE])
    as Ep by (by rewrite Eb).
  rewrite Ep in Hsrc, Hfr.
  split; [exact Hs|]. split; [exact Hc|]. split; [|split].
  - apply (OutcomeFacts.run_made_kept (onSuccess env name folder manifest)
             (onFailure name) schedule began
             (PlanFacts.start_kept env name folder LICENSE
                prettierConfig manifest _)).
    + apply StartFacts.start_made_kept. apply lookup_insert_eq.
    + apply run_trace. rewrite Eb. cbn [trace]. right. by left.
  - intros o Ho. specialize (Hsrc o Ho). cbn [In] in Hsrc.
    intuition congruence.
  - intros p H1 H2 H3. rewrite Hfr.
    + unfold began. rewrite StartFacts.start_files. by apply lookup_insert_ne.
    + by intros q _.
    + intros o [<-|[<-|[<-|[]]]]; cbn [op_path]; [congruence|..];
        rewrite PlanFacts.child_located by done; congruence.
Qed.

Lemma entry_stub_failure_cuts_the_array_witness :
  let s := create Faulty.env "widgets" None Sample.disk None Sample.in_order in
  console s
  = [AboutToWrite "/repo/packages/widgets/package.json"; Blank;
     Logged (SyntaxError "Unexpected token"); Blank; NotCreated "widgets"]
  /\ files s !! "/repo/packages/widgets/package.json" = None.
Proof.
  intros s.
  edestruct (entry_stub_failure_cuts_the_array Faulty.env "widgets" None
               Sample.disk Sample.in_order) as (_ & Hc & _ & _ & Hf).
  - reflexivity.
  - vm_compute. reflexivity.
  - reflexivity.
  - reflexivity.
  - vm_compute. reflexivity.
  - split; [exact Hc|].
    etransitivity; [apply Hf; vm_compute; discriminate|reflexivity].
Defined.

(** X6: one verdict per run.  Whatever the name, the folder, the tree,
    the faults and the order of completion, the async function tells
    the operator how the run went at most once, and only when it
    returns: the success line when nothing has failed, the failure
    message when something has, never both and neither twice; it
    prints neither while it waits nor when it rejects; and it waits
    only while nothing has failed. *)
Theorem one_verdict_per_run
    (env : Env) (name : string) (folder : option string)
    (fs : gmap string node) (mkdirFault : option error)
    (schedule : list (nat * option error)) :
  let s := create env name folder fs mkdirFault schedule in
  let verdicts := List.filter verdict (console s) in
  match standing s with
  | Returned =>
      match first_failure (trace s) with
      | None => verdicts = [Success name (folderName name folder)]
      | Some _ => verdicts = [NotCreated name]
      end
  | _ => verdicts = []
  end
  /\ (standing s = Awaiting -> first_failure (trace s) = None).
Proof.
  intros s verdicts. subst s verdicts.
  destruct (create_created env name folder fs mkdirFault schedule)
    as [V|e V G|LICENSE prettierConfig manifest e V G X
        |LICENSE prettierConfig manifest fs' V G X];
    cbn [standing trace console first_failure]; try done.
  pose proof (LoopFacts.run_reported _ _ _ schedule _
                (PlanFacts.start_reported env name folder LICENSE
                   prettierConfig manifest fs')) as Hrep.
  unfold Inv.reported in Hrep.
  destruct (first_failure _) as [first|].
  - destruct Hrep as [-> ->]. by split.
  - destruct Hrep as [[-> ->]|(-> & -> & _)]; by split.
Qed.
(** ** Paths, again *)

Module PathMore.
Import StrFacts Segments PathFacts.

Lemma stack_snoc allow x seg :
  Str.mem Path.slash seg = false ->
  stack allow (x +:+ "/" +:+ seg) = Path.push allow (stack allow x) seg.
Proof.
  intros Hs. unfold stack. change ("/" +:+ seg) with (String Path.slash seg).
  by rewrite split_app, fold_left_app, split_plain.
Qed.

Lemma stack_slash allow x : stack allow (x +:+ "/") = stack allow x.
Proof.
  change (stack allow (x +:+ "/" +:+ "") = stack allow x).
  by rewrite stack_snoc.
Qed.

Lemma push_up allow a kept :
  plain a = true -> Path.push allow (a :: kept) ".." = kept.
Proof.
  intros [_ Hne]%plain_spec. unfold Path.push. cbn.
  by rewrite (proj2 (String.eqb_neq _ _) Hne).
Qed.

Lemma trailing_slash x : Path.trailingSeparator (x +:+ "/") = true.
Proof.
  unfold Path.trailingSeparator.
  change "/" with (String Path.slash ""). by rewrite last_app.
Qed.

(** What [normalize] gives, by what it keeps. *)
Lemma normalize_kept path a kept :
  path <> "" ->
  stack (negb (Path.isAbsolute path)) path = a :: kept ->
  Path.normalize path
  = text (Path.isAbsolute path) (a :: kept)
    +:+ (if Path.trailingSeparator path then "/" else "").
Proof.
  intros Hne Hk. unfold Path.normalize, Path.normalizeString.
  rewrite (proj2 (String.eqb_neq _ _) Hne).
  fold (stack (negb (Path.isAbsolute path)) path). rewrite Hk.
  pose proof (stack_canon (negb (Path.isAbsolute path)) path) as Hc.
  rewrite Hk in Hc. destruct Hc as (Ha & _).
  rewrite (proj2 (String.eqb_neq _ _) (body_nonempty a kept Ha)).
  unfold text. by rewrite app_assoc.
Qed.

Lemma normalize_kept_nothing path :
  path <> "" ->
  stack (negb (Path.isAbsolute path)) path = [] ->
  Path.normalize path
  = if Path.isAbsolute path then "/"
    else if Path.trailingSeparator path then "./" else ".".
Proof.
  intros Hne Hk. unfold Path.normalize, Path.normalizeString.
  rewrite (proj2 (String.eqb_neq _ _) Hne).
  fold (stack (negb (Path.isAbsolute path)) path). by rewrite Hk.
Qed.

(** [normalize] keeps a path absolute or relative. *)
Lemma normalize_absolute path :
  Path.isAbsolute (Path.normalize path) = Path.isAbsolute path.
Proof.
  destruct (decide (path = "")) as [->|Hne]; [done|].
  destruct (stack (negb (Path.isAbsolute path)) path) as [|a kept] eqn:Hk.
  - rewrite normalize_kept_nothing by done.
    by destruct (Path.isAbsolute path), (Path.trailingSeparator path).
  - rewrite (normalize_kept path a kept) by done.
    pose proof (stack_canon (negb (Path.isAbsolute path)) path) as Hc.
    rewrite Hk in Hc.
    rewrite absolute_app by (by apply text_nonempty; destruct Hc).
    by apply absolute_text.
Qed.

(** [normalize] changes nothing of what is kept: normalizing twice is
    normalizing once. *)
Lemma normalize_stack path :
  stack (negb (Path.isAbsolute path)) (Path.normalize path)
  = stack (negb (Path.isAbsolute path)) path.
Proof.
  destruct (decide (path = "")) as [->|Hne]; [done|].
  destruct (stack (negb (Path.isAbsolute path)) path) as [|a kept] eqn:Hk.
  - rewrite normalize_kept_nothing by done.
    by destruct (Path.isAbsolute path), (Path.trailingSeparator path).
  - rewrite (normalize_kept path a kept) by done.
    pose proof (stack_canon (negb (Path.isAbsolute path)) path) as Hc.
    rewrite Hk in Hc.
    destruct (Path.trailingSeparator path).
    + by rewrite stack_slash, replay.
    + by rewrite app_nil_r, replay.
Qed.

Lemma join_absolute a rest :
  a <> "" -> Path.isAbsolute (Path.join (a :: rest)) = Path.isAbsolute a.
Proof.
  intros Ha. unfold Path.join. rewrite filter_cons_True by done.
  rewrite normalize_absolute.
  destruct (filter _ rest) as [|b more]; [done|].
  change (Str.join "/" (a :: b :: more))
    with (a +:+ "/" +:+ Str.join "/" (b :: more)).
  by apply absolute_app.
Qed.

(** Two names joined to a path are kept on top of what the path
    keeps. *)
Lemma join_two root b a :
  plain b = true -> plain a = true ->
  Path.join [root; b; a]
  = text (Path.isAbsolute root)
      (a :: b :: stack (negb (Path.isAbsolute root)) root).
Proof.
  intros Hb Ha.
  pose proof Hb as [(Hbne & _ & Hbs)%proper_spec _]%plain_spec.
  pose proof Ha as [(Hane & _)%proper_spec _]%plain_spec.
  unfold Path.join. destruct (decide (root = "")) as [->|Hr].
  - rewrite !(filter_cons_False _ "") by (by intros ?).
    rewrite !filter_cons_True, filter_nil by done.
    change (Str.join "/" [b; a]) with (b +:+ "/" +:+ a).
    rewrite (normalize_child b a), (absolute_plain b) by done.
    unfold stack. rewrite split_plain by done.
    cbn [negb fold_left Path.isAbsolute Path.split].
    rewrite !push_plain by done. reflexivity.
  - rewrite !filter_cons_True, filter_nil by done.
    change (Str.join "/" [root; b; a]) with (root +:+ "/" +:+ b +:+ "/" +:+ a).
    rewrite <- (app_assoc "/" b), <- (app_assoc root).
    rewrite (normalize_child (root +:+ "/" +:+ b) a)
      by (try done; by intros [? _]%app_eq_nil).
    by rewrite absolute_app, stack_child.
Qed.


(** What a name joined to a path keeps. *)
Lemma join_one_kept root a :
  plain a = true ->
  Path.isAbsolute (Path.join [root; a]) = Path.isAbsolute root
  /\ stack (negb (Path.isAbsolute root)) (Path.join [root; a])
     = a :: stack (negb (Path.isAbsolute root)) root.
Proof.
  intros Ha. pose proof Ha as [(Hane & _)%proper_spec _]%plain_spec.
  destruct (decide (root = "")) as [->|Hr].
  - unfold Path.join. rewrite (filter_cons_False _ "") by (by intros ?).
    rewrite filter_cons_True, filter_nil by done.
    change (Str.join "/" [a]) with a. rewrite normalize_plain by done.
    split; [by apply absolute_plain|].
    unfold stack. rewrite split_plain by (by apply proper_spec, plain_spec).
    cbn [negb Path.isAbsolute fold_left Path.split].
    rewrite !push_plain by done. reflexivity.
  - rewrite join_child by done.
    assert (canon (negb (Path.isAbsolute root))
              (a :: stack (negb (Path.isAbsolute root)) root)) as Hc
      by (apply canon_plain; [done|apply stack_canon]).
    split; [by apply absolute_text|by apply replay].
Qed.

Lemma join_two_kept root b a :
  plain b = true -> plain a = true ->
  Path.isAbsolute (Path.join [root; b; a]) = Path.isAbsolute root
  /\ stack (negb (Path.isAbsolute root)) (Path.join [root; b; a])
     = a :: b :: stack (negb (Path.isAbsolute root)) root.
Proof.
  intros Hb Ha. rewrite join_two by done.
  assert (canon (negb (Path.isAbsolute root))
            (a :: b :: stack (negb (Path.isAbsolute root)) root)) as Hc
    by (do 2 (apply canon_plain; [done|]); apply stack_canon).
  split; [by apply absolute_text|by apply replay].
Qed.

(** The parent: [join(path, "../")] keeps what the path keeps but its
    last name. *)
Lemma join_parent_kept path a kept :
  path <> "" -> plain a = true ->
  stack (negb (Path.isAbsolute path)) path = a :: kept ->
  Path.isAbsolute (Path.join [path; "../"]) = Path.isAbsolute path
  /\ stack (negb (Path.isAbsolute path)) (Path.join [path; "../"]) = kept.
Proof.
  intros Hne Ha Hk. unfold Path.join.
  rewrite !filter_cons_True, filter_nil by done.
  change (Str.join "/" [path; "../"]) with (path +:+ "/" +:+ "../").
  assert (Path.isAbsolute (path +:+ "/" +:+ "../") = Path.isAbsolute path)
    as Ea by (by apply absolute_app).
  split.
  - by rewrite normalize_absolute.
  - rewrite <- Ea at 1. rewrite normalize_stack, Ea.
    replace (path +:+ "/" +:+ "../") with ((path +:+ "/" +:+ "..") +:+ "/")
      by (by rewrite !app_assoc).
    rewrite stack_slash, stack_snoc, Hk by done. by apply push_up.
Qed.

End PathMore.

(** ** Where the script puts the package *)

(** X7: with the script in a directory [a] of [root], the package goes
    to [packages/<folderName>] under [root], for a folder name that is
    a plain file name. *)
Theorem package_directory_beside_the_script
    (env : Env) (name : string) (folder : option string) (root a : string) :
  __dirname env = Path.join [root; a] ->
  Segments.plain a = true ->
  Segments.plain (folderName name folder) = true ->
  dir env name folder = Path.join [root; "packages"; folderName name folder].
Proof.
  intros Hd Ha Hf. unfold dir, workspaceDir. rewrite Hd.
  destruct (PathMore.join_one_kept root a Ha) as [Eabs Ek].
  destruct (PathMore.join_parent_kept (Path.join [root; a]) a
              (Segments.stack (negb (Path.isAbsolute root)) root))
    as [Eabs' Ek']; [apply PathFacts.join_nonempty|done|by rewrite Eabs|].
  rewrite !PathMore.join_two by done.
  rewrite Eabs in Eabs', Ek'. by rewrite Eabs', Ek'.
Qed.

Lemma package_directory_beside_the_script_witness :
  dir Sample.env "widgets" (Some "gadgets") = "/repo/packages/gadgets".
Proof.
  by rewrite (package_directory_beside_the_script Sample.env "widgets"
                (Some "gadgets") "/repo" "scripts").
Defined.

(** X8: the configuration a package extends.  For a folder name that is
    a plain file name, the [extends] of the build configuration, read
    from the target directory, is [tsconfig-base.json] in the packages
    directory. *)
Theorem tsconfig_extends_the_base
    (env : Env) (name : string) (folder : option string) :
  Segments.plain (folderName name folder) = true ->
  JS.get tsConfig "extends" = Ok (VStr "../tsconfig-base.json")
  /\ Path.join [dir env name folder; "../tsconfig-base.json"]
     = Path.join [workspaceDir env; "packages"; "tsconfig-base.json"].
Proof.
  intros Hf. split; [reflexivity|].
  destruct (PathMore.join_two_kept (workspaceDir env) "packages"
              (folderName name folder) eq_refl Hf) as [Eabs Ek].
  fold (dir env name folder) in Eabs, Ek.
  rewrite PathMore.join_two by done.
  unfold Path.join at 1.
  rewrite !filter_cons_True, filter_nil by (done || apply PathFacts.join_nonempty).
  change (Str.join "/" [dir env name folder; "../tsconfig-base.json"])
    with (dir env name folder +:+ "/" +:+ "../tsconfig-base.json").
  replace (dir env name folder +:+ "/" +:+ "../tsconfig-base.json")
    with ((dir env name folder +:+ "/" +:+ "..") +:+ "/" +:+ "tsconfig-base.json")
    by (by rewrite !StrFacts.app_assoc).
  rewrite PathFacts.normalize_child;
    [|by intros [E _]%StrFacts.app_eq_nil; apply PathFacts.join_nonempty in E
     |done].
  rewrite PathFacts.absolute_app by apply PathFacts.join_nonempty.
  rewrite PathMore.stack_snoc, Eabs, Ek by done.
  by rewrite PathMore.push_up.
Qed.

Lemma tsconfig_extends_the_base_witness :
  Path.join [dir Sample.env "widgets" None; "../tsconfig-base.json"]
  = "/repo/packages/tsconfig-base.json".
Proof.
  destruct (tsconfig_extends_the_base Sample.env "widgets" None eq_refl)
    as [_ ->].
  reflexivity.
Defined.

(** ** What the console names *)

Lemma resolve_absolute cwd first path :
  path <> "" -> Path.isAbsolute path = true ->
  Path.resolve cwd [first; path]
  = "/" +:+ Str.join "/" (rev (Segments.stack false path)).
Proof.
  intros Hne Habs. unfold Path.resolve. cbn [rev app Path.resolved].
  rewrite (proj2 (String.eqb_neq _ _) Hne), Habs.
  unfold Path.normalizeString. cbn [negb].
  fold (Segments.stack false (path +:+ "/" +:+ "")).
  by rewrite (PathMore.stack_snoc false path "").
Qed.

(** X9: the path the script announces is the path it writes the manifest
    to, wherever it is run from: [resolve(__dirname, pkgPath)] is
    [pkgPath], the directory of a script being absolute. *)
Theorem announced_is_written
    (env : Env) (name : string) (folder : option string) :
  Path.isAbsolute (__dirname env) = true ->
  announced env name folder = pkgPath env name folder.
Proof.
  intros Habs. unfold announced, pkgPath.
  assert (__dirname env <> "") as Hne by (by destruct (__dirname env)).
  assert (Path.isAbsolute (dir env name folder) = true) as Hd.
  { unfold dir, workspaceDir.
    rewrite PathMore.join_absolute by apply PathFacts.join_nonempty.
    by rewrite PathMore.join_absolute. }
  destruct (PathMore.join_one_kept (dir env name folder) "package.json" eq_refl)
    as [Ea Ek].
  rewrite Hd in Ea, Ek. cbn [negb] in Ek.
  rewrite resolve_absolute, Ek by (done || apply PathFacts.join_nonempty).
  rewrite PathFacts.join_child by (done || apply PathFacts.join_nonempty).
  by rewrite Hd.
Qed.

Lemma announced_is_written_witness :
  announced Sample.env "widgets" None = "/repo/packages/widgets/package.json".
Proof. by rewrite (announced_is_written Sample.env "widgets" None eq_refl). Defined.

(** X10: for a folder name that is a plain file name, the success line
    names [./packages/<folderName>], and the last line names the
    manifest by the path it was written to. *)
Theorem console_names_the_package
    (env : Env) (name : string) (folder : option string) :
  Segments.plain (folderName name folder) = true ->
  createdAt name folder = "./packages/" +:+ folderName name folder
  /\ updateHere env name folder = pkgPath env name folder.
Proof.
  intros Hf. split.
  - unfold createdAt.
    change (Path.join ["packages"; folderName name folder])
      with (Path.join [""; "packages"; folderName name folder]) at 1.
    rewrite PathMore.join_two by done. reflexivity.
  - unfold updateHere, pkgPath.
    destruct (PathMore.join_two_kept (workspaceDir env) "packages"
                (folderName name folder) eq_refl Hf) as [Eabs Ek].
    fold (dir env name folder) in Eabs, Ek.
    rewrite PathFacts.join_child by (done || apply PathFacts.join_nonempty).
    rewrite Eabs, Ek, PathFacts.text_snoc by done.
    unfold dir. rewrite PathMore.join_two by done. reflexivity.
Qed.

Lemma console_names_the_package_witness :
  updateHere Sample.env "widgets" None = "/repo/packages/widgets/package.json".
Proof.
  by destruct (console_names_the_package Sample.env "widgets" None eq_refl)
    as [_ ->].
Defined.

(** ** The paths of the [filecoin] package *)

(** X11: from the directory of the test helpers, two names below the
    root of the package, the flavor is [lib/index.js] of the package. *)
Theorem flavor_is_the_built_package (root a b : string) :
  Segments.plain a = true -> Segments.plain b = true ->
  Filecoin.flavor (Path.join [root; a; b]) = Path.join [root; "lib"; "index.js"].
Proof.
  intros Ha Hb. unfold Filecoin.flavor.
  destruct (PathMore.join_two_kept root a b Ha Hb) as [Eabs Ek].
  set (here := Path.join [root; a; b]) in *.
  assert (here <> "") as Hne by apply PathFacts.join_nonempty.
  unfold Path.join at 1. rewrite !filter_cons_True, filter_nil by done.
  change (Str.join "/" [here; ".."; "../lib/index.js"])
    with (here +:+ "/" +:+ ".." +:+ "/" +:+ "../lib/index.js").
  replace (here +:+ "/" +:+ ".." +:+ "/" +:+ "../lib/index.js")
    with ((((here +:+ "/" +:+ "..") +:+ "/" +:+ "..") +:+ "/" +:+ "lib")
          +:+ "/" +:+ "index.js")
    by (by rewrite !StrFacts.app_assoc).
  rewrite PathFacts.normalize_child;
    [|by intros [[[E _]%StrFacts.app_eq_nil _]%StrFacts.app_eq_nil _]%StrFacts.app_eq_nil
     |done].
  rewrite !PathFacts.absolute_app
    by (try done; intros E; repeat apply StrFacts.app_eq_nil in E as [E _]; done).
  rewrite PathFacts.stack_child, !PathMore.stack_snoc, Eabs, Ek by done.
  rewrite !PathMore.push_up by done.
  by rewrite PathMore.join_two.
Qed.

Lemma flavor_is_the_built_package_witness :
  Filecoin.flavor "/repo/packages/filecoin/tests/helpers"
  = "/repo/packages/filecoin/lib/index.js".
Proof.
  exact (flavor_is_the_built_package "/repo/packages/filecoin" "tests" "helpers"
           eq_refl eq_refl).
Defined.

Lemma resolved_relative path rest cwd acc :
  path <> "" -> Path.isAbsolute path = false ->
  Path.resolved (path :: rest) cwd acc
  = Path.resolved rest cwd (path +:+ "/" +:+ acc).
Proof.
  intros Hne Hrel. cbn [Path.resolved].
  by rewrite (proj2 (String.eqb_neq _ _) Hne), Hrel.
Qed.

Lemma resolved_absolute path rest cwd acc :
  Path.isAbsolute path = true ->
  Path.resolved (path :: rest) cwd acc = (path +:+ "/" +:+ acc, true).
Proof.
  intros Habs. cbn [Path.resolved]. rewrite Habs.
  by destruct path.
Qed.

(** X12: from the directory of the bundler configurations, one name
    below the root of the package, the bundle for the runtime goes to
    [dist/node] of the package, wherever the bundler is run from. *)
Theorem bundle_goes_to_dist_node (cwd root a : string) :
  Path.isAbsolute root = true -> Segments.plain a = true ->
  Filecoin.output_path cwd (Path.join [root; a])
  = Path.join [root; "dist"; "node"].
Proof.
  intros Habs Ha. unfold Filecoin.output_path, Path.resolve.
  destruct (PathMore.join_one_kept root a Ha) as [Eabs Ek].
  rewrite Habs in Eabs, Ek. cbn [negb] in Ek.
  set (here := Path.join [root; a]) in *.
  cbn [rev app].
  rewrite !resolved_relative, resolved_absolute by done.
  unfold Path.normalizeString. cbn [negb].
  fold (Segments.stack false
          (here +:+ "/" +:+ "../" +:+ "/" +:+ "dist" +:+ "/" +:+ "node"
           +:+ "/" +:+ "")).
  replace (here +:+ "/" +:+ "../" +:+ "/" +:+ "dist" +:+ "/" +:+ "node"
           +:+ "/" +:+ "")
    with ((((((here +:+ "/" +:+ "..") +:+ "/" +:+ "") +:+ "/" +:+ "dist")
            +:+ "/" +:+ "node") +:+ "/" +:+ ""))
    by (by rewrite !StrFacts.app_assoc).
  rewrite !PathMore.stack_snoc, Ek by done.
  rewrite PathMore.push_up by done.
  rewrite PathMore.join_two, Habs by done. reflexivity.
Qed.

Lemma bundle_goes_to_dist_node_witness :
  Filecoin.output_path "/home" "/repo/packages/filecoin/webpack"
  = "/repo/packages/filecoin/dist/node".
Proof.
  exact (bundle_goes_to_dist_node "/home" "/repo/packages/filecoin" "webpack"
           eq_refl eq_refl).
Defined.

(** ** The manifest, read from the root manifest *)

(** X13: a root manifest without [devDependencies] ends the run before
    anything is made: the first read under it throws, the error is
    logged with the failure message, and the tree is as it was. *)
Theorem missing_devDependencies_stop_the_run
    (env : Env) (name : string) (folder : option string)
    (fs : gmap string node) (mkdirFault : option error)
    (schedule : list (nat * option error))
    (LICENSE : string) (prettierConfig packageAuthor : value)
    (root : list (string * value)) :
  validForNewPackages (nameValidation env name) = true ->
  readFile env (Path.join [workspaceDir env; "LICENSE"]) = Ok LICENSE ->
  prettier_resolveConfig env (cwd env) = Ok prettierConfig ->
  userName env = Ok packageAuthor ->
  rootPackageJson env = Ok (VObj root) ->
  JS.lookup "devDependencies" root = None ->
  let thrown :=
    TypeError "Cannot read properties of undefined (reading '@types/mocha')" in
  create env name folder fs mkdirFault schedule
  = State fs [] Returned [Logged thrown; Blank; NotCreated name] [Raised thrown].
Proof.
  intros V HL Hc Hu Hr Hd thrown. unfold create. rewrite V.
  unfold gather. rewrite HL, Hc, Hu, Hr. cbn [bind].
  unfold pkg. cbn [JS.get]. rewrite Hd. cbn [default from_option].
  by destruct (JS.truthy packageAuthor).
Qed.

Lemma missing_devDependencies_stop_the_run_witness :
  let env := {| __dirname := "/repo/scripts";
                cwd := "/repo";
                npmValiddate := Registry.validate;
                userName := Ok VNull;
                camelCase := Sample.camel false;
                prettier_resolveConfig := fun _ => Ok VNull;
                prettier_format := Sample.final_newline;
                readFile := fun _ => Ok "MIT License";
                rootPackageJson := Ok (VObj [("name", VStr "root")]) |} in
  files (create env "widgets" None Sample.disk None Sample.in_order)
  = Sample.disk.
Proof.
  intros env.
  by rewrite (missing_devDependencies_stop_the_run env "widgets" None
                Sample.disk None Sample.in_order "MIT License" VNull VNull
                [("name", VStr "root")]).
Defined.

(** X14: the author.  The manifest names the user the version control
    system knows, when it knows one, and the author of the root manifest
    otherwise; the header of the entry stub names the same, with the
    licence.  When neither is there, the header reads [undefined] and
    the manifest is written without an author. *)
Theorem author_of_the_package
    (name : string) (folder : option string)
    (packageAuthor rootPackageJson manifest : value) :
  pkg name folder packageAuthor rootPackageJson = Ok manifest ->
  exists author kvs,
    manifest = VObj kvs
    /\ JS.get manifest "author" = Ok author
    /\ (JS.truthy packageAuthor = true -> author = packageAuthor)
    /\ (JS.truthy packageAuthor = false ->
        JS.get rootPackageJson "author" = Ok author)
    /\ headerdoc name manifest
       = "/*!" +:+ Str.nl
         +:+ "  * @ganache/" +:+ name +:+ Str.nl
         +:+ "  *" +:+ Str.nl
         +:+ "  * @author " +:+ JS.to_string author +:+ Str.nl
         +:+ "  * @license MIT" +:+ Str.nl
         +:+ "*/" +:+ Str.nl +:+ Str.nl
    /\ (author = VUndef -> ~ In "author" (map fst (Serial.written kvs))).
Proof.
  intros H. unfold pkg in H.
  apply bind_ok in H as (author & Ea & H). bind_inv H. injection H as <-.
  eexists author, _. split; [reflexivity|]. split; [reflexivity|]. split; [|split].
  - intros Ht. rewrite Ht in Ea. by injection Ea.
  - intros Ht. by rewrite Ht in Ea.
  - split; [reflexivity|]. intros -> (x & Hin & Hx)%written_keys.
    cbn [In] in Hin.
    repeat (destruct Hin as [Hin|Hin];
            [first [discriminate Hin|by injection Hin as <-]|]).
    destruct Hin.
Qed.

Lemma author_of_the_package_witness :
  exists manifest,
    pkg "widgets" None VNull Sample.root = Ok manifest
    /\ JS.get manifest "author" = Ok (VStr "David Murdoch").
Proof.
  eexists. split; [reflexivity|].
  destruct (author_of_the_package "widgets" None VNull Sample.root _ eq_refl)
    as (author & kvs & _ & Ea & _ & Hr & _).
  rewrite Ea. f_equal. specialize (Hr eq_refl). by injection Hr.
Defined.

(** X15: the parser the script names wins.  In the options handed to the
    formatter, [parser] is the one the script names, whatever the
    resolved configuration says, and every other option is the one of
    the resolved configuration. *)
Theorem parser_overrides_the_configuration
    (prettierConfig : value) (parser key : string) :
  JS.get (options prettierConfig parser) key
  = Ok (if String.eqb key "parser" then VStr parser
        else default VUndef (JS.lookup key (JS.spread prettierConfig))).
Proof.
  unfold options. cbn [JS.get]. f_equal.
  induction (JS.spread prettierConfig) as [|[k v] kvs IH].
  - cbn. by destruct (String.eqb key "parser").
  - cbn [JS.set JS.lookup].
    destruct (String.eqb_spec "parser" k) as [<-|Hk].
    + cbn [JS.lookup]. by destruct (String.eqb key "parser").
    + cbn [JS.lookup]. destruct (String.eqb_spec key k) as [->|Hne].
      * by rewrite (proj2 (String.eqb_neq k "parser")).
      * exact IH.
Qed.

(** ** The arguments *)

(** X16: run through [npm] or directly, the script hands the same
    arguments to its parser: when [npm] has left in the environment the
    original arguments [run create ...], what follows [run] is what a
    direct run makes of the arguments of the process. *)
Theorem same_arguments_either_way
    (JSON_parse : string -> result value)
    (npmConfigArgv run node script : string) (process_argv args : list string)
    (parsed : list (string * value)) :
  npmConfigArgv <> "" ->
  JSON_parse npmConfigArgv = Ok (VObj parsed) ->
  JS.lookup "original" parsed
  = Some (VArr (map VStr (run :: COMMAND_NAME :: args))) ->
  getArgv JSON_parse (Some npmConfigArgv) process_argv
  = getArgv JSON_parse None (node :: script :: args).
Proof.
  intros Hne Hp Ho. unfold getArgv. cbn [JS.truthy JS.to_string].
  rewrite (proj2 (String.eqb_neq _ _) Hne). cbn [negb].
  rewrite Hp. cbn [bind JS.get]. rewrite Ho. reflexivity.
Qed.

Lemma same_arguments_either_way_witness :
  let parse := fun _ : string =>
    Ok (VObj [("remain", VArr [VStr "widgets"]);
              ("cooked", VArr [VStr "run"; VStr "create"; VStr "widgets"]);
              ("original", VArr [VStr "run"; VStr "create"; VStr "widgets"])]) in
  getArgv parse (Some "{}") [] = Ok (VArr [VStr "create"; VStr "widgets"]).
Proof.
  intros parse.
  by rewrite (same_arguments_either_way parse "{}" "run" "node" "create.ts" []
                ["widgets"] _ ltac:(discriminate) eq_refl eq_refl).
Defined.

(** ** The lockfile stub *)

Lemma quote_char_line c : Str.mem (ascii_of_nat 10) (JSON.quote_char c) = false.
Proof.
  destruct c as [[] [] [] [] [] [] [] []]; reflexivity.
Qed.

Lemma quote_line s : Str.mem (ascii_of_nat 10) (JSON.quote s) = false.
Proof.
  unfold JSON.quote. rewrite !StrFacts.mem_app.
  change (Str.mem (ascii_of_nat 10) Str.dq) with false.
  rewrite orb_false_r. cbn [orb].
  induction s as [|c s IH]; [reflexivity|].
  cbn [JSON.quote_body]. by rewrite StrFacts.mem_app, quote_char_line, IH.
Qed.

(** X17: the lockfile stub is one line whatever the name: a line feed in
    a name is written as an escape, so the only line feed of the file
    is the one the script appends. *)
Theorem lockfile_is_one_line (name : string) :
  Str.mem (ascii_of_nat 10) (JSON.stringify (shrinkwrap name) 0) = false
  /\ Serial.one_final_newline (JSON.stringify (shrinkwrap name) 0 +:+ Str.nl).
Proof.
  split; [|apply JSONFacts.object_line].
  unfold JSON.stringify, shrinkwrap.
  change (String.concat "" (replicate 0 " ")) with "".
  rewrite JSONFacts.serialize_object. cbn [JSON.members JSON.serialize].
  rewrite JSONFacts.wrap_compact. unfold JSON.member, default, from_option, id.
  cbn [Str.join String.eqb].
  rewrite !StrFacts.mem_app, !quote_line. reflexivity.
Qed.

(** ** Runs with nothing in the way *)

Lemma fate_onward k : fate k = Finish -> first_failure (Loop.onward k) = None.
Proof. by destruct k. Qed.

(** A directory that stays lets every promise find what it found. *)
Lemma grounded_mono fs fs' t : forall before,
  (forall q, FS.stat fs q = Some Dir -> FS.stat fs' q = Some Dir) ->
  grounded fs before t -> grounded fs' before t.
Proof.
  induction t as [| |o k IH]; intros before Hm; [done..|].
  cbn [grounded]. intros [[H|H] Hk]; (split; [|by apply IH]); auto.
Qed.

(** Once an operation has completed, what comes after it in its promise
    no longer waits for it. *)
Lemma grounded_done fs fs' o k : forall before,
  (forall q, FS.stat fs q = Some Dir -> FS.stat fs' q = Some Dir) ->
  (forall p, o = Mkdir p -> FS.stat fs' p = Some Dir) ->
  grounded fs (before ++ [o]) k -> grounded fs' before k.
Proof.
  induction k as [| |o' k' IH]; intros before Hm Ho; [done..|].
  cbn [grounded]. intros [H Hk]. split; [|by apply (IH (o' :: before))].
  destruct H as [H|[H|[E|[]]]%in_app_iff]; [left; by apply Hm|by right|].
  left. by apply Ho.
Qed.

(** With nothing in the way and no fault, the operation in flight
    succeeds. *)
Lemma faultless_exec s i o k :
  faultless s -> inflight s !! i = Some (Do o k) ->
  FS.exec None o (files s)
  = Ok (<[op_path o := match o with
                       | Mkdir _ => Dir
                       | WriteFile _ data => File data
                       end]> (files s)).
Proof.
  intros ((_ & _ & _ & Hloc) & Hc & Hg & _) Hl.
  assert (In o (pending (inflight s))) as Hin.
  { rewrite (LoopFacts.pending_lookup _ _ _ Hl), !in_app_iff.
    right. left. by left. }
  pose proof (Forall_lookup_1 _ _ _ _ Hg Hl) as [[Hp|[]] _].
  rewrite <- (Hloc o Hin). apply LoopFacts.exec_vacant; [by apply Hc|done|].
  destruct o as [p|p data]; [done|].
  apply (TreeFacts.located_untrailed (files s));
    [exact (Hloc _ Hin)|exact (Hc _ Hin)].
Qed.

(** One step without a fault of the environment. *)
Lemma step_faultless onSuccess onFailure s i :
  faultless s -> faultless (Loop.step onSuccess onFailure s (i, None)).
Proof.
  intros Hgood. pose proof Hgood as (Hk & Hc & Hg & Hf & Hn).
  pose proof (LoopFacts.step_kept onSuccess onFailure s (i, None) Hk) as Hk'.
  destruct (LoopFacts.step_stepped onSuccess onFailure s (i, None))
    as [Hidle|o k fs' Hl Hx|o k e Hl Hx]; [done|..]; cbn [fst snd] in *;
    [|by rewrite (faultless_exec s i o k Hgood Hl) in Hx].
  split; [exact Hk'|]. clear Hk'.
  destruct (LoopFacts.settle_same onSuccess onFailure k
              (State fs' (<[i := k]> (inflight s)) (standing s) (console s)
                 (trace s ++ Completed o :: Loop.onward k)))
    as (Ef & Ei & Et).
  unfold unobstructed. rewrite Ef, Ei, Et. cbn [files inflight trace].
  pose proof (Forall_lookup_1 _ _ _ _ Hf Hl) as Hfate. cbn [fate] in Hfate.
  pose proof (Forall_lookup_1 _ _ _ _ Hg Hl) as [_ Hgk].
  pose proof (fun q => LoopFacts.exec_dir _ _ _ _ q Hx) as Hmono.
  rewrite (faultless_exec s i o k Hgood Hl) in Hx. injection Hx as <-.
  split; [|split; [|split]].
  - destruct Hk as (Hnd & _ & _ & Hloc).
    rewrite (LoopFacts.pending_insert _ _ _ k Hl).
    unfold unobstructed in Hc.
    rewrite (LoopFacts.pending_lookup _ _ _ Hl) in Hnd, Hc, Hloc.
    cbn [ops] in Hnd, Hc, Hloc.
    rewrite map_app in Hnd. cbn [app map] in Hnd.
    apply List.NoDup_remove in Hnd as [_ Ho]. rewrite <- map_app in Ho.
    intros o2 Hin.
    assert (In o2 (pending (take i (inflight s)) ++ (o :: ops k)
                   ++ pending (drop (S i) (inflight s)))) as Hin'
      by (rewrite !in_app_iff in *; cbn [In]; tauto).
    rewrite TreeFacts.stat_elsewhere; [by apply Hc|].
    rewrite (Hloc o2 Hin'). intros E. apply Ho. rewrite <- E. by apply in_map.
  - apply Forall_insert.
    + eapply Forall_impl; [exact Hg|]. intros t. by apply grounded_mono.
    + apply (grounded_done (files s) _ o k []); [exact Hmono| |exact Hgk].
      intros p ->. cbn [op_path].
      destruct Hk as (_ & _ & _ & Hloc).
      rewrite <- (Hloc (Mkdir p)) at 1; [apply TreeFacts.stat_made|].
      rewrite (LoopFacts.pending_lookup _ _ _ Hl), !in_app_iff.
      right. left. by left.
  - by apply Forall_insert.
  - rewrite LoopFacts.first_failure_app, Hn. cbn [first_failure].
    by apply fate_onward.
Qed.

Lemma run_faultless onSuccess onFailure schedule : forall s,
  Forall (fun c => snd c = None) schedule ->
  faultless s -> faultless (Loop.run onSuccess onFailure schedule s).
Proof.
  induction schedule as [|[i fault] schedule IH]; [done|].
  intros s [Hc Hs]%Forall_cons_1 Hgood. cbn [snd] in Hc. subst fault.
  rewrite LoopFacts.run_cons. by apply IH, step_faultless.
Qed.

(** The step on a promise with an operation in flight. *)
Lemma step_faultless_at onSuccess onFailure s i o k :
  faultless s -> inflight s !! i = Some (Do o k) ->
  inflight (Loop.step onSuccess onFailure s (i, None)) = <[i := k]> (inflight s).
Proof.
  intros Hgood Hl. unfold Loop.step. cbn [fst snd].
  rewrite Hl, (faultless_exec s i o k Hgood Hl).
  exact (proj1 (proj2 (LoopFacts.settle_same onSuccess onFailure k _))).
Qed.

(** ** The directory a node goes into *)

Module TreeMore.
Import StrFacts Segments PathFacts PathMore.

(** The name of a node is absolute when the path is, and keeps what the
    path keeps. *)
Lemma locate_absolute path :
  Path.isAbsolute (FS.locate path) = Path.isAbsolute path.
Proof.
  rewrite TreeFacts.locate_kept.
  pose proof (stack_canon (negb (Path.isAbsolute path)) path) as Hc.
  destruct (stack _ path) as [|a kept].
  - by destruct (Path.isAbsolute path).
  - by apply absolute_text.
Qed.

Lemma locate_stack path :
  stack (negb (Path.isAbsolute path)) (FS.locate path)
  = stack (negb (Path.isAbsolute path)) path.
Proof.
  rewrite TreeFacts.locate_kept.
  pose proof (stack_canon (negb (Path.isAbsolute path)) path) as Hc.
  destruct (stack _ path) as [|a kept].
  - by destruct (Path.isAbsolute path).
  - by apply replay.
Qed.

(** A path that ends with a name goes into the directory of the
    segments before the name. *)
Lemma parent_text absolute a kept :
  canon (negb absolute) (a :: kept) -> plain a = true ->
  FS.parent (text absolute (a :: kept))
  = match kept with
    | [] => if absolute then "/" else "."
    | below => text absolute below
    end.
Proof.
  intros Hc Ha. unfold FS.parent.
  rewrite (TreeFacts.locate_text _ _ _ Hc), TreeFacts.locate_kept.
  assert (text absolute (a :: kept) <> "") as Hne
    by (apply text_nonempty; by destruct Hc).
  rewrite (absolute_app _ _ Hne), (absolute_text _ _ _ Hc).
  change (text absolute (a :: kept) +:+ "/..")
    with (text absolute (a :: kept) +:+ "/" +:+ "..").
  rewrite stack_snoc by done.
  rewrite (replay _ _ Hc), (push_up _ _ _ Ha). by destruct kept.
Qed.

End TreeMore.

Section Grounds.
Import Segments PathFacts.

Variable env : Env.
Variable name : string.
Variable folder : option string.

Abbreviation d := (dir env name folder).
Abbreviation under := (Plan.under env name folder).

(** What the script puts in the target directory goes into it, and the
    stubs go into [tests] and [src]. *)
Lemma parent_child a :
  plain a = true -> FS.parent (Path.join [d; a]) = FS.locate d.
Proof.
  intros Ha. rewrite PlanFacts.dir_child by done. unfold Plan.under.
  cbn [app]. rewrite TreeMore.parent_text, TreeFacts.locate_kept;
    [|by apply canon_plain, stack_canon|done].
  by destruct (stack _ d).
Qed.

Lemma parent_grandchild a b :
  plain a = true -> plain b = true ->
  FS.parent (Path.join [Path.join [d; b]; a]) = Path.join [d; b].
Proof.
  intros Ha Hb. rewrite (PlanFacts.dir_child _ _ _ b) by done.
  rewrite PlanFacts.under_child by (by repeat constructor).
  unfold Plan.under. cbn [app]. rewrite TreeMore.parent_text; [done| |done].
  by apply canon_plain, canon_plain, stack_canon.
Qed.

(** No path under the target directory leads to the target directory. *)
Lemma under_not_located a names :
  Forall (fun x => plain x = true) (a :: names) ->
  under (a :: names) <> FS.locate d.
Proof.
  intros Hn E.
  apply (f_equal (stack (negb (Path.isAbsolute d)))) in E.
  rewrite TreeMore.locate_stack in E. unfold Plan.under in E.
  rewrite replay in E
    by (apply (PlanFacts.forall_plain_canon _ (a :: names));
        [done|apply stack_canon]).
  apply (f_equal length) in E. rewrite length_app in E. cbn in E. lia.
Qed.

(** A write into the target directory finds it once it is made. *)
Lemma grounded_child fs before a data k :
  plain a = true -> FS.stat fs d = Some Dir ->
  grounded fs (WriteFile (Path.join [d; a]) data :: before) k ->
  grounded fs before (Do (WriteFile (Path.join [d; a]) data) k).
Proof.
  intros Ha Hd Hk. split; [|exact Hk]. left. cbn [op_path].
  by rewrite parent_child, TreeFacts.stat_locate.
Qed.

(** A stub finds the directory the promise has made before it. *)
Lemma grounded_stub fs b a data :
  plain a = true -> plain b = true -> FS.stat fs d = Some Dir ->
  grounded fs []
    (Do (Mkdir (Path.join [d; b]))
        (Do (WriteFile (Path.join [Path.join [d; b]; a]) data) Finish)).
Proof.
  intros Ha Hb Hd. split; [|split; [|done]]; cbn [op_path].
  - left. by rewrite parent_child, TreeFacts.stat_locate.
  - right. rewrite parent_grandchild by done. by left.
Qed.

End Grounds.

Section Unobstructed.

Variable env : Env.
Variable name : string.
Variable folder : option string.
Variable LICENSE : string.
Variable prettierConfig : value.
Variable manifest : value.
Variable index test source document : string.

Hypothesis formatted_index :
  prettier_format env (headerdoc name manifest +:+ indexFile)
    (options prettierConfig "typescript") = Ok index.
Hypothesis formatted_test :
  prettier_format env (testFile env name)
    (options prettierConfig "typescript") = Ok test.
Hypothesis formatted_source :
  prettier_format env indexFile (options prettierConfig "typescript")
  = Ok source.
Hypothesis formatted_document :
  prettier_format env (readme name) (options prettierConfig "markdown")
  = Ok document.

Abbreviation d := (dir env name folder).
Abbreviation start :=
  (Plan.start env name folder LICENSE prettierConfig manifest).

Lemma start_formatted fs :
  inflight (start fs)
  = [ Do (WriteFile (Path.join [d; ".npmignore"]) npmignore) Finish;
      Do (WriteFile (Path.join [d; "LICENSE"]) LICENSE) Finish;
      Do (WriteFile (Path.join [d; "index.ts"]) index) Finish;
      Do (Mkdir (tests env name folder))
         (Do (WriteFile (Path.join [tests env name folder; "index.test.ts"])
                test) Finish);
      Do (Mkdir (src env name folder))
         (Do (WriteFile (Path.join [src env name folder; "index.ts"]) source)
             Finish);
      Do (WriteFile (Path.join [d; "tsconfig.json"])
            (JSON.stringify tsConfig 2 +:+ Str.nl)) Finish;
      Do (WriteFile (Path.join [d; "README.md"]) document) Finish;
      Do (WriteFile (pkgPath env name folder) (pkgStr manifest)) Finish;
      Do (WriteFile (Path.join [d; "npm-shrinkwrap.json"])
            (JSON.stringify (shrinkwrap name) 0 +:+ Str.nl)) Finish ]
  /\ first_failure (trace (start fs)) = None.
Proof.
  unfold Plan.start, elements, initIndex, initTests, initSrc, initRootFiles.
  rewrite formatted_index, formatted_test, formatted_source, formatted_document.
  by cbn [issue bind app inflight trace then_].
Qed.

Lemma start_faultless fs :
  (forall p, In p (touched env name folder) -> FS.stat fs p = None) ->
  faultless (start (<[FS.locate d := Dir]> fs)).
Proof.
  intros Hfree.
  destruct (PlanFacts.start_trace env name folder LICENSE prettierConfig
              manifest (<[FS.locate d := Dir]> fs)) as (n & thrown & Ei & Ef & _).
  split; [apply PlanFacts.start_kept|]. split; [|split; [|split]].
  - intros o Ho. rewrite Ei in Ho. apply PlanFacts.pending_take in Ho.
    rewrite Ef, TreeFacts.stat_elsewhere.
    + by eapply Hfree, StartFacts.chains_touched.
    + destruct (PlanFacts.chains_under _ _ _ _ _ _ _ Ho) as (a & names & Hn & E).
      rewrite (PlanFacts.chains_located _ _ _ _ _ _ _ Ho), E.
      by apply under_not_located.
  - destruct (start_formatted (<[FS.locate d := Dir]> fs)) as [E _].
    rewrite Ef, E. unfold pkgPath, tests, src.
    pose proof (TreeFacts.stat_made fs d) as Hd.
    repeat (apply List.Forall_cons); try apply List.Forall_nil;
      first [by apply grounded_child|by apply grounded_stub].
  - destruct (start_formatted (<[FS.locate d := Dir]> fs)) as [-> _].
    by repeat constructor.
  - by destruct (start_formatted (<[FS.locate d := Dir]> fs)) as [_ ->].
Qed.

End Unobstructed.

Lemma run_faultless_inflight onSuccess onFailure schedule : forall s,
  Forall (fun c => snd c = None) schedule ->
  faultless s ->
  inflight (Loop.run onSuccess onFailure schedule s)
  = fold_left advance (map fst schedule) (inflight s).
Proof.
  induction schedule as [|[i fault] schedule IH]; [done|].
  intros s [Hc Hs]%Forall_cons_1 Hgood. cbn [snd] in Hc. subst fault.
  rewrite LoopFacts.run_cons. cbn [map fst fold_left].
  rewrite IH by (done || by apply step_faultless). f_equal.
  unfold advance. destruct (inflight s !! i) as [[| |o k]|] eqn:E;
    try (unfold Loop.step; cbn [fst]; by rewrite E).
  by apply step_faultless_at with o.
Qed.

(** X18: with a name the checker accepts, the reads done, the four texts
    formatted, none of the twelve paths taken and the directory the
    target directory goes into there, nothing fails unless the
    environment makes it: on every schedule without a fault, no
    operation fails and no exception is raised. *)
Theorem nothing_fails_without_cause
    (env : Env) (name : string) (folder : option string)
    (fs : gmap string node) (schedule : list (nat * option error))
    (LICENSE : string) (prettierConfig manifest : value)
    (index test source document : string) :
  validForNewPackages (nameValidation env name) = true ->
  gather env name folder = Ok (LICENSE, prettierConfig, manifest) ->
  prettier_format env (headerdoc name manifest +:+ indexFile)
    (options prettierConfig "typescript") = Ok index ->
  prettier_format env (testFile env name)
    (options prettierConfig "typescript") = Ok test ->
  prettier_format env indexFile (options prettierConfig "typescript")
  = Ok source ->
  prettier_format env (readme name) (options prettierConfig "markdown")
  = Ok document ->
  (forall p, In p (touched env name folder) -> FS.stat fs p = None) ->
  FS.stat fs (FS.parent (dir env name folder)) = Some Dir ->
  Forall (fun c => snd c = None) schedule ->
  let s := create env name folder fs None schedule in
  first_failure (trace s) = None
  /\ (forall o e, ~ In (Failed o e) (trace s))
  /\ (forall e, ~ In (NotCreated name) (console s) /\ ~ In (Logged e) (console s)).
Proof.
  intros V G H1 H2 H3 H4 Hfree Hparent Hsched s. subst s.
  assert (FS.stat fs (dir env name folder) = None) as Hd.
  { rewrite <- TreeFacts.stat_locate. apply Hfree. by left. }
  rewrite (create_made env name folder fs schedule LICENSE prettierConfig
             manifest V G Hd Hparent).
  pose proof (run_faultless (onSuccess env name folder manifest) (onFailure name)
                schedule _ Hsched
                (start_faultless env name folder LICENSE prettierConfig manifest
                   index test source document H1 H2 H3 H4 fs Hfree))
    as (_ & _ & _ & _ & F).
  split; [exact F|]. split; [by apply first_failure_none|].
  pose proof (LoopFacts.run_reported _ _ _ schedule _
                (PlanFacts.start_reported env name folder LICENSE
                   prettierConfig manifest
                   (<[FS.locate (dir env name folder) := Dir]> fs)))
    as Hrep.
  unfold Inv.reported in Hrep. rewrite F in Hrep.
  intros e. destruct Hrep as [[_ ->]|(_ & -> & _)];
    unfold Plan.shown, onSuccess; cbn; intuition discriminate.
Qed.

Lemma nothing_fails_without_cause_witness :
  first_failure
    (trace (create Sample.env "widgets" None Sample.disk None
              [(7, None); (3, None); (3, None)]%nat))
  = None.
Proof.
  edestruct (nothing_fails_without_cause Sample.env "widgets" None Sample.disk
               [(7, None); (3, None); (3, None)]%nat) as (F & _).
  - reflexivity.
  - vm_compute. reflexivity.
  - vm_compute. reflexivity.
  - vm_compute. reflexivity.
  - vm_compute. reflexivity.
  - vm_compute. reflexivity.
  - intros p Hp. vm_compute in Hp.
    repeat (destruct Hp as [<-|Hp]; [reflexivity|]). destruct Hp.
  - reflexivity.
  - by repeat constructor.
  - exact F.
Defined.

Lemma reported_unfailed onSuccess onFailure shown s :
  Inv.reported onSuccess onFailure shown s ->
  first_failure (trace s) = None ->
  (standing s = Awaiting /\ console s = shown)
  \/ (standing s = Returned /\ console s = shown ++ onSuccess
      /\ Loop.all_finished (inflight s) = true).
Proof. unfold Inv.reported. intros H F. by rewrite F in H. Qed.

(** In the order of the array, the continuations last, every promise
    is fulfilled. *)
Lemma in_order_fulfils (o0 o1 o2 o3 o3' o4 o4' o5 o6 o7 o8 : fsop) :
  fold_left advance (map fst Sample.in_order)
    [Do o0 Finish; Do o1 Finish; Do o2 Finish; Do o3 (Do o3' Finish);
     Do o4 (Do o4' Finish); Do o5 Finish; Do o6 Finish; Do o7 Finish;
     Do o8 Finish]
  = replicate 9 Finish.
Proof. reflexivity. Qed.

(** X19: the async function can succeed.  With a name the checker
    accepts, the reads done, the four texts formatted, none of the
    twelve paths taken and the directory the target directory goes
    into there, the run whose operations complete in the order of the
    array, the two continuations last, returns with the manifest and
    the success lines printed after the announcement. *)
Theorem run_in_order_succeeds
    (env : Env) (name : string) (folder : option string)
    (fs : gmap string node)
    (LICENSE : string) (prettierConfig manifest : value)
    (index test source document : string) :
  validForNewPackages (nameValidation env name) = true ->
  gather env name folder = Ok (LICENSE, prettierConfig, manifest) ->
  prettier_format env (headerdoc name manifest +:+ indexFile)
    (options prettierConfig "typescript") = Ok index ->
  prettier_format env (testFile env name)
    (options prettierConfig "typescript") = Ok test ->
  prettier_format env indexFile (options prettierConfig "typescript")
  = Ok source ->
  prettier_format env (readme name) (options prettierConfig "markdown")
  = Ok document ->
  (forall p, In p (touched env name folder) -> FS.stat fs p = None) ->
  FS.stat fs (FS.parent (dir env name folder)) = Some Dir ->
  let s := create env name folder fs None Sample.in_order in
  standing s = Returned
  /\ Loop.all_finished (inflight s) = true
  /\ console s
     = [AboutToWrite (pkgPath env name folder); Blank;
        Highlighted (JSON.stringify manifest 2 +:+ Str.nl);
        Success name (folderName name folder); Blank;
        UpdateHere (dir env name folder)].
Proof.
  intros V G H1 H2 H3 H4 Hfree Hparent s. subst s.
  assert (FS.stat fs (dir env name folder) = None) as Hd.
  { rewrite <- TreeFacts.stat_locate. apply Hfree. by left. }
  rewrite (create_made env name folder fs Sample.in_order LICENSE
             prettierConfig manifest V G Hd Hparent).
  pose proof (start_faultless env name folder LICENSE prettierConfig manifest
                index test source document H1 H2 H3 H4 fs Hfree) as Hgood.
  destruct (start_formatted env name folder LICENSE prettierConfig manifest
              index test source document H1 H2 H3 H4
              (<[FS.locate (dir env name folder) := Dir]> fs)) as [E0 _].
  pose proof (PlanFacts.start_reported env name folder LICENSE
                prettierConfig manifest
                (<[FS.locate (dir env name folder) := Dir]> fs))
    as Hrep.
  pose proof (StartFacts.start_underway env name folder LICENSE
                prettierConfig manifest
                (<[FS.locate (dir env name folder) := Dir]> fs))
    as Hund.
  remember (Plan.start env name folder LICENSE prettierConfig manifest
              (<[FS.locate (dir env name folder) := Dir]> fs)) as began eqn:Eb.
  clear Eb.
  assert (Forall (fun c : nat * option error => snd c = None) Sample.in_order)
    as Hsched by (by repeat constructor).
  pose proof (run_faultless (onSuccess env name folder manifest) (onFailure name)
                Sample.in_order began Hsched Hgood) as (_ & _ & _ & _ & F).
  pose proof (run_faultless_inflight (onSuccess env name folder manifest)
                (onFailure name) Sample.in_order began Hsched Hgood) as Hi.
  apply (LoopFacts.run_reported _ _ _ Sample.in_order) in Hrep.
  apply (OutcomeFacts.run_underway (onSuccess env name folder manifest)
           (onFailure name) Sample.in_order) in Hund as [_ Hw].
  remember (Loop.run (onSuccess env name folder manifest) (onFailure name)
              Sample.in_order began) as s eqn:Es.
  clear Es. rewrite E0 in Hi.
  rewrite in_order_fulfils in Hi.
  assert (Loop.all_finished (inflight s) = true) as Hfin.
  { rewrite Hi. reflexivity. }
  destruct (reported_unfailed _ _ _ _ Hrep F) as [[Hs _]|(Hs & Hc & _)].
  { rewrite (Hw Hs) in Hfin. discriminate. }
  split; [exact Hs|]. split; [exact Hfin|]. rewrite Hc. reflexivity.
Qed.

Lemma run_in_order_succeeds_witness :
  standing (create Sample.env "widgets" None Sample.disk None Sample.in_order)
  = Returned.
Proof.
  edestruct (run_in_order_succeeds Sample.env "widgets" None Sample.disk)
    as (Hs & _).
  - reflexivity.
  - vm_compute. reflexivity.
  - vm_compute. reflexivity.
  - vm_compute. reflexivity.
  - vm_compute. reflexivity.
  - vm_compute. reflexivity.
  - intros p Hp. vm_compute in Hp.
    repeat (destruct Hp as [<-|Hp]; [reflexivity|]). destruct Hp.
  - reflexivity.
  - exact Hs.
Defined.

(** ** A directory that is not there to go into *)



(** ** A callback that throws *)

Lemma step_callback_throws onSuccess onFailure mkdir e s c :
  callback_throws mkdir e s ->
  callback_throws mkdir e (Loop.step onSuccess onFailure s c).
Proof.
  intros (Hl & Hr & Hc).
  destruct (LoopFacts.step_stepped onSuccess onFailure s c)
    as [Hidle|o k fs' Hi Hx|o k e0 Hi Hx]; [done|..].
  - destruct (LoopFacts.settle_same onSuccess onFailure k
                (State fs' (<[fst c := k]> (inflight s)) (standing s) (console s)
                   (trace s ++ Completed o :: Loop.onward k)))
      as (_ & Ei & Et).
    unfold callback_throws. rewrite Ei, Et. cbn [inflight trace].
    pose proof (Forall_lookup_1 _ _ _ _ Hl Hi) as Hok. cbn beta in Hok.
    destruct (Hok o k (or_introl eq_refl)) as [Hthen Honly].
    split; [|split].
    + apply Forall_insert; [done|]. intros o' k' Hin. apply Hok. by right.
    + intros e' [Hold|[[=]|Hon]]%in_app_iff.
      * destruct (Hr e' Hold) as [-> ?]. split; [done|].
        apply in_app_iff. by left.
      * destruct k as [|e1|o1 k1]; cbn [Loop.onward In] in Hon;
          [done| |by destruct Hon as [[=]|[]]].
        destruct Hon as [[= ->]|[]].
        pose proof (Honly e' eq_refl) as ->.
        specialize (Hthen eq_refl). injection Hthen as ->.
        split; [done|]. apply in_app_iff. right. by left.
    + intros [Hold|[[= ->]|Hon]]%in_app_iff.
      * apply in_app_iff. left. by apply Hc.
      * rewrite (Hthen eq_refl). apply in_app_iff. right. right. by left.
      * by apply LoopFacts.in_onward_completed in Hon.
  - destruct (LoopFacts.reject_same onFailure e0
                (State (files s) (<[fst c := Reject e0]> (inflight s))
                   (standing s) (console s) (trace s ++ [Failed o e0])))
      as (_ & Ei & Et).
    unfold callback_throws. rewrite Ei, Et. cbn [inflight trace].
    split; [|split].
    + apply Forall_insert; [done|]. by intros o' k' [].
    + intros e' [Hold|[[=]|[]]]%in_app_iff.
      destruct (Hr e' Hold) as [-> ?]. split; [done|].
      apply in_app_iff. by left.
    + intros [Hold|[[=]|[]]]%in_app_iff. apply in_app_iff. left. by apply Hc.
Qed.

Lemma run_callback_throws onSuccess onFailure mkdir e schedule s :
  callback_throws mkdir e s ->
  callback_throws mkdir e (Loop.run onSuccess onFailure schedule s).
Proof.
  apply (LoopFacts.run_invariant onSuccess onFailure (callback_throws mkdir e)).
  intros s' c. apply step_callback_throws.
Qed.

Lemma raised_fails tr e : In (Raised e) tr -> first_failure tr <> None.
Proof.
  induction tr as [|x tr IH]; [done|]. intros [->|Hin]; [done|].
  destruct x; cbn [first_failure]; auto; discriminate.
Qed.

Section TestStub.

Variable env : Env.
Variable name : string.
Variable folder : option string.
Variable LICENSE : string.
Variable prettierConfig : value.
Variable manifest : value.
Variable index source document : string.
Variable e : error.

Hypothesis formatted_index :
  prettier_format env (headerdoc name manifest +:+ indexFile)
    (options prettierConfig "typescript") = Ok index.
Hypothesis refused_test :
  prettier_format env (testFile env name)
    (options prettierConfig "typescript") = Err e.
Hypothesis formatted_source :
  prettier_format env indexFile (options prettierConfig "typescript")
  = Ok source.
Hypothesis formatted_document :
  prettier_format env (readme name) (options prettierConfig "markdown")
  = Ok document.

Abbreviation d := (dir env name folder).
Abbreviation start :=
  (Plan.start env name folder LICENSE prettierConfig manifest).

Lemma start_refused fs :
  start fs
  = State fs
      [ Do (WriteFile (Path.join [d; ".npmignore"]) npmignore) Finish;
        Do (WriteFile (Path.join [d; "LICENSE"]) LICENSE) Finish;
        Do (WriteFile (Path.join [d; "index.ts"]) index) Finish;
        Do (Mkdir (tests env name folder)) (Reject e);
        Do (Mkdir (src env name folder))
           (Do (WriteFile (Path.join [src env name folder; "index.ts"]) source)
               Finish);
        Do (WriteFile (Path.join [d; "tsconfig.json"])
              (JSON.stringify tsConfig 2 +:+ Str.nl)) Finish;
        Do (WriteFile (Path.join [d; "README.md"]) document) Finish;
        Do (WriteFile (pkgPath env name folder) (pkgStr manifest)) Finish;
        Do (WriteFile (Path.join [d; "npm-shrinkwrap.json"])
              (JSON.stringify (shrinkwrap name) 0 +:+ Str.nl)) Finish ]
      Awaiting (Plan.shown env name folder)
      [ Issued (Mkdir d); Completed (Mkdir d);
        Issued (WriteFile (Path.join [d; ".npmignore"]) npmignore);
        Issued (WriteFile (Path.join [d; "LICENSE"]) LICENSE);
        Issued (WriteFile (Path.join [d; "index.ts"]) index);
        Issued (Mkdir (tests env name folder));
        Issued (Mkdir (src env name folder));
        Issued (WriteFile (Path.join [d; "tsconfig.json"])
                  (JSON.stringify tsConfig 2 +:+ Str.nl));
        Issued (WriteFile (Path.join [d; "README.md"]) document);
        Issued (WriteFile (pkgPath env name folder) (pkgStr manifest));
        Issued (WriteFile (Path.join [d; "npm-shrinkwrap.json"])
                  (JSON.stringify (shrinkwrap name) 0 +:+ Str.nl)) ].
Proof.
  unfold Plan.start, elements, initIndex, initTests, initSrc, initRootFiles.
  rewrite formatted_index, refused_test, formatted_source, formatted_document.
  reflexivity.
Qed.

Lemma tests_not_dir : tests env name folder <> d.
Proof.
  rewrite PlanFacts.tests_under. apply PlanFacts.under_not_dir.
  by repeat constructor.
Qed.

Lemma src_not_tests : src env name folder <> tests env name folder.
Proof.
  rewrite PlanFacts.tests_under, PlanFacts.src_under.
  intros E. apply PlanFacts.under_inj in E; [done|by repeat constructor..].
Qed.

Lemma start_callback_throws fs :
  callback_throws (Mkdir (tests env name folder)) e (start fs).
Proof.
  rewrite start_refused. split; [|split]; cbn [inflight trace].
  - pose proof src_not_tests.
    repeat (apply List.Forall_cons); try apply List.Forall_nil;
      intros o k Hin; cbn [links In] in Hin;
      repeat (destruct Hin as [[= <- <-]|Hin]; [split; [intros [=]|intros ?]; congruence|]);
      destruct Hin.
  - intros e' Hin. cbn [In] in Hin.
    repeat (destruct Hin as [Hin|Hin]; [discriminate Hin|]). destruct Hin.
  - pose proof tests_not_dir. intros Hin. cbn [In] in Hin.
    repeat (destruct Hin as [Hin|Hin]; [try discriminate Hin; congruence|]).
    destruct Hin.
Qed.


Lemma refused_never_fulfilled fs :
  ~ Forall (fun t => fate t = Finish) (inflight (start fs)).
Proof.
  rewrite start_refused. cbn [inflight]. intros H.
  do 3 apply Forall_cons_1 in H as [_ H]. by apply Forall_cons_1 in H as [? _].
Qed.

(** No operation of the run works on the path of the test stub. *)
Lemma refused_not_pending fs o :
  In o (pending (inflight (start fs))) ->
  op_path o <> Path.join [tests env name folder; "index.test.ts"].
Proof.
  rewrite start_refused. unfold pkgPath.
  rewrite PlanFacts.tests_under, PlanFacts.src_under, !PlanFacts.dir_child,
    !PlanFacts.under_child by (by repeat constructor).
  cbn [inflight pending flat_map ops app In]. intros Hin.
  repeat (destruct Hin as [<-|Hin];
          [cbn [op_path]; intros E;
           apply PlanFacts.under_inj in E; [discriminate E|by repeat constructor..]|]).
  destruct Hin.
Qed.

End TestStub.

(** X20: a callback that throws.  When the formatter turns down the test
    stub alone, the write of the stub is never issued, on any schedule
    and under any fault.  The rejection comes with the completion of
    [mkdir(tests)], not before: no exception is raised until then, the
    only one ever raised is the formatter's, and once [tests] is made
    the run has failed, returned and told the operator.  The success
    line is never printed. *)
Theorem test_stub_failure_follows_mkdir
    (env : Env) (name : string) (folder : option string)
    (fs : gmap string node) (schedule : list (nat * option error))
    (LICENSE : string) (prettierConfig manifest : value)
    (index source document : string) (e : error) :
  validForNewPackages (nameValidation env name) = true ->
  gather env name folder = Ok (LICENSE, prettierConfig, manifest) ->
  prettier_format env (headerdoc name manifest +:+ indexFile)
    (options prettierConfig "typescript") = Ok index ->
  prettier_format env (testFile env name)
    (options prettierConfig "typescript") = Err e ->
  prettier_format env indexFile (options prettierConfig "typescript")
  = Ok source ->
  prettier_format env (readme name) (options prettierConfig "markdown")
  = Ok document ->
  let s := create env name folder fs None schedule in
  let made := Completed (Mkdir (tests env name folder)) in
  (forall data,
     ~ In (Issued (WriteFile (Path.join [tests env name folder; "index.test.ts"])
                     data)) (trace s))
  /\ (forall e', In (Raised e') (trace s) -> e' = e /\ In made (trace s))
  /\ (In made (trace s) ->
      In (Raised e) (trace s) /\ standing s = Returned
      /\ In (NotCreated name) (console s))
  /\ ~ In (Success name (folderName name folder)) (console s).
Proof.
  intros V G H1 H2 H3 H4 s made. subst s made.
  destruct (create_created env name folder fs None schedule)
    as [V'|e' _ G'|L c m e' _ G' X|L c m fs' _ G' X];
    try congruence.
  { cbn [trace console]. unfold Plan.shown, onFailure.
    split; [|split; [|split]].
    - by intros data [[=]|[[=]|[]]].
    - by intros e0 [[=]|[[=]|[]]].
    - by intros [[=]|[[=]|[]]].
    - cbn. intuition discriminate. }
  rewrite G in G'. injection G' as <- <- <-. clear X.
  pose proof (PlanFacts.start_reported env name folder LICENSE
                prettierConfig manifest fs') as Hrep.
  pose proof (StartFacts.start_sourced_inflight env name folder LICENSE
                prettierConfig manifest fs') as Hsrc.
  pose proof (start_callback_throws env name folder LICENSE prettierConfig
                manifest index source document e H1 H2 H3 H4 fs') as Hcb.
  pose proof (refused_never_fulfilled env name folder LICENSE prettierConfig
                manifest index source document e H1 H2 H3 H4 fs') as Hnever.
  pose proof (fun o => refused_not_pending env name folder LICENSE
                prettierConfig manifest index source document e H1 H2 H3 H4
                fs' o) as Hnot.
  assert (Outcome.conserved
            (Plan.start env name folder LICENSE prettierConfig manifest fs')
            (Plan.start env name folder LICENSE prettierConfig manifest fs'))
    as Hcons.
  { intros H. split; [done|]. split; [done|]. intros o Ho. by left. }
  remember (Plan.start env name folder LICENSE prettierConfig manifest fs')
    as began eqn:Eb. clear Eb.
  apply (LoopFacts.run_reported _ _ _ schedule) in Hrep.
  apply (LoopFacts.run_sourced (onSuccess env name folder manifest)
           (onFailure name) _ schedule) in Hsrc as [Hsrc _].
  apply (run_callback_throws (onSuccess env name folder manifest)
           (onFailure name) _ _ schedule) in Hcb as (_ & Hr & Hc).
  apply (OutcomeFacts.run_conserved (onSuccess env name folder manifest)
           (onFailure name) began schedule) in Hcons.
  remember (Loop.run (onSuccess env name folder manifest) (onFailure name)
              schedule began) as s eqn:Es. clear Es.
  split; [|split; [exact Hr|split]].
  - intros data Hin. destruct (Hsrc _ Hin) as [[=]|Hp].
    by apply Hnot in Hp.
  - intros Hmade. specialize (Hc Hmade). split; [exact Hc|].
    apply raised_fails in Hc. unfold Inv.reported in Hrep.
    destruct (first_failure (trace s)) as [first|]; [|done].
    destruct Hrep as [-> ->]. split; [done|].
    apply in_app_iff. right. unfold onFailure. cbn. tauto.
  - intros Hsucc. unfold Inv.reported in Hrep.
    destruct (first_failure (trace s)) as [first|] eqn:F.
    + destruct Hrep as [_ Hcon]. rewrite Hcon in Hsucc.
      unfold onFailure, Plan.shown in Hsucc. cbn in Hsucc.
      intuition discriminate.
    + destruct Hrep as [[_ Hcon]|(_ & _ & Hall)].
      * rewrite Hcon in Hsucc. unfold Plan.shown in Hsucc. cbn in Hsucc.
        intuition discriminate.
      * destruct (Hcons F) as (_ & Hfate & _). apply Hnever.
        apply all_finished_spec in Hall. by apply (fate_same _ _ Hfate).
Qed.

Lemma test_stub_failure_follows_mkdir_witness :
  let s := create Faulty.env_no_tests "widgets" None Sample.disk None
             [(3, None)]%nat in
  standing s = Returned /\ In (NotCreated "widgets") (console s).
Proof.
  intros s.
  edestruct (test_stub_failure_follows_mkdir Faulty.env_no_tests "widgets" None
               Sample.disk [(3, None)]%nat) as (_ & _ & Hm & _).
  - reflexivity.
  - vm_compute. reflexivity.
  - vm_compute. reflexivity.
  - vm_compute. reflexivity.
  - vm_compute. reflexivity.
  - vm_compute. reflexivity.
  - apply Hm. vm_compute. do 11 right. left. reflexivity.
Defined.

(** ** Joins of joins *)

Module JoinFacts.
Import StrFacts Segments PathFacts PathMore.

(** [normalize] looks at three things only: whether the path is
    absolute, what it keeps, and whether it ends with a separator. *)
Lemma normalize_determined p q :
  p <> "" -> q <> "" ->
  Path.isAbsolute p = Path.isAbsolute q ->
  stack (negb (Path.isAbsolute p)) p = stack (negb (Path.isAbsolute p)) q ->
  Path.trailingSeparator p = Path.trailingSeparator q ->
  Path.normalize p = Path.normalize q.
Proof.
  intros Hp Hq Ea Ek Et. unfold Path.normalize, Path.normalizeString.
  rewrite (proj2 (String.eqb_neq _ _) Hp), (proj2 (String.eqb_neq _ _) Hq).
  fold (stack (negb (Path.isAbsolute p)) p).
  fold (stack (negb (Path.isAbsolute q)) q).
  by rewrite <- Ea, <- Ek, <- Et.
Qed.

Lemma trailing_after x y :
  y <> "" ->
  Path.trailingSeparator (x +:+ "/" +:+ y) = Path.trailingSeparator y.
Proof.
  intros Hy. destruct y as [|c y]; [done|].
  unfold Path.trailingSeparator. by rewrite <- app_assoc, last_app.
Qed.

Lemma stack_after allow x y :
  stack allow (x +:+ "/" +:+ y)
  = fold_left (Path.push allow) (Path.split y) (stack allow x).
Proof.
  unfold stack. destruct y as [|c y].
  - change ("/" +:+ "") with (String Path.slash "").
    by rewrite split_app, fold_left_app.
  - change ("/" +:+ String c y) with (String Path.slash (String c y)).
    by rewrite split_app, fold_left_app.
Qed.

Lemma join_text_nonempty l :
  l <> [] -> Forall (fun a => a <> "") l -> Str.join "/" l <> "".
Proof.
  intros Hl Hall. destruct l as [|a l]; [done|].
  apply Forall_cons_1 in Hall as [Ha _].
  destruct l as [|b l]; [done|].
  change (Str.join "/" (a :: b :: l)) with (a +:+ "/" +:+ Str.join "/" (b :: l)).
  by intros [? _]%app_eq_nil.
Qed.

End JoinFacts.

(** X21: joins of joins.  A name joined to a join is the join of all the
    parts, as soon as one of the first parts is not empty: the path of
    the test stub, [join(join(join(workspaceDir, "packages",
    folderName), "tests"), "index.test.ts")], is the join of the five
    parts, whatever the folder name. *)
Theorem nested_joins_flatten (parts : list string) (last : string) :
  (exists part, In part parts /\ part <> "") ->
  last <> "" ->
  Path.join [Path.join parts; last] = Path.join (parts ++ [last]).
Proof.
  intros (part & Hin & Hne) Hlast. unfold Path.join at 1 3.
  rewrite filter_app, !filter_cons_True, filter_nil
    by (done || apply PathFacts.join_nonempty).
  unfold Path.join.
  destruct (filter (fun a => a <> "") parts) as [|a kept] eqn:Ef.
  { exfalso. assert (part ∈ filter (fun a => a <> "") parts) as H
      by (apply list_elem_of_filter; split; [done|by apply list_elem_of_In]).
    rewrite Ef in H. by apply elem_of_nil in H. }
  assert (Forall (fun a => a <> "") (a :: kept)) as Hall
    by (rewrite <- Ef; apply Forall_forall; by intros x [? _]%list_elem_of_filter).
  assert (Str.join "/" (a :: kept) <> "") as Hx
    by (by apply JoinFacts.join_text_nonempty).
  set (x := Str.join "/" (a :: kept)) in *.
  destruct ((a :: kept) ++ [last]) as [|b rest] eqn:El;
    [by destruct kept|].
  rewrite <- El, StrFacts.join_snoc. fold x.
  change (Str.join "/" [Path.normalize x; last])
    with (Path.normalize x +:+ "/" +:+ last).
  assert (Path.isAbsolute (Path.normalize x +:+ "/" +:+ last)
          = Path.isAbsolute (x +:+ "/" +:+ last)) as Ea.
  { rewrite !PathFacts.absolute_app
      by (done || apply PathFacts.normalize_nonempty).
    apply PathMore.normalize_absolute. }
  apply JoinFacts.normalize_determined.
  - intros [E _]%StrFacts.app_eq_nil. by apply PathFacts.normalize_nonempty in E.
  - by intros [E _]%StrFacts.app_eq_nil.
  - exact Ea.
  - rewrite Ea, !JoinFacts.stack_after. f_equal.
    rewrite PathFacts.absolute_app by done. apply PathMore.normalize_stack.
  - by rewrite !JoinFacts.trailing_after.
Qed.

Lemma nested_joins_flatten_witness :
  Path.join [tests Sample.env "widgets" (Some "tools/../gadgets/"); "index.test.ts"]
  = "/repo/packages/gadgets/tests/index.test.ts".
Proof.
  unfold tests, dir.
  rewrite !nested_joins_flatten; [reflexivity|try done..];
    eexists; (split; [right; left; reflexivity|done]).
Defined.

(** X22: what [normalize] and [join] return is normalized: normalizing a
    path twice is normalizing it once, so the paths the script hands to
    the file system are left as they are by [normalize]. *)
Theorem joined_paths_are_normalized :
  (forall path, Path.normalize (Path.normalize path) = Path.normalize path)
  /\ (forall args, Path.normalize (Path.join args) = Path.join args).
Proof.
  assert (forall path,
            Path.normalize (Path.normalize path) = Path.normalize path) as Hn.
  { intros path.
    destruct (decide (path = "")) as [->|Hne]; [reflexivity|].
    destruct (Segments.stack (negb (Path.isAbsolute path)) path)
      as [|a kept] eqn:Hk.
    - rewrite (PathMore.normalize_kept_nothing path) by done.
      by destruct (Path.isAbsolute path), (Path.trailingSeparator path).
    - pose proof (PathFacts.stack_canon (negb (Path.isAbsolute path)) path) as Hc.
      rewrite Hk in Hc.
      pose proof (PathMore.normalize_absolute path) as Ea.
      pose proof (PathMore.normalize_stack path) as Es.
      rewrite Hk in Es. rewrite <- Ea in Es.
      pose proof (PathMore.normalize_kept path a kept Hne Hk) as En.
      assert (Path.trailingSeparator (Path.normalize path)
              = Path.trailingSeparator path) as Et.
      { rewrite En. destruct (Path.trailingSeparator path).
        - apply PathMore.trailing_slash.
        - rewrite StrFacts.app_nil_r. by apply TreeFacts.trailing_text. }
      rewrite (PathMore.normalize_kept (Path.normalize path) a kept)
        by (done || apply PathFacts.normalize_nonempty).
      by rewrite Ea, Et, <- En. }
  split; [exact Hn|]. intros args. unfold Path.join.
  destruct (filter _ args); [reflexivity|apply Hn].
Qed.

